(** * csniff/basesniffmodule.c: the baseband sniffer protocol engine

    A shallow embedding of the decode path of [basesniffmodule.c]
    (vendor command codec, frontline decoder, LMP decoder, pairing
    observer, HCI dump writer, top-level receive loop) and the
    properties of it that the specification states.

    Conventions.
    - C integers are [Z]; bit operations are [Z.land], [Z.lor],
      [Z.shiftl], [Z.shiftr]; a narrowing store writes the value
      modulo the width.
    - A pointer argument [void *buf] is the list of bytes that lie
      behind the pointer in the enclosing array (it may be longer than
      the [len] argument that travels with it); reading past the end of
      that list is undefined behaviour ([Fault]).
    - [assert] is active: a failing assertion ends the process
      ([Abort]), like [abort()].
    - [printf] output is a trace of [event]s, one per output unit;
      [write] calls on the dump descriptor are a trace of [chunk]s and
      always write the whole chunk. *)

From Stdlib Require Import String Ascii ZArith List Bool Lia.
Import ListNotations.
Local Open Scope Z_scope.

(** ** The header [basesniffmodule.h]

    The header is not part of the source tree.  Its macros and the
    field offsets of its packed structs are the fields of [Header]; the
    code below is written against them by name. *)

Class Header : Type := {
  (* vendor command channel *)
  FRAG_FIRST : Z;
  FRAG_LAST : Z;
  CHAN_DEBUG : Z;
  CMD_TIMER : Z;
  (* struct dbg_packet: bytes that follow dp_type (sizeof - 1) *)
  DP_REST : nat;
  (* struct frontline_packet *)
  HLEN_BC2 : Z;
  HLEN_BC4 : Z;
  FP_TYPE_SHIFT : Z;
  FP_TYPE_MASK : Z;
  FP_ADDR_MASK : Z;
  FP_LEN_SHIFT : Z;
  FP_LEN_LLID_SHIFT : Z;
  FP_LEN_LLID_MASK : Z;
  FP_SLAVE_MASK : Z;
  FP_CLOCK_MASK : Z;
  FP_STATUS_SHIFT : Z;
  OFF_fp_hlen : nat;
  OFF_fp_chan : nat;
  OFF_fp_clock : nat;
  OFF_fp_hdr0 : nat;
  OFF_fp_len : nat;
  (* session *)
  MAX_TYPES : nat;
  TYPE_DV : Z;
  LLID_LMP : Z;
  (* LMP *)
  LMP_TID_MASK : Z;
  LMP_OP1_SHIFT : Z;
  LMP_IN_RAND : Z;
  LMP_COMB_KEY : Z;
  LMP_AU_RAND : Z;
  LMP_SRES : Z
}.

(** What a C compiler and the decoder need of the header: the [case]
    labels of a [switch] are pairwise different, and a frontline header
    has a positive length. *)
Class HeaderOk (H : Header) : Prop := {
  lmp_labels_distinct :
    NoDup [LMP_IN_RAND; LMP_COMB_KEY; LMP_AU_RAND; LMP_SRES];
  hlen_bc2_pos : 0 < HLEN_BC2;
  hlen_bc4_pos : 0 < HLEN_BC4
}.

(** Constants of BlueZ ([<bluetooth/hci.h>]). *)
Definition HCI_ACLDATA_PKT : Z := 2.
Definition HCI_EVENT_PKT : Z := 4.
Definition EVT_VENDOR : Z := 255.
(** [sizeof(hci_event_hdr)]: [uint8_t evt; uint8_t plen]. *)
Definition sizeof_hci_event_hdr : Z := 2.
(** [sizeof(hci_acl_hdr)]: [uint16_t handle; uint16_t dlen]. *)
Definition sizeof_hci_acl_hdr : Z := 4.
(** [acl_handle_pack(h, f)] is [(h & 0x0fff) | (f << 12)], a [uint16_t]. *)
Definition acl_handle_pack (h f : Z) : Z :=
  Z.lor (Z.land h 4095) (Z.shiftl f 12) mod 65536.

(** Width of [size_t] on the supported (LP64) targets. *)
Definition SIZE_T_BITS : Z := 64.

(** ** Bytes and little-endian fields *)

Definition byte_at (buf : list Z) (off : nat) : option Z := nth_error buf off.

Definition le16_at (buf : list Z) (off : nat) : option Z :=
  match byte_at buf off, byte_at buf (off + 1) with
  | Some b0, Some b1 => Some (b0 + 256 * b1)
  | _, _ => None
  end.

Definition le32_at (buf : list Z) (off : nat) : option Z :=
  match le16_at buf off, le16_at buf (off + 2) with
  | Some lo, Some hi => Some (lo + 65536 * hi)
  | _, _ => None
  end.

Definition le16_bytes (v : Z) : list Z := [v mod 256; (v / 256) mod 256].

(** [memcpy(dst, src, len)] into an array [dst]: the first [len] bytes
    of [dst] are replaced. *)
Definition overwrite (dst src : list Z) (len : nat) : list Z :=
  firstn len src ++ skipn len dst.

Fixpoint set_nth {A : Type} (l : list A) (i : nat) (x : A) : list A :=
  match l, i with
  | [], _ => []
  | _ :: t, O => x :: t
  | h :: t, S j => h :: set_nth t j x
  end.

(** ** Session state *)

(** [s_master] and [s_pin_master] are C [int]s that only ever hold the
    result of [!] (or the zero of a fresh object): they are [bool]. *)
Record PyState : Type := {
  s_buf : list Z;
  s_len : Z;
  s_dump : Z;
  s_ignore : list Z;
  s_ignore_zero : Z;
  s_llid : Z;
  s_master : bool;
  s_type : Z;
  s_pin : Z;
  s_pin_master : bool;
  s_pin_data : list (list Z)
}.

Definition set_frame (s : PyState) (llid : Z) (master : bool) (type : Z) : PyState :=
  {| s_buf := s_buf s; s_len := s_len s;
     s_dump := s_dump s; s_ignore := s_ignore s; s_ignore_zero := s_ignore_zero s;
     s_llid := llid; s_master := master; s_type := type;
     s_pin := s_pin s; s_pin_master := s_pin_master s; s_pin_data := s_pin_data s |}.

Definition set_buf (s : PyState) (b : list Z) (n : Z) : PyState :=
  {| s_buf := b; s_len := n;
     s_dump := s_dump s; s_ignore := s_ignore s; s_ignore_zero := s_ignore_zero s;
     s_llid := s_llid s; s_master := s_master s; s_type := s_type s;
     s_pin := s_pin s; s_pin_master := s_pin_master s; s_pin_data := s_pin_data s |}.

Definition set_pin (s : PyState) (m : Z) : PyState :=
  {| s_buf := s_buf s; s_len := s_len s;
     s_dump := s_dump s; s_ignore := s_ignore s; s_ignore_zero := s_ignore_zero s;
     s_llid := s_llid s; s_master := s_master s; s_type := s_type s;
     s_pin := m; s_pin_master := s_pin_master s; s_pin_data := s_pin_data s |}.

Definition set_pin_master (s : PyState) (pm : bool) : PyState :=
  {| s_buf := s_buf s; s_len := s_len s;
     s_dump := s_dump s; s_ignore := s_ignore s; s_ignore_zero := s_ignore_zero s;
     s_llid := s_llid s; s_master := s_master s; s_type := s_type s;
     s_pin := s_pin s; s_pin_master := pm; s_pin_data := s_pin_data s |}.

Definition set_pin_data (s : PyState) (d : list (list Z)) : PyState :=
  {| s_buf := s_buf s; s_len := s_len s;
     s_dump := s_dump s; s_ignore := s_ignore s; s_ignore_zero := s_ignore_zero s;
     s_llid := s_llid s; s_master := s_master s; s_type := s_type s;
     s_pin := s_pin s; s_pin_master := s_pin_master s; s_pin_data := d |}.

(** ** Output *)

(** The fields printed by the header summary [printf] of
    [process_frontline]. *)
Record frame_log : Type := {
  fl_hlen : Z;
  fl_chan : Z;
  fl_master : bool;
  fl_clock : Z;
  fl_status : Z;
  fl_hdr0 : Z;
  fl_type : Z;
  fl_addr : Z;
  fl_llid : Z;
  fl_plen : Z
}.

Inductive event : Type :=
| OutUnknownType (t : Z)            (* "Unknown type: %d\n" *)
| OutUnknownHlen (h : Z)            (* "Unknown header len %d\n" *)
| OutFrame (f : frame_log)          (* "HL 0x%.2X Ch ... Len %d" *)
| OutText (s : string)              (* a printf without arguments *)
| OutLmp (tid op1 : Z)              (* "LMP Tid %d Op1 %d" *)
| OutOp2 (op2 : Z)                  (* " Op2 %d" *)
| OutHexdump (bytes : list Z)       (* hexdump(buf, len) *)
| OutPin (pm : bool) (slots : list (list Z)).  (* the btpincrack line *)

Record hcidump_hdr : Type := {
  dh_len : Z;
  dh_in : Z;
  dh_ts_sec : Z;
  dh_ts_usec : Z
}.

(** One [write(s->s_dump, ...)] call. *)
Inductive chunk : Type :=
| WDumpHdr (h : hcidump_hdr)
| WBytes (l : list Z).

Record World : Type := {
  st : PyState;
  console : list event;
  dumpfile : list chunk
}.

Inductive failure : Type :=
| AssertLmpLen17        (* dump_lmp: assert(len <= 17) *)
| AssertLmpLen          (* process_lmp: assert(len >= 0) *)
| UnknownHeaderLen      (* process_frontline: abort() *)
| AssertFrontlineLen    (* process_frontline: assert(len >= 0), assert(len >= plen) *)
| AssertAclDlen.        (* process: assert(acl->dlen == ...) *)

(** [Ok]: the call returns; [Abort]: a failed [assert] or [abort()]
    ends the process; [Fault]: undefined behaviour (an access outside
    an array); [OutOfFuel]: the recursion bound of the embedding was
    reached. *)
Inductive outcome (A : Type) : Type :=
| Ok (a : A) (w : World)
| Abort (f : failure) (w : World)
| Fault
| OutOfFuel.
Arguments Ok {A} a w.
Arguments Abort {A} f w.
Arguments Fault {A}.
Arguments OutOfFuel {A}.

Definition M (A : Type) : Type := World -> outcome A.

Definition ret {A : Type} (a : A) : M A := fun w => Ok a w.

Definition bind {A B : Type} (m : M A) (k : A -> M B) : M B :=
  fun w =>
    match m w with
    | Ok a w' => k a w'
    | Abort f w' => Abort f w'
    | Fault => Fault
    | OutOfFuel => OutOfFuel
    end.

Notation "x <- m ;; k" := (bind m (fun x => k))
  (at level 61, m at next level, right associativity).
Notation "m ;;; k" := (bind m (fun _ => k))
  (at level 61, right associativity).

Definition get : M PyState := fun w => Ok (st w) w.

Definition put (s : PyState) : M unit :=
  fun w => Ok tt {| st := s; console := console w; dumpfile := dumpfile w |}.

Definition print (e : event) : M unit :=
  fun w => Ok tt {| st := st w; console := console w ++ [e]; dumpfile := dumpfile w |}.

Definition write (c : chunk) : M unit :=
  fun w => Ok tt {| st := st w; console := console w; dumpfile := dumpfile w ++ [c] |}.

Definition abort {A : Type} (f : failure) : M A := fun w => Abort f w.

Definition fault {A : Type} : M A := fun _ => Fault.

Definition assert (b : bool) (f : failure) : M unit :=
  if b then ret tt else abort f.

(** [hexdump(buf, len)]: [while (len--)] prints [len] bytes; a negative
    [len] or one past the array runs off the array. *)
Definition hexdump (buf : list Z) (len : Z) : M unit :=
  if (0 <=? len) && (len <=? Z.of_nat (length buf))
  then print (OutHexdump (firstn (Z.to_nat len) buf))
  else fault.

(** ** The pairing observer ([do_pin]) *)

Definition GOT_IN_RAND : Z := Z.shiftl 1 1.
Definition GOT_COMB1 : Z := Z.shiftl 1 2.
Definition GOT_COMB2 : Z := Z.shiftl 1 3.
Definition GOT_AU_RAND1 : Z := Z.shiftl 1 4.
Definition GOT_SRES1 : Z := Z.shiftl 1 5.
Definition GOT_AU_RAND2 : Z := Z.shiftl 1 6.
Definition GOT_SRES2 : Z := Z.shiftl 1 7.

(** Modelled from the spec: the declaration [s_pin_data[7][16]] of the
    session is in the missing header; the spec gives seven slots of
    which slots 0..4 hold 16-byte values, and [do_pin] prints 16 bytes
    of each of them. *)
Definition PIN_SLOTS : nat := 7.
Definition PIN_SLOT_LEN : Z := 16.

(** How the [switch] of [do_pin] is left. *)
Inductive flow : Type :=
| Break (s : PyState)   (* [break]: go on to the completeness test *)
| Return                (* [return]: input ignored *)
| Crash.                (* [memcpy] outside the slot *)

(** [memcpy(s->s_pin_data[i], buf, len)], then the rest [k] of the
    [case].  Copying more than a slot holds, a negative length, or more
    bytes than lie behind [buf] is undefined. *)
Definition slot_copy (s : PyState) (i : nat) (buf : list Z) (len : Z)
    (k : PyState -> flow) : flow :=
  if (0 <=? len) && (len <=? PIN_SLOT_LEN) && (len <=? Z.of_nat (List.length buf))
  then
    let slot := nth i (s_pin_data s) [] in
    k (set_pin_data s (set_nth (s_pin_data s) i (overwrite slot buf (Z.to_nat len))))
  else Crash.

(** [s->s_pin |= flag; break;] *)
Definition or_pin (flag : Z) (s : PyState) : flow :=
  Break (set_pin s (Z.lor (s_pin s) flag)).

Section Pin.
Context {H : Header}.

Definition do_pin_switch (s : PyState) (op : Z) (buf : list Z) (len : Z) : flow :=
  if op =? LMP_IN_RAND then
    let s1 := set_pin s (Z.lor 1 GOT_IN_RAND) in
    let s2 := set_pin_master s1 (s_master s1) in
    slot_copy s2 0 buf len Break
  else if op =? LMP_COMB_KEY then
    if Z.land (s_pin s) GOT_IN_RAND =? 0 then Return
    else if Bool.eqb (s_master s) (s_pin_master s)
         then slot_copy s 1 buf len (or_pin GOT_COMB1)
         else slot_copy s 2 buf len (or_pin GOT_COMB2)
  else if op =? LMP_AU_RAND then
    if (Z.land (s_pin s) GOT_COMB1 =? 0) || (Z.land (s_pin s) GOT_COMB2 =? 0)
    then Return
    else if Bool.eqb (s_master s) (s_pin_master s)
         then slot_copy s 3 buf len (or_pin GOT_AU_RAND1)
         else slot_copy s 4 buf len (or_pin GOT_AU_RAND2)
  else if op =? LMP_SRES then
    if negb (Bool.eqb (s_master s) (s_pin_master s))
    then (if Z.land (s_pin s) GOT_AU_RAND1 =? 0 then Return
          else slot_copy s 6 buf len (or_pin GOT_SRES1))
    else (if Z.land (s_pin s) GOT_AU_RAND2 =? 0 then Return
          else slot_copy s 5 buf len (or_pin GOT_SRES2))
  else Return.

(** The bytes the final loop of [do_pin] prints: 16 of each of slots
    0..4, 4 of slots 5 and 6. *)
Definition printed_slots (d : list (list Z)) : list (list Z) :=
  map (fun i => firstn (if (5 <=? i)%nat then 4 else 16) (nth i d []))
      (seq 0 PIN_SLOTS).

Definition do_pin (op : Z) (buf : list Z) (len : Z) : M unit :=
  s <- get ;;
  match do_pin_switch s op buf len with
  | Crash => fault
  | Return => ret tt
  | Break s' =>
      put s' ;;;
      if negb (s_pin s' =? 255) then ret tt
      else
        print (OutPin (s_pin_master s') (printed_slots (s_pin_data s'))) ;;;
        put (set_pin s' 1)
  end.

End Pin.

(** The text of the line: ["btpincrack Go "], the role order, seven hex
    strings each followed by a blank, a newline. *)
Definition hexdigit (n : Z) : ascii :=
  match n with
  | 0 => "0" | 1 => "1" | 2 => "2" | 3 => "3" | 4 => "4" | 5 => "5"
  | 6 => "6" | 7 => "7" | 8 => "8" | 9 => "9" | 10 => "a" | 11 => "b"
  | 12 => "c" | 13 => "d" | 14 => "e" | _ => "f"
  end%char.

(** ["%.2x"] of an [unsigned char]. *)
Definition hex2 (b : Z) : string :=
  String (hexdigit ((b / 16) mod 16)) (String (hexdigit (b mod 16)) EmptyString).

Definition hexstr (l : list Z) : string :=
  fold_right (fun b acc => (hex2 b ++ acc)%string) EmptyString l.

Definition pin_roles (pm : bool) : string :=
  if pm then "<master> <slave> "%string else "<slave> <master> "%string.

Definition pin_line (pm : bool) (slots : list (list Z)) : string :=
  ("btpincrack Go " ++ pin_roles pm ++
   fold_right (fun l acc => hexstr l ++ " " ++ acc) (String "010" EmptyString) slots)%string.

(** ** The dump writer and the payload decoders *)

Definition read_byte (buf : list Z) (off : nat) : M Z :=
  match byte_at buf off with
  | Some b => ret b
  | None => fault
  end.

Definition read_le16 (buf : list Z) (off : nat) : M Z :=
  match le16_at buf off with
  | Some v => ret v
  | None => fault
  end.

Definition read_le32 (buf : list Z) (off : nat) : M Z :=
  match le32_at buf off with
  | Some v => ret v
  | None => fault
  end.

(** [process_l2cap].  The [len] of the hcidump header and the [dlen]
    of the ACL header are 16-bit fields: [dh.len = totlen] and
    [acl.dlen = len] keep the low 16 bits of the [int].  (In [dump_lmp]
    below [totlen] is the constant 23.) *)
Definition process_l2cap (buf : list Z) (len : Z) : M unit :=
  let type := HCI_ACLDATA_PKT in
  let totlen := 1 + sizeof_hci_acl_hdr + len in
  print (OutText "L2CAP: ") ;;;
  hexdump buf len ;;;
  s <- get ;;
  if s_dump s =? -1 then ret tt
  else
    write (WDumpHdr {| dh_len := totlen mod 2 ^ 16; dh_in := 1;
                       dh_ts_sec := 0; dh_ts_usec := 0 |}) ;;;
    write (WBytes [type]) ;;;
    write (WBytes (le16_bytes (acl_handle_pack 0 (s_llid s)) ++ le16_bytes len)) ;;;
    write (WBytes (firstn (Z.to_nat len) buf)).

(** The array [csr_lmp] of [dump_lmp] when it is written. *)
Definition csr_lmp (master : bool) (buf : list Z) (len : Z) : list Z :=
  let c := repeat 0 (1 + 1 + 17 + 1) in
  let c := set_nth c 0 20 in
  let c := set_nth c 1 (if master then 16 else 15) in
  let c := firstn 2 c ++ overwrite (skipn 2 c) buf (Z.to_nat len) in
  set_nth c (2 + 17) 0.

(** [dump_lmp].  Its last assertion compares the constant offset
    [2 + 17] with [sizeof(csr_lmp)] and cannot fail. *)
Definition dump_lmp (buf : list Z) (len : Z) : M unit :=
  let type := HCI_EVENT_PKT in
  let totlen := 1 + sizeof_hci_event_hdr + Z.of_nat (1 + 1 + 17 + 1) in
  assert (len <=? 17) AssertLmpLen17 ;;;
  write (WDumpHdr {| dh_len := totlen; dh_in := 1; dh_ts_sec := 0; dh_ts_usec := 0 |}) ;;;
  write (WBytes [type]) ;;;
  write (WBytes [EVT_VENDOR; Z.of_nat (1 + 1 + 17 + 1)]) ;;;
  s <- get ;;
  if (0 <=? len) && (len <=? Z.of_nat (List.length buf))
  then write (WBytes (csr_lmp (s_master s) buf len))
  else fault.

Definition process_dv (buf : list Z) (len : Z) : M unit :=
  print (OutText "DV: ") ;;;
  hexdump buf len.

Section Decoder.
Context {H : Header}.

(** [process_lmp] *)
Definition process_lmp (buf : list Z) (len : Z) : M unit :=
  s <- get ;;
  (if negb (s_dump s =? -1) then dump_lmp buf len else ret tt) ;;;
  op1 <- read_byte buf 0 ;;
  let data := skipn 1 buf in
  let len := len - 1 in
  assert (0 <=? len) AssertLmpLen ;;;
  let tid := Z.land op1 LMP_TID_MASK in
  let op1 := Z.shiftr op1 LMP_OP1_SHIFT in
  r <- (if (124 <=? op1) && (op1 <=? 127)
        then
          op2 <- read_byte data 0 ;;
          let data := skipn 1 data in
          let len := len - 1 in
          assert (0 <=? len) AssertLmpLen ;;;
          ret (op2, data, len)
        else ret (-1, data, len)) ;;
  let '(op2, data, len) := r in
  print (OutLmp tid op1) ;;;
  (if negb (op2 =? -1) then print (OutOp2 op2) else ret tt) ;;;
  print (OutText ": ") ;;;
  hexdump data len ;;;
  s <- get ;;
  if negb (s_pin s =? 0) then do_pin op1 data len else ret tt.

(** [process_payload] *)
Definition process_payload (buf : list Z) (len : Z) : M unit :=
  s <- get ;;
  if s_type s =? TYPE_DV then process_dv buf len
  else if s_llid s =? LLID_LMP then process_lmp buf len
  else process_l2cap buf len.

(** ** The frontline decoder *)

(** How one invocation of [process_frontline] ends: by a [return] of
    the ignore filters, by falling off the end, or by the tail call on
    [start + plen] with the remaining length. *)
Inductive fl_exit : Type :=
| FlSkipped
| FlDone
| FlMore (buf : list Z) (len : Z).

(** The body of [process_frontline], up to its tail call. *)
Definition frontline_step (buf : list Z) (len : Z) : M fl_exit :=
  hdr0 <- read_byte buf OFF_fp_hdr0 ;;
  fp_len <- read_le16 buf OFF_fp_len ;;
  hlen <- read_byte buf OFF_fp_hlen ;;
  let type := Z.land (Z.shiftr hdr0 FP_TYPE_SHIFT) FP_TYPE_MASK in
  let plen := Z.shiftr fp_len FP_LEN_SHIFT in
  let status := Z.land hdr0 FP_ADDR_MASK in
  (if (hlen =? HLEN_BC2) || (hlen =? HLEN_BC4) then ret tt
   else print (OutUnknownHlen hlen) ;;; abort UnknownHeaderLen) ;;;
  let start := skipn (Z.to_nat hlen) buf in
  s <- get ;;
  if existsb (fun x => x =? type) (firstn MAX_TYPES (s_ignore s)) then ret FlSkipped
  else if negb (s_ignore_zero s =? 0) && (plen =? 0) then ret FlSkipped
  else
    clock <- read_le32 buf OFF_fp_clock ;;
    chan <- read_byte buf OFF_fp_chan ;;
    let llid := Z.land (Z.shiftr fp_len FP_LEN_LLID_SHIFT) FP_LEN_LLID_MASK in
    let master := Z.land clock FP_SLAVE_MASK =? 0 in
    put (set_frame s llid master type) ;;;
    print (OutFrame {| fl_hlen := hlen; fl_chan := chan; fl_master := master;
                       fl_clock := Z.land clock FP_CLOCK_MASK;
                       fl_status := Z.shiftr clock FP_STATUS_SHIFT;
                       fl_hdr0 := hdr0; fl_type := type; fl_addr := status;
                       fl_llid := llid; fl_plen := plen |}) ;;;
    let len := len - hlen in
    assert (0 <=? len) AssertFrontlineLen ;;;
    assert (plen <=? len) AssertFrontlineLen ;;;
    (if negb (plen =? 0)
     then print (OutText " ") ;;; process_payload start plen
     else print (OutText (String "010" EmptyString))) ;;;
    let len := len - plen in
    assert (0 <=? len) AssertFrontlineLen ;;;
    if negb (len =? 0)
    then ret (FlMore (skipn (Z.to_nat plen) start) len)
    else ret FlDone.

(** [process_frontline]: the step, repeated along the tail calls.  The
    result (the C function returns nothing) counts the invocations and
    tells whether the last one was cut short by an ignore filter. *)
Fixpoint process_frontline_fuel (fuel : nat) (buf : list Z) (len : Z)
    : M (nat * bool) :=
  match fuel with
  | O => fun _ => OutOfFuel
  | S fuel' =>
      e <- frontline_step buf len ;;
      match e with
      | FlMore buf' len' =>
          r <- process_frontline_fuel fuel' buf' len' ;;
          ret (S (fst r), snd r)
      | FlDone => ret (1%nat, false)
      | FlSkipped => ret (1%nat, true)
      end
  end.

(** Every invocation but the last consumes at least one byte of [len],
    so [len] invocations and one more are enough. *)
Definition process_frontline (buf : list Z) (len : Z) : M (nat * bool) :=
  process_frontline_fuel (S (Z.to_nat len)) buf len.

(** [process] *)
Definition process (buf : list Z) (len : Z) : M unit :=
  type <- read_byte buf 0 ;;
  if negb (type =? HCI_ACLDATA_PKT)
  then print (OutUnknownType type)
  else
    let acl := skipn 1 buf in
    dlen <- read_le16 acl 2 ;;
    assert (dlen =? (len - sizeof_hci_acl_hdr - 1) mod 2 ^ SIZE_T_BITS) AssertAclDlen ;;;
    process_frontline (skipn (Z.to_nat sizeof_hci_acl_hdr) acl) dlen ;;;
    ret tt.

(** The loop of [basesniff_sniff] over the packets that [read] delivers:
    a packet lands at the start of [s_buf], and what was behind it
    stays. *)
Definition read_packet (pkt : list Z) : M unit :=
  s <- get ;;
  let n := Nat.min (List.length pkt) (List.length (s_buf s)) in
  put (set_buf s (overwrite (s_buf s) pkt n) (Z.of_nat n)).

Fixpoint sniff_loop (reads : list (list Z)) : M unit :=
  match reads with
  | [] => ret tt
  | pkt :: rest =>
      read_packet pkt ;;;
      s <- get ;;
      process (s_buf s) (s_len s) ;;;
      sniff_loop rest
  end.

End Decoder.

(** ** The vendor command codec *)

(** Modelled from the spec: [struct dbg_packet] is declared in the
    missing header; the spec describes a fixed-size record carrying a
    command opcode and an inline payload area.  The opcode [dp_type] is
    its first byte, [DP_REST] further bytes follow. *)
Record dbg_packet : Type := {
  dp_type : Z;
  dp_rest : list Z
}.

Section Codec.
Context {H : Header}.

(** [memset(&pkt, 0, sizeof(pkt))] *)
Definition dbg_packet_zero : dbg_packet :=
  {| dp_type := 0; dp_rest := repeat 0 DP_REST |}.

Definition dbg_packet_bytes (dp : dbg_packet) : list Z :=
  dp_type dp mod 256 :: firstn DP_REST (dp_rest dp ++ repeat 0 DP_REST).

(** BlueZ: [OGF_VENDOR_CMD]. *)
Definition OGF_VENDOR_CMD : Z := 63.

Record hci_request : Type := {
  rq_ogf : Z;
  rq_ocf : Z;
  rq_event : Z;
  rq_cparam : list Z;
  rq_rlen : Z
}.

(** [send_debug]: the request handed to [hci_send_req], or [None] when
    the packet does not fit [cp]. *)
Definition send_debug (dp : dbg_packet) (rplen : Z) : option hci_request :=
  let cp := repeat 0 254 in
  let cp := set_nth cp 0 (Z.lor (Z.lor FRAG_FIRST FRAG_LAST) CHAN_DEBUG mod 256) in
  let n := List.length (dbg_packet_bytes dp) in
  if (1 + n <=? 254)%nat then
    let cp := firstn 1 cp ++ overwrite (skipn 1 cp) (dbg_packet_bytes dp) n in
    Some {| rq_ogf := OGF_VENDOR_CMD; rq_ocf := 0; rq_event := EVT_VENDOR;
            rq_cparam := firstn (1 + n) cp; rq_rlen := rplen |}
  else None.

(** The [int] that [Py_BuildValue("i", v)] receives for an
    [unsigned int] [v]. *)
Definition as_int (v : Z) : Z :=
  if v <? 2 ^ 31 then v else v - 2 ^ 32.

(** [basesniff_get_timer]: the request it sends and, for the reply that
    [hci_send_req] copies into the zeroed [rp], the value it returns:
    the [unsigned int] at [&rp[2]], read on a little-endian host. *)
Definition basesniff_get_timer (reply : list Z) : option (hci_request * Z) :=
  let rp := repeat 0 254 in
  let pkt := dbg_packet_zero in
  let pkt := {| dp_type := CMD_TIMER; dp_rest := dp_rest pkt |} in
  match send_debug pkt 254 with
  | None => None
  | Some rq =>
      let rp := overwrite rp reply (Nat.min (List.length reply) 254) in
      match le32_at rp 2 with
      | Some v => Some (rq, as_int v)
      | None => None
      end
  end.

End Codec.

(** Modelled from the spec: a header instance to run the definitions
    on.  The spec gives the prefix byte FRAG_FIRST|FRAG_LAST|CHAN_DEBUG
    as 0x07 and CMD_TIMER as 0x00 (scenario S1) and an LMP opcode byte
    as tid in bit 0 and op1 above it (scenario S4); the LMP opcodes are
    the Bluetooth assigned numbers; the frontline layout is one packed
    header of 14 or 15 bytes. *)
Definition sample_header : Header := {|
  FRAG_FIRST := 1; FRAG_LAST := 2; CHAN_DEBUG := 4; CMD_TIMER := 0;
  DP_REST := 22;
  HLEN_BC2 := 14; HLEN_BC4 := 15;
  FP_TYPE_SHIFT := 3; FP_TYPE_MASK := 15; FP_ADDR_MASK := 7;
  FP_LEN_SHIFT := 3; FP_LEN_LLID_SHIFT := 0; FP_LEN_LLID_MASK := 3;
  FP_SLAVE_MASK := 2; FP_CLOCK_MASK := 268435455; FP_STATUS_SHIFT := 28;
  OFF_fp_hlen := 0; OFF_fp_clock := 1; OFF_fp_hdr0 := 5; OFF_fp_len := 6;
  OFF_fp_chan := 12;
  MAX_TYPES := 4; TYPE_DV := 8; LLID_LMP := 3;
  LMP_TID_MASK := 1; LMP_OP1_SHIFT := 1;
  LMP_IN_RAND := 8; LMP_COMB_KEY := 9; LMP_AU_RAND := 11; LMP_SRES := 12
|}.

(** * Properties *)

(** ** Lists and bits *)

Lemma set_nth_length {A : Type} (l : list A) (i : nat) (x : A) :
  List.length (set_nth l i x) = List.length l.
Proof.
  revert i; induction l as [|h t IH]; intros [|j]; simpl; auto.
Qed.

Lemma nth_set_nth_eq {A : Type} (l : list A) (i : nat) (x d : A) :
  (i < List.length l)%nat -> nth i (set_nth l i x) d = x.
Proof.
  revert i; induction l as [|h t IH]; intros [|j] Hi; simpl in *; try lia; auto.
  apply IH; lia.
Qed.

Lemma nth_set_nth_neq {A : Type} (l : list A) (i j : nat) (x d : A) :
  i <> j -> nth j (set_nth l i x) d = nth j l d.
Proof.
  revert i j; induction l as [|h t IH]; intros [|i] [|j] Hne; simpl; auto; try lia.
Qed.

Lemma nth_overwrite (dst src : list Z) (n j : nat) :
  (n <= List.length src)%nat ->
  nth j (overwrite dst src n) 0 = if (j <? n)%nat then nth j src 0 else nth j dst 0.
Proof.
  intros Hn. unfold overwrite.
  assert (Hl : List.length (firstn n src) = n) by (rewrite length_firstn; lia).
  destruct (j <? n)%nat eqn:E.
  - apply Nat.ltb_lt in E. rewrite app_nth1 by lia.
    rewrite <- (firstn_skipn n src) at 2. rewrite app_nth1 by lia. reflexivity.
  - apply Nat.ltb_ge in E. rewrite app_nth2 by lia. rewrite Hl.
    rewrite <- (firstn_skipn n dst) at 2.
    destruct (Nat.le_gt_cases n (List.length dst)) as [Hd|Hd].
    + rewrite app_nth2 by (rewrite length_firstn; lia).
      rewrite length_firstn. replace (Nat.min n (List.length dst)) with n by lia.
      reflexivity.
    + rewrite skipn_all2 by lia. rewrite app_nil_r.
      rewrite firstn_all2 by lia.
      rewrite (nth_overflow dst) by lia. destruct (j - n)%nat; reflexivity.
Qed.

(** A test [m & (1 << k)] of the code reads bit [k] of [m]. *)
Lemma land_bit_test (m k : Z) :
  0 <= k -> (Z.land m (Z.shiftl 1 k) =? 0) = negb (Z.testbit m k).
Proof.
  intros Hk. rewrite Z.shiftl_1_l.
  destruct (Z.testbit m k) eqn:E; simpl.
  - apply Z.eqb_neq. intros H0.
    assert (Hb : Z.testbit (Z.land m (2 ^ k)) k = true).
    { rewrite Z.land_spec, E, Z.pow2_bits_true by lia. reflexivity. }
    rewrite H0, Z.bits_0 in Hb. discriminate.
  - apply Z.eqb_eq. apply Z.bits_inj'. intros n Hn.
    rewrite Z.land_spec, Z.bits_0.
    destruct (Z.eq_dec n k) as [->|Hne].
    + rewrite E. reflexivity.
    + rewrite (Z.pow2_bits_false k n) by lia. apply andb_false_r.
Qed.

(** ** The pairing observer: its transitions *)

(** The seven ways the [switch] of [do_pin] accepts an input. *)
Inductive accepted : Type :=
| AccInRand | AccComb1 | AccComb2 | AccAuRand1 | AccAuRand2 | AccSres1 | AccSres2.

Definition slot_of (a : accepted) : nat :=
  match a with
  | AccInRand => 0 | AccComb1 => 1 | AccComb2 => 2 | AccAuRand1 => 3
  | AccAuRand2 => 4 | AccSres1 => 6 | AccSres2 => 5
  end.

Definition flag_of (a : accepted) : Z :=
  match a with
  | AccInRand => GOT_IN_RAND | AccComb1 => GOT_COMB1 | AccComb2 => GOT_COMB2
  | AccAuRand1 => GOT_AU_RAND1 | AccAuRand2 => GOT_AU_RAND2
  | AccSres1 => GOT_SRES1 | AccSres2 => GOT_SRES2
  end.

Definition copy_ok (buf : list Z) (len : Z) : bool :=
  (0 <=? len) && (len <=? PIN_SLOT_LEN) && (len <=? Z.of_nat (List.length buf)).

Definition copied (s : PyState) (i : nat) (buf : list Z) (len : Z) : list (list Z) :=
  set_nth (s_pin_data s) i (overwrite (nth i (s_pin_data s) []) buf (Z.to_nat len)).

(** The state an accepted input leaves behind. *)
Definition accept (s : PyState) (a : accepted) (buf : list Z) (len : Z) : PyState :=
  {| s_buf := s_buf s; s_len := s_len s;
     s_dump := s_dump s; s_ignore := s_ignore s; s_ignore_zero := s_ignore_zero s;
     s_llid := s_llid s; s_master := s_master s; s_type := s_type s;
     s_pin := match a with
              | AccInRand => Z.lor 1 GOT_IN_RAND
              | _ => Z.lor (s_pin s) (flag_of a)
              end;
     s_pin_master := match a with
                     | AccInRand => s_master s
                     | _ => s_pin_master s
                     end;
     s_pin_data := copied s (slot_of a) buf len |}.

Section PinFacts.
Context {H : Header}.

(** Which [case] and branch an input takes, read off bits of the mask. *)
Definition classify (s : PyState) (op : Z) : option accepted :=
  let mine := Bool.eqb (s_master s) (s_pin_master s) in
  if op =? LMP_IN_RAND then Some AccInRand
  else if op =? LMP_COMB_KEY then
    if Z.testbit (s_pin s) 1
    then Some (if mine then AccComb1 else AccComb2) else None
  else if op =? LMP_AU_RAND then
    if Z.testbit (s_pin s) 2 && Z.testbit (s_pin s) 3
    then Some (if mine then AccAuRand1 else AccAuRand2) else None
  else if op =? LMP_SRES then
    if mine
    then (if Z.testbit (s_pin s) 6 then Some AccSres2 else None)
    else (if Z.testbit (s_pin s) 4 then Some AccSres1 else None)
  else None.

Lemma do_pin_switch_classify (s : PyState) (op : Z) (buf : list Z) (len : Z) :
  do_pin_switch s op buf len =
  match classify s op with
  | None => Return
  | Some a => if copy_ok buf len then Break (accept s a buf len) else Crash
  end.
Proof.
  unfold do_pin_switch, classify, slot_copy, or_pin, copy_ok.
  unfold GOT_IN_RAND, GOT_COMB1, GOT_COMB2, GOT_AU_RAND1, GOT_AU_RAND2,
    GOT_SRES1, GOT_SRES2.
  rewrite !land_bit_test by lia.
  destruct (op =? LMP_IN_RAND); [reflexivity|].
  destruct (Z.testbit (s_pin s) 1), (Z.testbit (s_pin s) 2),
    (Z.testbit (s_pin s) 3), (Z.testbit (s_pin s) 4), (Z.testbit (s_pin s) 6),
    (Bool.eqb (s_master s) (s_pin_master s)),
    (op =? LMP_COMB_KEY), (op =? LMP_AU_RAND), (op =? LMP_SRES);
    reflexivity.
Qed.

(** [do_pin] as a function of the world. *)
Definition emitted (w : World) (s' : PyState) : World :=
  {| st := set_pin s' 1;
     console := console w ++ [OutPin (s_pin_master s') (printed_slots (s_pin_data s'))];
     dumpfile := dumpfile w |}.

Definition silent (w : World) (s' : PyState) : World :=
  {| st := s'; console := console w; dumpfile := dumpfile w |}.

Lemma do_pin_unfold (op : Z) (buf : list Z) (len : Z) (w : World) :
  do_pin op buf len w =
  match classify (st w) op with
  | None => Ok tt w
  | Some a =>
      if copy_ok buf len then
        let s' := accept (st w) a buf len in
        if s_pin s' =? 255 then Ok tt (emitted w s') else Ok tt (silent w s')
      else Fault
  end.
Proof.
  unfold do_pin, bind, get. rewrite do_pin_switch_classify.
  destruct (classify (st w) op) as [a|]; [|reflexivity].
  destruct (copy_ok buf len); [|reflexivity].
  unfold put, print, ret, emitted, silent. cbv zeta.
  destruct (s_pin (accept (st w) a buf len) =? 255); reflexivity.
Qed.

End PinFacts.

(** ** Reasoning through the monad *)

Lemma bind_ok {A B : Type} (m : M A) (k : A -> M B) (w w' : World) (b : B) :
  bind m k w = Ok b w' ->
  exists a w1, m w = Ok a w1 /\ k a w1 = Ok b w'.
Proof.
  unfold bind. destruct (m w) as [a w1| |  |]; try discriminate.
  intros Hk. exists a, w1. auto.
Qed.

Lemma bind_run {A B : Type} (m : M A) (k : A -> M B) (w w1 : World) (a : A) :
  m w = Ok a w1 -> bind m k w = k a w1.
Proof. intros E. unfold bind. rewrite E. reflexivity. Qed.

(** [keeps P m]: started in a session state with [P], a returning [m]
    leaves the session state as it was. *)
Definition keeps {A : Type} (P : PyState -> Prop) (m : M A) : Prop :=
  forall w a w', P (st w) -> m w = Ok a w' -> st w' = st w.

Lemma keeps_bind {A B : Type} (P : PyState -> Prop) (m : M A) (k : A -> M B) :
  keeps P m -> (forall a, keeps P (k a)) -> keeps P (bind m k).
Proof.
  intros Hm Hk w b w' HP Hrun.
  apply bind_ok in Hrun. destruct Hrun as (a & w1 & Hm1 & Hk1).
  pose proof (Hm _ _ _ HP Hm1) as E.
  rewrite <- E. apply (Hk a w1 b w'); [rewrite E; exact HP | exact Hk1].
Qed.

Lemma keeps_get {B : Type} (P : PyState -> Prop) (k : PyState -> M B) :
  (forall s, P s -> keeps P (k s)) -> keeps P (bind get k).
Proof.
  intros Hk w b w' HP Hrun. unfold bind, get in Hrun.
  apply (Hk (st w) HP w b w' HP Hrun).
Qed.

Lemma keeps_ret {A : Type} (P : PyState -> Prop) (a : A) : keeps P (ret a).
Proof. intros w x w' _ E. inversion E. reflexivity. Qed.

Lemma keeps_print (P : PyState -> Prop) (e : event) : keeps P (print e).
Proof. intros w x w' _ E. inversion E. reflexivity. Qed.

Lemma keeps_write (P : PyState -> Prop) (c : chunk) : keeps P (write c).
Proof. intros w x w' _ E. inversion E. reflexivity. Qed.

Lemma keeps_fault {A : Type} (P : PyState -> Prop) : keeps P (@fault A).
Proof. intros w x w' _ E. discriminate. Qed.

Lemma keeps_assert (P : PyState -> Prop) (b : bool) (f : failure) :
  keeps P (assert b f).
Proof.
  intros w x w' _ E. unfold assert in E. destruct b; [|discriminate].
  inversion E. reflexivity.
Qed.

Lemma keeps_read_byte (P : PyState -> Prop) (buf : list Z) (off : nat) :
  keeps P (read_byte buf off).
Proof.
  unfold read_byte. destruct (byte_at buf off);
    [apply keeps_ret | apply keeps_fault].
Qed.

Lemma keeps_hexdump (P : PyState -> Prop) (buf : list Z) (len : Z) :
  keeps P (hexdump buf len).
Proof.
  unfold hexdump.
  match goal with |- context [if ?c then _ else _] => destruct c end;
    [apply keeps_print | apply keeps_fault].
Qed.

Lemma keeps_dump_lmp (P : PyState -> Prop) (buf : list Z) (len : Z) :
  keeps P (dump_lmp buf len).
Proof.
  unfold dump_lmp.
  apply keeps_bind; [apply keeps_assert|]; intros _.
  do 3 (apply keeps_bind; [apply keeps_write|]; intros _).
  apply keeps_get; intros s _.
  match goal with |- context [if ?c then _ else _] => destruct c end;
    [apply keeps_write | apply keeps_fault].
Qed.

(** Run the monad's primitives where their arguments are known. *)
Ltac mred :=
  cbn [bind ret get put print write assert abort fault read_byte read_le16
       read_le32 byte_at le16_at le32_at nth_error skipn st console dumpfile negb].

Ltac split_tests :=
  repeat match goal with
         | H : context [if ?b then _ else _] |- _ => destruct b eqn:?
         | H : context [match ?x with _ => _ end] |- _ => destruct x eqn:?
         | |- context [if ?b then _ else _] => destruct b eqn:?
         | |- context [match ?x with _ => _ end] => destruct x eqn:?
         end.

Section PinInvariants.
Context {H : Header}.

Lemma process_lmp_keeps_unarmed (buf : list Z) (len : Z) :
  keeps (fun s => s_pin s = 0) (process_lmp buf len).
Proof.
  unfold process_lmp.
  apply keeps_get; intros s _. apply keeps_bind.
  { destruct (negb (s_dump s =? -1)); [apply keeps_dump_lmp | apply keeps_ret]. }
  intros _. apply keeps_bind; [apply keeps_read_byte|]. intros op1.
  apply keeps_bind; [apply keeps_assert|]. intros _.
  apply keeps_bind.
  { match goal with |- context [if ?c then _ else _] => destruct c end;
      [|apply keeps_ret].
    apply keeps_bind; [apply keeps_read_byte|]. intros op2.
    apply keeps_bind; [apply keeps_assert|]. intros _. apply keeps_ret. }
  intros [[op2 data] n].
  apply keeps_bind; [apply keeps_print|]. intros _.
  apply keeps_bind; [destruct (negb (op2 =? -1)); [apply keeps_print | apply keeps_ret]|].
  intros _. apply keeps_bind; [apply keeps_print|]. intros _.
  apply keeps_bind; [apply keeps_hexdump|]. intros _.
  apply keeps_get. intros s' Hz. rewrite Hz. simpl. apply keeps_ret.
Qed.

(** C9. Once bit 0 of the pairing mask is set, no transition of the
    observer clears it: IN_RAND sets the mask to [1 | GOT_IN_RAND],
    every other accepted opcode ORs one flag into it, an emission
    resets it to exactly 1; and [process_lmp] leaves a session whose
    mask is 0 untouched (it does not call [do_pin]). *)
Theorem do_pin_keeps_armed (w w' : World) (op : Z) (buf : list Z) (len : Z)
    (Hrun : do_pin op buf len w = Ok tt w') :
  (Z.testbit (s_pin (st w)) 0 = true -> Z.testbit (s_pin (st w')) 0 = true) /\
  (op = LMP_IN_RAND -> s_pin (st w') = Z.lor 1 GOT_IN_RAND) /\
  (op <> LMP_IN_RAND ->
     s_pin (st w') = s_pin (st w) \/
     (exists a, s_pin (st w') = Z.lor (s_pin (st w)) (flag_of a)) \/
     s_pin (st w') = 1) /\
  (console w' <> console w -> s_pin (st w') = 1) /\
  (forall (v v' : World) (b : list Z) (n : Z),
     s_pin (st v) = 0 -> process_lmp b n v = Ok tt v' -> st v' = st v).
Proof.
  rewrite do_pin_unfold in Hrun.
  assert (Hsteps :
    (Z.testbit (s_pin (st w)) 0 = true -> Z.testbit (s_pin (st w')) 0 = true) /\
    (op = LMP_IN_RAND -> s_pin (st w') = Z.lor 1 GOT_IN_RAND) /\
    (op <> LMP_IN_RAND ->
       s_pin (st w') = s_pin (st w) \/
       (exists a, s_pin (st w') = Z.lor (s_pin (st w)) (flag_of a)) \/
       s_pin (st w') = 1) /\
    (console w' <> console w -> s_pin (st w') = 1)).
  { destruct (classify (st w) op) as [a|] eqn:Hc.
    - destruct (copy_ok buf len); [|discriminate].
      cbv zeta in Hrun.
      destruct (s_pin (accept (st w) a buf len) =? 255) eqn:Hfull;
        inversion Hrun; subst w'; clear Hrun;
        unfold silent, emitted; cbn [st console s_pin accept set_pin].
      + repeat split; auto.
        intros ->. unfold classify in Hc. rewrite Z.eqb_refl in Hc.
        inversion Hc; subst a. simpl in Hfull. discriminate.
      + repeat split.
        * intros Hb. destruct a; try reflexivity;
            rewrite Z.lor_spec, Hb; reflexivity.
        * intros ->. unfold classify in Hc. rewrite Z.eqb_refl in Hc.
          inversion Hc; reflexivity.
        * intros Hne. right; left. exists a.
          destruct a; try reflexivity.
          unfold classify in Hc. apply Z.eqb_neq in Hne. rewrite Hne in Hc.
          exfalso. clear - Hc. split_tests; discriminate.
        * intros Hcon. exfalso. apply Hcon. reflexivity.
    - inversion Hrun; subst w'. repeat split; auto.
      + intros ->. unfold classify in Hc. rewrite Z.eqb_refl in Hc. discriminate.
      + intros Hcon. exfalso. apply Hcon. reflexivity. }
  destruct Hsteps as (H1 & H2 & H3 & H4).
  repeat split; auto.
  intros v v' b n Hz Hlmp.
  revert Hz Hlmp. apply (process_lmp_keeps_unarmed b n v tt v').
Qed.

End PinInvariants.

(** ** The pairing observer: runs *)

(** One LMP message as the observer sees it: the role flag that
    [process_frontline] left in [s_master], the opcode, the body. *)
Record lmp_input : Type := {
  in_master : bool;
  in_op : Z;
  in_body : list Z
}.

Definition swap_role (i : lmp_input) : lmp_input :=
  {| in_master := negb (in_master i); in_op := in_op i; in_body := in_body i |}.

Section Feed.
Context {H : Header}.

Definition feed (i : lmp_input) : M unit :=
  s <- get ;;
  put (set_frame s (s_llid s) (in_master i) (s_type s)) ;;;
  do_pin (in_op i) (in_body i) (Z.of_nat (List.length (in_body i))).

Fixpoint feed_all (l : list lmp_input) : M unit :=
  match l with
  | [] => ret tt
  | i :: rest => feed i ;;; feed_all rest
  end.

End Feed.

Definition cell (d : list (list Z)) (i j : nat) : Z := nth j (nth i d []) 0.

(** The slot array has its declared shape. *)
Definition pin_data_wf (d : list (list Z)) : Prop :=
  List.length d = PIN_SLOTS /\
  forall i, (i < PIN_SLOTS)%nat -> List.length (nth i d []) = Z.to_nat PIN_SLOT_LEN.

Lemma slot_of_lt (a : accepted) : (slot_of a < PIN_SLOTS)%nat.
Proof. destruct a; unfold PIN_SLOTS; simpl; lia. Qed.

Lemma copy_ok_bounds (buf : list Z) (len : Z) :
  copy_ok buf len = true ->
  (Z.to_nat len <= Z.to_nat PIN_SLOT_LEN)%nat /\ (Z.to_nat len <= List.length buf)%nat.
Proof.
  unfold copy_ok. rewrite !andb_true_iff, !Z.leb_le. lia.
Qed.

Lemma overwrite_length (dst src : list Z) (n : nat) :
  (n <= List.length src)%nat -> (n <= List.length dst)%nat ->
  List.length (overwrite dst src n) = List.length dst.
Proof.
  intros Hs Hd. unfold overwrite.
  rewrite length_app, length_firstn, length_skipn. lia.
Qed.

Lemma copied_wf (s : PyState) (k : nat) (buf : list Z) (len : Z) :
  pin_data_wf (s_pin_data s) -> copy_ok buf len = true -> (k < PIN_SLOTS)%nat ->
  pin_data_wf (copied s k buf len).
Proof.
  intros [Hl Hs] Hok Hk. apply copy_ok_bounds in Hok. destruct Hok as [Hb1 Hb2].
  unfold copied. split.
  - rewrite set_nth_length. exact Hl.
  - intros i Hi. destruct (Nat.eq_dec k i) as [->|Hne].
    + rewrite nth_set_nth_eq by lia.
      rewrite overwrite_length; auto. rewrite Hs; auto.
    + rewrite nth_set_nth_neq by auto. auto.
Qed.

Lemma cell_copied (s : PyState) (k : nat) (buf : list Z) (len : Z) (i j : nat) :
  pin_data_wf (s_pin_data s) -> copy_ok buf len = true -> (k < PIN_SLOTS)%nat ->
  cell (copied s k buf len) i j =
  if (i =? k)%nat && (j <? Z.to_nat len)%nat then nth j buf 0
  else cell (s_pin_data s) i j.
Proof.
  intros [Hl Hs] Hok Hk. apply copy_ok_bounds in Hok. destruct Hok as [Hb1 Hb2].
  unfold cell, copied.
  destruct (i =? k)%nat eqn:E.
  - apply Nat.eqb_eq in E. subst i.
    rewrite nth_set_nth_eq by lia. rewrite nth_overwrite by lia.
    simpl. reflexivity.
  - apply Nat.eqb_neq in E. rewrite nth_set_nth_neq by auto. reflexivity.
Qed.

(** Arrays of the declared shape are equal when their cells are. *)
Lemma pin_data_ext (d e : list (list Z)) :
  pin_data_wf d -> pin_data_wf e ->
  (forall i j, cell d i j = cell e i j) -> d = e.
Proof.
  intros [Hd Hds] [He Hes] Hc.
  apply (nth_ext d e [] []); [lia|].
  intros i Hi. rewrite Hd in Hi.
  apply (nth_ext _ _ 0 0); [rewrite Hds, Hes; auto|].
  intros j _. apply Hc.
Qed.

Definition with_master (s : PyState) (m : bool) : PyState :=
  set_frame s (s_llid s) m (s_type s).

Section Runs.
Context {H : Header}.

Lemma feed_unfold (i : lmp_input) (w : World) :
  feed i w =
  let s := with_master (st w) (in_master i) in
  let len := Z.of_nat (List.length (in_body i)) in
  match classify s (in_op i) with
  | None => Ok tt (silent w s)
  | Some a =>
      if copy_ok (in_body i) len then
        let s' := accept s a (in_body i) len in
        if s_pin s' =? 255 then Ok tt (emitted w s') else Ok tt (silent w s')
      else Fault
  end.
Proof.
  unfold feed, bind, get, put. rewrite do_pin_unfold. reflexivity.
Qed.

(** Two sessions that take the same steps from here on: same mask, same
    initiator unless the mask is idle, and every slot byte of the second
    is either the byte of the first or the byte of a reference array
    [W]. *)
Definition lockstep (W : list (list Z)) (a b : PyState) : Prop :=
  s_pin a = s_pin b /\
  (s_pin a = 1 \/ s_pin_master a = s_pin_master b) /\
  pin_data_wf (s_pin_data a) /\ pin_data_wf (s_pin_data b) /\
  forall i j, cell (s_pin_data b) i j = cell (s_pin_data a) i j \/
              cell (s_pin_data b) i j = cell W i j.

Lemma classify_lockstep (W : list (list Z)) (a b : PyState) (m : bool) (op : Z) :
  lockstep W a b ->
  classify (with_master a m) op = classify (with_master b m) op /\
  (forall acc, classify (with_master a m) op = Some acc -> acc <> AccInRand ->
     s_pin_master a = s_pin_master b).
Proof.
  intros (Hm & Hpm & _). unfold classify. cbn [with_master set_frame s_pin s_master s_pin_master].
  rewrite <- Hm. destruct Hpm as [H1|Hpm].
  - rewrite H1. change (Z.testbit 1 1) with false. change (Z.testbit 1 2) with false.
    change (Z.testbit 1 4) with false. change (Z.testbit 1 6) with false.
    cbn [andb]. split.
    + destruct (op =? LMP_IN_RAND), (op =? LMP_COMB_KEY), (op =? LMP_AU_RAND),
        (op =? LMP_SRES), (Bool.eqb m (s_pin_master a)), (Bool.eqb m (s_pin_master b));
        reflexivity.
    + intros acc Hc Hne. exfalso.
      destruct (op =? LMP_IN_RAND), (op =? LMP_COMB_KEY), (op =? LMP_AU_RAND),
        (op =? LMP_SRES), (Bool.eqb m (s_pin_master a)); try discriminate;
        inversion Hc; subst acc; apply Hne; reflexivity.
  - rewrite Hpm. split; [reflexivity | auto].
Qed.

Lemma accept_lockstep (W : list (list Z)) (a b : PyState) (m : bool)
    (acc : accepted) (buf : list Z) (len : Z) :
  lockstep W a b -> copy_ok buf len = true ->
  (acc <> AccInRand -> s_pin_master a = s_pin_master b) ->
  lockstep W (accept (with_master a m) acc buf len)
             (accept (with_master b m) acc buf len).
Proof.
  intros (Hm & Hpm & Hwa & Hwb & Hc) Hok Hacc.
  pose proof (slot_of_lt acc) as Hk.
  unfold lockstep. cbn [accept s_pin s_pin_master s_pin_data with_master set_frame s_master].
  split; [|split; [|split; [|split]]].
  - rewrite Hm. reflexivity.
  - right. destruct acc; try reflexivity; apply Hacc; discriminate.
  - apply (copied_wf (with_master a m)); auto.
  - apply (copied_wf (with_master b m)); auto.
  - intros i j.
    rewrite (cell_copied (with_master a m)) by auto.
    rewrite (cell_copied (with_master b m)) by auto.
    destruct ((i =? slot_of acc)%nat && (j <? Z.to_nat len)%nat); [left; reflexivity|].
    apply Hc.
Qed.

End Runs.

Section Reproducible.
Context {H : Header}.

Lemma lockstep_reset (W : list (list Z)) (a b : PyState) :
  lockstep W a b -> lockstep W (set_pin a 1) (set_pin b 1).
Proof.
  intros (Hm & Hpm & Hwa & Hwb & Hc).
  unfold lockstep; cbn [set_pin s_pin s_pin_master s_pin_data]. auto.
Qed.

Lemma feed_lockstep (W : list (list Z)) (wa wb wa' : World) (i : lmp_input) :
  lockstep W (st wa) (st wb) -> feed i wa = Ok tt wa' ->
  exists wb', feed i wb = Ok tt wb' /\ lockstep W (st wa') (st wb') /\
    ((console wa' = console wa /\ console wb' = console wb) \/
     (console wa' = console wa ++
        [OutPin (s_pin_master (st wa')) (printed_slots (s_pin_data (st wa')))] /\
      console wb' = console wb ++
        [OutPin (s_pin_master (st wb')) (printed_slots (s_pin_data (st wb')))] /\
      s_pin (st wa') = 1 /\ s_pin (st wb') = 1 /\
      s_pin_master (st wa') = s_pin_master (st wb'))).
Proof.
  intros HL Hrun. rewrite feed_unfold in Hrun. rewrite feed_unfold. cbv zeta in *.
  destruct (classify_lockstep W (st wa) (st wb) (in_master i) (in_op i) HL)
    as [Hcl Hpm].
  rewrite <- Hcl.
  destruct (classify (with_master (st wa) (in_master i)) (in_op i)) as [acc|].
  - specialize (Hpm acc eq_refl).
    destruct (copy_ok (in_body i) (Z.of_nat (List.length (in_body i)))) eqn:Hok;
      [|discriminate].
    assert (HL' : lockstep W
              (accept (with_master (st wa) (in_master i)) acc (in_body i)
                 (Z.of_nat (List.length (in_body i))))
              (accept (with_master (st wb) (in_master i)) acc (in_body i)
                 (Z.of_nat (List.length (in_body i))))).
    { apply accept_lockstep; auto. }
    pose proof HL' as (Hm' & _).
    rewrite <- Hm'.
    match type of Hrun with
    | (if ?c then _ else _) = _ => destruct c eqn:Hfull
    end; inversion Hrun; subst wa'; clear Hrun.
    + eexists; split; [reflexivity|]. split.
      * unfold emitted; cbn [st]. apply lockstep_reset. exact HL'.
      * right. unfold emitted; cbn [st console set_pin s_pin s_pin_master s_pin_data].
        repeat split; auto.
        destruct acc; try (apply Hpm; discriminate).
        cbn [accept s_pin] in Hfull. discriminate.
    + eexists; split; [reflexivity|]. split; [exact HL'|].
      left. split; reflexivity.
  - inversion Hrun; subst wa'; clear Hrun.
    eexists; split; [reflexivity|]. split; [exact HL|].
    left. split; reflexivity.
Qed.

Lemma feed_all_lockstep (W : list (list Z)) (ins : list lmp_input) :
  forall wa wb wa',
    lockstep W (st wa) (st wb) -> feed_all ins wa = Ok tt wa' ->
    exists wb', feed_all ins wb = Ok tt wb' /\ lockstep W (st wa') (st wb').
Proof.
  induction ins as [|i ins IH]; intros wa wb wa' HL Hrun; simpl in *.
  - inversion Hrun; subst wa'. exists wb. split; [reflexivity | exact HL].
  - apply bind_ok in Hrun. destruct Hrun as ([] & w1 & Hf & Hrest).
    destruct (feed_lockstep W wa wb w1 i HL Hf) as (wb1 & Hfb & HL1 & _).
    destruct (IH w1 wb1 wa' HL1 Hrest) as (wb' & Hb & HL').
    exists wb'. split; [|exact HL'].
    unfold bind. rewrite Hfb. exact Hb.
Qed.

Lemma lockstep_refl (W : list (list Z)) (a : PyState) :
  pin_data_wf (s_pin_data a) -> lockstep W a a.
Proof.
  intros Hw. unfold lockstep. repeat split; auto; apply Hw.
Qed.

Lemma feed_all_wf (ins : list lmp_input) (w w' : World) :
  pin_data_wf (s_pin_data (st w)) -> feed_all ins w = Ok tt w' ->
  pin_data_wf (s_pin_data (st w')).
Proof.
  intros Hw Hrun.
  destruct (feed_all_lockstep [] ins w w w' (lockstep_refl [] _ Hw) Hrun)
    as (wb & _ & (_ & _ & Hwf & _)).
  exact Hwf.
Qed.

End Reproducible.

Lemma app_one_neq {A : Type} (l : list A) (x : A) : l <> l ++ [x].
Proof.
  intros E. apply (f_equal (@List.length A)) in E.
  rewrite length_app in E. simpl in E. lia.
Qed.

Section PinEmission.
Context {H : Header}.

(** The state in which the [switch] of [do_pin] leaves the session, as
    [feed] reaches it. *)
Definition switch_of (w : World) (i : lmp_input) : flow :=
  do_pin_switch (with_master (st w) (in_master i)) (in_op i) (in_body i)
    (Z.of_nat (List.length (in_body i))).

Lemma classify_in_rand (s : PyState) : classify s LMP_IN_RAND = Some AccInRand.
Proof. unfold classify. rewrite Z.eqb_refl. reflexivity. Qed.

(** An IN_RAND brings any two sessions into lockstep. *)
Lemma feed_in_rand_lockstep (wa wb wa' : World) (i : lmp_input) :
  pin_data_wf (s_pin_data (st wa)) -> pin_data_wf (s_pin_data (st wb)) ->
  in_op i = LMP_IN_RAND -> feed i wa = Ok tt wa' ->
  exists wb', feed i wb = Ok tt wb' /\
              lockstep (s_pin_data (st wb)) (st wa') (st wb').
Proof.
  intros Hwa Hwb Hop Hrun. rewrite feed_unfold in Hrun. rewrite feed_unfold.
  cbv zeta in *. rewrite Hop, classify_in_rand in *.
  destruct (copy_ok (in_body i) (Z.of_nat (List.length (in_body i)))) eqn:Hok;
    [|discriminate].
  cbn [accept s_pin] in *.
  change (Z.lor 1 GOT_IN_RAND =? 255) with false in *.
  inversion Hrun; subst wa'; clear Hrun.
  eexists. split; [reflexivity|].
  pose proof (slot_of_lt AccInRand) as Hk.
  unfold lockstep. cbn [silent st accept s_pin s_pin_master s_pin_data].
  split; [reflexivity|]. split; [right; reflexivity|].
  split; [apply (copied_wf (with_master (st wa) (in_master i))); auto|].
  split; [apply (copied_wf (with_master (st wb) (in_master i))); auto|].
  intros a b.
  rewrite (cell_copied (with_master (st wa) (in_master i))) by auto.
  rewrite (cell_copied (with_master (st wb) (in_master i))) by auto.
  destruct ((a =? slot_of AccInRand)%nat && (b <? Z.to_nat (Z.of_nat (List.length (in_body i))))%nat);
    [left | right]; reflexivity.
Qed.

(** C1. At every step of every input sequence a transcript line is
    printed only when the [switch] has brought the mask to 0xFF;
    right after the line the mask is 1; and when a sequence that is
    fed to an idle armed observer, or that starts with IN_RAND, prints
    a line at its last input, feeding the same sequence again prints
    the identical line at its end. *)
Theorem pin_emission_gated_and_reproducible
    (w wp w1 : World) (pre : list lmp_input) (i : lmp_input)
    (Hstart : s_pin (st w) = 1 \/
              exists i0 pre', pre = i0 :: pre' /\ in_op i0 = LMP_IN_RAND)
    (Hwf : pin_data_wf (s_pin_data (st w)))
    (Hpre : feed_all pre w = Ok tt wp)
    (Hlast : feed i wp = Ok tt w1) :
  ((forall s', switch_of wp i = Break s' -> s_pin s' <> 255) ->
   console w1 = console wp) /\
  (forall L, console w1 = console wp ++ [L] ->
     (exists s', switch_of wp i = Break s' /\ s_pin s' = 255 /\
        L = OutPin (s_pin_master s') (printed_slots (s_pin_data s'))) /\
     s_pin (st w1) = 1 /\
     exists wp' w2,
       feed_all pre w1 = Ok tt wp' /\ feed i wp' = Ok tt w2 /\
       console w2 = console wp' ++ [L] /\ s_pin (st w2) = 1 /\
       s_pin_data (st w2) = s_pin_data (st w1)).
Proof.
  assert (Hstep :
    (switch_of wp i = Return /\ console w1 = console wp) \/
    (exists s', switch_of wp i = Break s' /\
       ((s_pin s' <> 255 /\ console w1 = console wp) \/
        (s_pin s' = 255 /\ s_pin (st w1) = 1 /\
         console w1 = console wp ++
           [OutPin (s_pin_master s') (printed_slots (s_pin_data s'))])))).
  { pose proof Hlast as Hl. rewrite feed_unfold in Hl. cbv zeta in Hl.
    unfold switch_of. rewrite do_pin_switch_classify.
    destruct (classify (with_master (st wp) (in_master i)) (in_op i)) as [acc|].
    - destruct (copy_ok (in_body i) (Z.of_nat (List.length (in_body i))));
        [|discriminate].
      right. eexists. split; [reflexivity|].
      match type of Hl with
      | (if ?c then _ else _) = _ => destruct c eqn:Hfull
      end; inversion Hl; subst w1.
      + right. apply Z.eqb_eq in Hfull. repeat split; auto.
      + left. apply Z.eqb_neq in Hfull. split; auto.
    - inversion Hl; subst w1. left. split; reflexivity. }
  split.
  - intros Hnot. destruct Hstep as [[_ Hc]|(s' & Hs & [[_ Hc]|[Hf _]])]; auto.
    exfalso. apply (Hnot s' Hs Hf).
  - intros L HL.
    assert (Hem : exists s', switch_of wp i = Break s' /\ s_pin s' = 255 /\
              s_pin (st w1) = 1 /\
              L = OutPin (s_pin_master s') (printed_slots (s_pin_data s'))).
    { destruct Hstep as [[_ Hc]|(s' & Hs & [[_ Hc]|(Hf & H1 & Hc)])].
      - rewrite Hc in HL. exfalso. apply (app_one_neq _ _ HL).
      - rewrite Hc in HL. exfalso. apply (app_one_neq _ _ HL).
      - exists s'. repeat split; auto.
        rewrite Hc in HL. apply app_inv_head in HL. inversion HL. reflexivity. }
    destruct Hem as (s' & Hs & Hf & H1 & HLeq).
    split; [exists s'; auto|]. split; [exact H1|].
    (* the second run, in lockstep with the first *)
    assert (Hwf1 : pin_data_wf (s_pin_data (st w1))).
    { apply (feed_all_wf [i] wp w1).
      - apply (feed_all_wf pre w wp Hwf Hpre).
      - simpl. unfold bind. rewrite Hlast. reflexivity. }
    assert (Hsecond : exists wp', feed_all pre w1 = Ok tt wp' /\
                        lockstep (s_pin_data (st w1)) (st wp) (st wp')).
    { destruct Hstart as [Harmed|(i0 & pre' & -> & Hop)].
      - apply (feed_all_lockstep _ pre w w1 wp); [|exact Hpre].
        unfold lockstep. rewrite Harmed, H1. repeat split; auto; try apply Hwf;
          try apply Hwf1.
      - simpl in Hpre. apply bind_ok in Hpre.
        destruct Hpre as ([] & wa1 & Hf0 & Hrest).
        destruct (feed_in_rand_lockstep w w1 wa1 i0 Hwf Hwf1 Hop Hf0)
          as (wb1 & Hfb & HLa).
        destruct (feed_all_lockstep _ pre' wa1 wb1 wp HLa Hrest) as (wp' & Hb & HLp).
        exists wp'. split; [|exact HLp].
        simpl. unfold bind. rewrite Hfb. exact Hb. }
    destruct Hsecond as (wp' & Hpre' & HLp).
    destruct (feed_lockstep _ wp wp' w1 i HLp Hlast)
      as (w2 & Hlast' & HL2 & [[Hc _]|(Hc1 & Hc2 & _ & H2 & Hpm)]).
    { rewrite Hc in HL. exfalso. apply (app_one_neq _ _ HL). }
    assert (Hdata : s_pin_data (st w2) = s_pin_data (st w1)).
    { destruct HL2 as (_ & _ & _ & Hwf2 & Hcells).
      apply pin_data_ext; auto.
      intros a b. destruct (Hcells a b); auto. }
    exists wp', w2. repeat split; auto.
    rewrite Hc2, Hdata, <- Hpm. f_equal.
    rewrite Hc1 in HL. apply app_inv_head in HL. exact HL.
Qed.

End PinEmission.

(** ** Who sent what a transcript holds *)

Section Provenance.
Context {H : Header}.

(** [src_of h op m slot]: some input of the history [h] has opcode [op],
    was sent by the side [m], and its body is what the cells of [slot]
    start with. *)
Definition src_of (h : list lmp_input) (op : Z) (m : bool) (slot : list Z) : Prop :=
  exists i, In i h /\ in_op i = op /\ in_master i = m /\
    forall j, (j < List.length (in_body i))%nat -> nth j slot 0 = nth j (in_body i) 0.

(** What the history says about a transcript with initiator [pm] and
    slot array [d]. *)
Definition senders (h : list lmp_input) (pm : bool) (d : list (list Z)) (m : Z) : Prop :=
  (Z.testbit m 1 = true -> exists i, In i h /\ in_op i = LMP_IN_RAND /\ in_master i = pm) /\
  (Z.testbit m 7 = true -> src_of h LMP_SRES pm (nth 5 d [])) /\
  (Z.testbit m 5 = true -> src_of h LMP_SRES (negb pm) (nth 6 d [])).

Definition traced (h : list lmp_input) (s : PyState) : Prop :=
  pin_data_wf (s_pin_data s) /\ senders h (s_pin_master s) (s_pin_data s) (s_pin s).

Lemma src_of_more (h : list lmp_input) (i : lmp_input) (op : Z) (m : bool) (slot : list Z) :
  src_of h op m slot -> src_of (h ++ [i]) op m slot.
Proof.
  intros (x & Hin & Hrest). exists x. split; [apply in_or_app; auto | exact Hrest].
Qed.

Lemma senders_more (h : list lmp_input) (i : lmp_input) (pm : bool)
    (d : list (list Z)) (m : Z) :
  senders h pm d m -> senders (h ++ [i]) pm d m.
Proof.
  intros (H1 & H7 & H5). repeat split; intros Hb.
  - destruct (H1 Hb) as (x & Hin & Hrest). exists x.
    split; [apply in_or_app; auto | exact Hrest].
  - apply src_of_more; auto.
  - apply src_of_more; auto.
Qed.

Lemma classify_op (s : PyState) (op : Z) (a : accepted) :
  classify s op = Some a ->
  op = match a with
       | AccInRand => LMP_IN_RAND
       | AccComb1 | AccComb2 => LMP_COMB_KEY
       | AccAuRand1 | AccAuRand2 => LMP_AU_RAND
       | AccSres1 | AccSres2 => LMP_SRES
       end.
Proof.
  unfold classify.
  destruct (op =? LMP_IN_RAND) eqn:E1.
  { intros E; inversion E. apply Z.eqb_eq; auto. }
  destruct (op =? LMP_COMB_KEY) eqn:E2.
  { apply Z.eqb_eq in E2. intros E.
    destruct (Z.testbit (s_pin s) 1), (Bool.eqb (s_master s) (s_pin_master s));
      inversion E; auto. }
  destruct (op =? LMP_AU_RAND) eqn:E3.
  { apply Z.eqb_eq in E3. intros E.
    destruct (Z.testbit (s_pin s) 2 && Z.testbit (s_pin s) 3),
      (Bool.eqb (s_master s) (s_pin_master s)); inversion E; auto. }
  destruct (op =? LMP_SRES) eqn:E4; [|discriminate].
  apply Z.eqb_eq in E4. intros E.
  destruct (Bool.eqb (s_master s) (s_pin_master s)), (Z.testbit (s_pin s) 6),
    (Z.testbit (s_pin s) 4); inversion E; auto.
Qed.

Lemma classify_sres_sender (s : PyState) (op : Z) (a : accepted) :
  classify s op = Some a ->
  match a with
  | AccSres2 => s_master s = s_pin_master s
  | AccSres1 => s_master s = negb (s_pin_master s)
  | _ => True
  end.
Proof.
  unfold classify. intros E.
  destruct (op =? LMP_IN_RAND), (op =? LMP_COMB_KEY), (op =? LMP_AU_RAND),
    (op =? LMP_SRES), (Z.testbit (s_pin s) 1),
    (Z.testbit (s_pin s) 2 && Z.testbit (s_pin s) 3),
    (Z.testbit (s_pin s) 6), (Z.testbit (s_pin s) 4),
    (s_master s), (s_pin_master s); simpl in E; inversion E; subst a; auto.
Qed.

Lemma flag_of_bit1 (a : accepted) :
  Z.testbit (flag_of a) 1 = match a with AccInRand => true | _ => false end.
Proof. destruct a; reflexivity. Qed.

Lemma flag_of_bit5 (a : accepted) :
  Z.testbit (flag_of a) 5 = match a with AccSres1 => true | _ => false end.
Proof. destruct a; reflexivity. Qed.

Lemma flag_of_bit7 (a : accepted) :
  Z.testbit (flag_of a) 7 = match a with AccSres2 => true | _ => false end.
Proof. destruct a; reflexivity. Qed.

Lemma nth_copied (s : PyState) (k i : nat) (buf : list Z) (len : Z) :
  k <> i -> nth i (copied s k buf len) [] = nth i (s_pin_data s) [].
Proof. intros Hne. unfold copied. apply nth_set_nth_neq. exact Hne. Qed.

Lemma src_of_copied (h : list lmp_input) (s : PyState) (i : lmp_input) (k : nat) :
  pin_data_wf (s_pin_data s) -> (k < PIN_SLOTS)%nat ->
  copy_ok (in_body i) (Z.of_nat (List.length (in_body i))) = true ->
  src_of (h ++ [i]) (in_op i) (in_master i)
    (nth k (copied s k (in_body i) (Z.of_nat (List.length (in_body i)))) []).
Proof.
  intros Hwf Hk Hok. exists i. split; [apply in_or_app; right; left; reflexivity|].
  split; [reflexivity|]. split; [reflexivity|].
  intros j Hj.
  pose proof (cell_copied s k (in_body i) (Z.of_nat (List.length (in_body i))) k j
                Hwf Hok Hk) as Hc.
  unfold cell in Hc. rewrite Hc. rewrite Nat.eqb_refl. rewrite Nat2Z.id.
  apply Nat.ltb_lt in Hj. rewrite Hj. reflexivity.
Qed.

(** Accepting an input keeps the history true of the session. *)
Lemma traced_accept (h : list lmp_input) (s : PyState) (i : lmp_input) (a : accepted) :
  traced h s ->
  classify (with_master s (in_master i)) (in_op i) = Some a ->
  copy_ok (in_body i) (Z.of_nat (List.length (in_body i))) = true ->
  traced (h ++ [i])
    (accept (with_master s (in_master i)) a (in_body i)
       (Z.of_nat (List.length (in_body i)))).
Proof.
  intros [Hwf Hs] Hc Hok.
  pose proof (classify_op _ _ _ Hc) as Hop.
  pose proof (classify_sres_sender _ _ _ Hc) as Hsnd.
  cbn [with_master set_frame s_master s_pin_master] in Hsnd.
  apply (senders_more h i) in Hs. destruct Hs as (H1 & H7 & H5).
  pose proof (src_of_copied h (with_master s (in_master i)) i (slot_of a) Hwf
                (slot_of_lt a) Hok) as Hsrc.
  split.
  { apply (copied_wf (with_master s (in_master i))); auto. apply slot_of_lt. }
  unfold senders.
  cbn [accept s_pin s_pin_master s_pin_data with_master set_frame s_master].
  destruct a; cbn [slot_of] in *; repeat split; intros Hb;
    try (change (Z.testbit (Z.lor 1 GOT_IN_RAND) 7) with false in Hb; discriminate);
    try (change (Z.testbit (Z.lor 1 GOT_IN_RAND) 5) with false in Hb; discriminate);
    try (exists i; split; [apply in_or_app; right; left; reflexivity|];
         split; [exact Hop | reflexivity]);
    try (rewrite Z.lor_spec, ?flag_of_bit1, ?flag_of_bit5, ?flag_of_bit7 in Hb;
         cbn iota in Hb; rewrite ?orb_false_r in Hb);
    repeat match goal with
           | |- context [nth ?j (copied ?x ?k ?b ?l) []] =>
               rewrite (nth_copied x k j b l) by discriminate
           end;
    auto;
    try (rewrite <- Hop, <- Hsnd; exact Hsrc).
Qed.

End Provenance.

Section TranscriptSenders.
Context {H : Header}.

(** [sent_by h op m printed]: an input of [h] with opcode [op] sent by
    side [m] is what the printed bytes start with. *)
Definition sent_by (h : list lmp_input) (op : Z) (m : bool) (printed : list Z) : Prop :=
  exists i, In i h /\ in_op i = op /\ in_master i = m /\
    firstn (List.length (in_body i)) printed = firstn (List.length printed) (in_body i).

(** A printed line whose SRES slots are attributed to their senders:
    the initiator [pm] sent an IN_RAND, slot 5 is an SRES that [pm]
    sent, slot 6 an SRES that the other side sent. *)
Definition line_senders (h : list lmp_input) (e : event) : Prop :=
  match e with
  | OutPin pm slots =>
      (exists i, In i h /\ in_op i = LMP_IN_RAND /\ in_master i = pm) /\
      sent_by h LMP_SRES pm (nth 5 slots []) /\
      sent_by h LMP_SRES (negb pm) (nth 6 slots []) /\
      List.length (nth 5 slots []) = 4%nat /\ List.length (nth 6 slots []) = 4%nat
  | _ => True
  end.

Lemma sent_by_more (h : list lmp_input) (i : lmp_input) (op : Z) (m : bool) (p : list Z) :
  sent_by h op m p -> sent_by (h ++ [i]) op m p.
Proof.
  intros (x & Hin & Hrest). exists x. split; [apply in_or_app; auto | exact Hrest].
Qed.

Lemma line_senders_more (h : list lmp_input) (i : lmp_input) (e : event) :
  line_senders h e -> line_senders (h ++ [i]) e.
Proof.
  destruct e; simpl; auto.
  intros ((x & Hin & Hx) & H5 & H6 & Hl). split; [|split; [|split]].
  - exists x. split; [apply in_or_app; auto | exact Hx].
  - apply sent_by_more; auto.
  - apply sent_by_more; auto.
  - exact Hl.
Qed.

Lemma src_of_printed (h : list lmp_input) (op : Z) (m : bool) (slot : list Z) (n : nat) :
  (n <= List.length slot)%nat ->
  src_of h op m slot -> sent_by h op m (firstn n slot).
Proof.
  intros Hn (i & Hin & Hop & Hm & Hcells). exists i. repeat split; auto.
  rewrite length_firstn. replace (Nat.min n (List.length slot)) with n by lia.
  apply (nth_ext _ _ 0 0).
  - rewrite !length_firstn. lia.
  - intros j Hj. rewrite !length_firstn in Hj.
    rewrite !nth_firstn.
    assert (Hj1 : (j <? List.length (in_body i))%nat = true) by (apply Nat.ltb_lt; lia).
    assert (Hj2 : (j <? n)%nat = true) by (apply Nat.ltb_lt; lia).
    rewrite Hj1, Hj2. apply Hcells. lia.
Qed.

Lemma printed_slot5 (d : list (list Z)) :
  nth 5 (printed_slots d) [] = firstn 4 (nth 5 d []).
Proof. reflexivity. Qed.

Lemma printed_slot6 (d : list (list Z)) :
  nth 6 (printed_slots d) [] = firstn 4 (nth 6 d []).
Proof. reflexivity. Qed.

Lemma senders_line (h : list lmp_input) (s : PyState) :
  traced h s -> s_pin s = 255 ->
  line_senders h (OutPin (s_pin_master s) (printed_slots (s_pin_data s))).
Proof.
  intros [[Hlen Hslots] (H1 & H7 & H5)] Hfull. rewrite Hfull in *.
  unfold line_senders. rewrite printed_slot5, printed_slot6.
  assert (H16 : forall k, (k < PIN_SLOTS)%nat ->
            List.length (firstn 4 (nth k (s_pin_data s) [])) = 4%nat).
  { intros k Hk. rewrite length_firstn, Hslots by exact Hk. reflexivity. }
  split; [|split; [|split; [|split]]].
  - apply H1. reflexivity.
  - apply src_of_printed; [rewrite Hslots; unfold PIN_SLOTS; simpl; lia|].
    apply H7. reflexivity.
  - apply src_of_printed; [rewrite Hslots; unfold PIN_SLOTS; simpl; lia|].
    apply H5. reflexivity.
  - apply H16. unfold PIN_SLOTS. lia.
  - apply H16. unfold PIN_SLOTS. lia.
Qed.

(** The history is true of the session and of every line on the console. *)
Definition traced_world (h : list lmp_input) (w : World) : Prop :=
  traced h (st w) /\ Forall (line_senders h) (console w).

Lemma traced_reset (h : list lmp_input) (s : PyState) :
  traced h s -> traced h (set_pin s 1).
Proof.
  intros [Hwf _]. split; [exact Hwf|].
  unfold senders. cbn [set_pin s_pin].
  repeat split; intros Hb; discriminate.
Qed.

Lemma feed_traced (h : list lmp_input) (w w' : World) (i : lmp_input) :
  traced_world h w -> feed i w = Ok tt w' -> traced_world (h ++ [i]) w'.
Proof.
  intros [Ht Hc] Hrun. rewrite feed_unfold in Hrun. cbv zeta in Hrun.
  assert (Hc' : Forall (line_senders (h ++ [i])) (console w)).
  { eapply Forall_impl; [|exact Hc]. intros e. apply line_senders_more. }
  destruct (classify (with_master (st w) (in_master i)) (in_op i)) as [a|] eqn:Hcl.
  - destruct (copy_ok (in_body i) (Z.of_nat (List.length (in_body i)))) eqn:Hok;
      [|discriminate].
    pose proof (traced_accept h (st w) i a Ht Hcl Hok) as Ha.
    match type of Hrun with
    | (if ?c then _ else _) = _ => destruct c eqn:Hfull
    end; inversion Hrun; subst w'; clear Hrun.
    + apply Z.eqb_eq in Hfull. split.
      * unfold emitted; cbn [st]. apply traced_reset. exact Ha.
      * unfold emitted; cbn [console]. apply Forall_app. split; [exact Hc'|].
        constructor; [|constructor]. apply senders_line; auto.
    + split; [exact Ha | exact Hc'].
  - inversion Hrun; subst w'. split; [|exact Hc'].
    destruct Ht as [Hwf Hs]. split; [exact Hwf|].
    apply senders_more. exact Hs.
Qed.

Lemma feed_all_traced (ins : list lmp_input) :
  forall h w w', traced_world h w -> feed_all ins w = Ok tt w' ->
                 traced_world (h ++ ins) w'.
Proof.
  induction ins as [|i ins IH]; intros h w w' Ht Hrun; simpl in Hrun.
  - inversion Hrun; subst w'. rewrite app_nil_r. exact Ht.
  - apply bind_ok in Hrun. destruct Hrun as ([] & w1 & Hf & Hrest).
    change (i :: ins) with ([i] ++ ins). rewrite app_assoc.
    apply (IH _ w1 w'); [|exact Hrest].
    apply (feed_traced h w w1 i Ht Hf).
Qed.

(** A printed slot that starts with a body at least as long as the
    slot is the start of that body. *)
Lemma printed_is_body (printed body : list Z) (n : nat) :
  List.length printed = n -> (n <= List.length body)%nat ->
  firstn (List.length body) printed = firstn (List.length printed) body ->
  printed = firstn n body.
Proof.
  intros Hp Hb E. rewrite firstn_all2 in E by lia. rewrite Hp in E. exact E.
Qed.

(** C3 (as the code has it). In every transcript line that an armed,
    idle observer prints while it is fed [ins], the initiator [pm] is a
    side that sent an IN_RAND, and 4 bytes of slot 5 and of slot 6 are
    printed.  When every SRES fed carries at least the four bytes of an
    SRES, slot 5 is the first four bytes of an SRES that the initiator
    sent and slot 6 the first four bytes of an SRES that the responder
    sent.  Without that condition the printed slot 5 still starts with
    the body of an SRES sent by the initiator and slot 6 with the body
    of one sent by the responder, as far as that body goes. *)
Theorem sres_slots_by_sender (w w' : World) (ins : list lmp_input)
    (pm : bool) (slots : list (list Z))
    (Harmed : s_pin (st w) = 1)
    (Hwf : pin_data_wf (s_pin_data (st w)))
    (Hcon : console w = [])
    (Hrun : feed_all ins w = Ok tt w')
    (Hline : In (OutPin pm slots) (console w')) :
  (exists i0, In i0 ins /\ in_op i0 = LMP_IN_RAND /\ in_master i0 = pm) /\
  (Forall (fun i => in_op i = LMP_SRES -> (4 <= List.length (in_body i))%nat) ins ->
   (exists i5, In i5 ins /\ in_op i5 = LMP_SRES /\ in_master i5 = pm /\
      nth 5 slots [] = firstn 4 (in_body i5)) /\
   (exists i6, In i6 ins /\ in_op i6 = LMP_SRES /\ in_master i6 = negb pm /\
      nth 6 slots [] = firstn 4 (in_body i6))) /\
  (exists i5, In i5 ins /\ in_op i5 = LMP_SRES /\ in_master i5 = pm /\
     firstn (List.length (in_body i5)) (nth 5 slots []) =
     firstn (List.length (nth 5 slots [])) (in_body i5)) /\
  (exists i6, In i6 ins /\ in_op i6 = LMP_SRES /\ in_master i6 = negb pm /\
     firstn (List.length (in_body i6)) (nth 6 slots []) =
     firstn (List.length (nth 6 slots [])) (in_body i6)) /\
  List.length (nth 5 slots []) = 4%nat /\ List.length (nth 6 slots []) = 4%nat.
Proof.
  assert (Ht : traced_world [] w).
  { split.
    - split; [exact Hwf|]. unfold senders. rewrite Harmed.
      repeat split; intros Hb; discriminate.
    - rewrite Hcon. constructor. }
  pose proof (feed_all_traced ins [] w w' Ht Hrun) as [_ Hall].
  simpl in Hall. rewrite Forall_forall in Hall.
  pose proof (Hall _ Hline) as (H0 & H5 & H6 & Hl5 & Hl6).
  split; [exact H0|]. split; [|split; [exact H5|]; split; [exact H6|]; split; assumption].
  intros Hfull. rewrite Forall_forall in Hfull.
  destruct H5 as (i5 & Hin5 & Hop5 & Hm5 & Hb5).
  destruct H6 as (i6 & Hin6 & Hop6 & Hm6 & Hb6).
  split.
  - exists i5. repeat (split; [assumption|]).
    apply printed_is_body; [exact Hl5 | exact (Hfull i5 Hin5 Hop5) | exact Hb5].
  - exists i6. repeat (split; [assumption|]).
    apply printed_is_body; [exact Hl6 | exact (Hfull i6 Hin6 Hop6) | exact Hb6].
Qed.

End TranscriptSenders.

(** ** Swapping the roles *)

Definition flip_line (e : event) : event :=
  match e with
  | OutPin pm slots => OutPin (negb pm) slots
  | _ => e
  end.

Section RoleSwap.
Context {H : Header}.

(** A session and its mirror image: the same mask and slots, the
    opposite initiator (unless the mask is idle). *)
Definition mirror (a b : PyState) : Prop :=
  s_pin a = s_pin b /\
  (s_pin a = 1 \/ s_pin_master b = negb (s_pin_master a)) /\
  s_pin_data a = s_pin_data b.

Lemma classify_mirror (a b : PyState) (m : bool) (op : Z) :
  mirror a b ->
  classify (with_master a m) op = classify (with_master b (negb m)) op /\
  (forall acc, classify (with_master a m) op = Some acc -> acc <> AccInRand ->
     s_pin_master b = negb (s_pin_master a)).
Proof.
  intros (Hm & Hpm & _). unfold classify.
  cbn [with_master set_frame s_pin s_master s_pin_master].
  rewrite <- Hm. destruct Hpm as [H1|Hpm].
  - rewrite H1. change (Z.testbit 1 1) with false. change (Z.testbit 1 2) with false.
    change (Z.testbit 1 4) with false. change (Z.testbit 1 6) with false.
    cbn [andb]. split.
    + destruct (op =? LMP_IN_RAND), (op =? LMP_COMB_KEY), (op =? LMP_AU_RAND),
        (op =? LMP_SRES), (Bool.eqb m (s_pin_master a)),
        (Bool.eqb (negb m) (s_pin_master b)); reflexivity.
    + intros acc Hc Hne. exfalso.
      destruct (op =? LMP_IN_RAND), (op =? LMP_COMB_KEY), (op =? LMP_AU_RAND),
        (op =? LMP_SRES), (Bool.eqb m (s_pin_master a)); try discriminate;
        inversion Hc; subst acc; apply Hne; reflexivity.
  - rewrite Hpm.
    replace (Bool.eqb (negb m) (negb (s_pin_master a)))
      with (Bool.eqb m (s_pin_master a))
      by (destruct m, (s_pin_master a); reflexivity).
    split; [reflexivity | auto].
Qed.

Lemma accept_mirror (a b : PyState) (m : bool) (acc : accepted)
    (buf : list Z) (len : Z) :
  mirror a b -> (acc <> AccInRand -> s_pin_master b = negb (s_pin_master a)) ->
  mirror (accept (with_master a m) acc buf len)
         (accept (with_master b (negb m)) acc buf len).
Proof.
  intros (Hm & Hpm & Hd) Hacc. unfold mirror.
  cbn [accept s_pin s_pin_master s_pin_data with_master set_frame s_master].
  unfold copied. cbn [s_pin_data with_master set_frame].
  rewrite Hm, Hd. split; [reflexivity|]. split; [|reflexivity].
  right. destruct acc; try reflexivity; apply Hacc; discriminate.
Qed.

Lemma feed_mirror (wa wb wa' : World) (i : lmp_input) :
  mirror (st wa) (st wb) -> feed i wa = Ok tt wa' ->
  exists wb' es, feed (swap_role i) wb = Ok tt wb' /\ mirror (st wa') (st wb') /\
    console wa' = console wa ++ es /\
    console wb' = console wb ++ map flip_line es.
Proof.
  intros HM Hrun. rewrite feed_unfold in Hrun. rewrite feed_unfold.
  cbv zeta in *. cbn [swap_role in_master in_op in_body].
  destruct (classify_mirror (st wa) (st wb) (in_master i) (in_op i) HM)
    as [Hcl Hpm].
  rewrite <- Hcl.
  destruct (classify (with_master (st wa) (in_master i)) (in_op i)) as [acc|].
  - specialize (Hpm acc eq_refl).
    destruct (copy_ok (in_body i) (Z.of_nat (List.length (in_body i)))) eqn:Hok;
      [|discriminate].
    pose proof (accept_mirror (st wa) (st wb) (in_master i) acc (in_body i)
                  (Z.of_nat (List.length (in_body i))) HM Hpm) as HM'.
    pose proof HM' as (Hm' & Hpm' & Hd').
    rewrite <- Hm'.
    match type of Hrun with
    | (if ?c then _ else _) = _ => destruct c eqn:Hfull
    end; inversion Hrun; subst wa'; clear Hrun.
    + eexists. eexists. split; [reflexivity|].
      unfold emitted; cbn [st console]. split; [|split; [reflexivity|]].
      * destruct HM' as (_ & _ & Hd). unfold mirror.
        cbn [set_pin s_pin s_pin_master s_pin_data]. auto.
      * cbn [map flip_line]. rewrite <- Hd'. do 3 f_equal.
        destruct Hpm' as [H1|Hpm']; [|exact Hpm'].
        apply Z.eqb_eq in Hfull. rewrite H1 in Hfull. discriminate.
    + exists (silent wb (accept (with_master (st wb) (negb (in_master i))) acc
                       (in_body i) (Z.of_nat (List.length (in_body i))))), [].
      split; [reflexivity|]. split; [exact HM'|].
      cbn [silent console map]. rewrite !app_nil_r. split; reflexivity.
  - inversion Hrun; subst wa'; clear Hrun.
    exists (silent wb (with_master (st wb) (negb (in_master i)))), [].
    split; [reflexivity|]. split; [exact HM|].
    cbn [silent console map]. rewrite !app_nil_r. split; reflexivity.
Qed.

Lemma feed_all_mirror (ins : list lmp_input) :
  forall wa wb wa',
    mirror (st wa) (st wb) -> feed_all ins wa = Ok tt wa' ->
    exists wb' es, feed_all (map swap_role ins) wb = Ok tt wb' /\
      mirror (st wa') (st wb') /\
      console wa' = console wa ++ es /\
      console wb' = console wb ++ map flip_line es.
Proof.
  induction ins as [|i ins IH]; intros wa wb wa' HM Hrun; simpl in *.
  - inversion Hrun; subst wa'. exists wb, [].
    split; [reflexivity|]. split; [exact HM|].
    simpl. rewrite !app_nil_r. split; reflexivity.
  - apply bind_ok in Hrun. destruct Hrun as ([] & w1 & Hf & Hrest).
    destruct (feed_mirror wa wb w1 i HM Hf) as (wb1 & es1 & Hfb & HM1 & Ha1 & Hb1).
    destruct (IH w1 wb1 wa' HM1 Hrest) as (wb' & es2 & Hb & HM' & Ha2 & Hb2).
    exists wb', (es1 ++ es2). split.
    + unfold bind. rewrite Hfb. exact Hb.
    + split; [exact HM'|]. rewrite Ha2, Hb2, Ha1, Hb1, map_app, !app_assoc.
      split; reflexivity.
Qed.

(** C5 (as the code has it). Started armed and idle, the run on the
    role-swapped inputs prints the same lines with the role order
    exchanged and with all seven slots unchanged: the slots are filled
    by initiator and responder, not by master and slave. *)
Theorem role_swap_flips_order_only (w w1 : World) (ins : list lmp_input)
    (Harmed : s_pin (st w) = 1)
    (Hrun : feed_all ins w = Ok tt w1) :
  exists w1' es,
    feed_all (map swap_role ins) w = Ok tt w1' /\
    console w1 = console w ++ es /\
    console w1' = console w ++ map flip_line es /\
    s_pin_data (st w1') = s_pin_data (st w1) /\
    (forall pm slots, In (OutPin pm slots) es ->
       In (OutPin (negb pm) slots) (map flip_line es) /\
       pin_roles pm <> pin_roles (negb pm)).
Proof.
  assert (HM : mirror (st w) (st w)).
  { unfold mirror. auto. }
  destruct (feed_all_mirror ins w w w1 HM Hrun) as (w1' & es & Hb & HM' & Ha & Hc).
  exists w1', es.
  split; [exact Hb|]. split; [exact Ha|]. split; [exact Hc|]. split.
  - destruct HM' as (_ & _ & Hd). symmetry. exact Hd.
  - intros pm slots Hin. split.
    + apply (in_map flip_line) in Hin. exact Hin.
    + destruct pm; discriminate.
Qed.

End RoleSwap.

(** ** A pairing, run on the sample header *)

Definition idle_state : PyState :=
  {| s_buf := repeat 0 64; s_len := 0;
     s_dump := -1; s_ignore := repeat (-1) 4; s_ignore_zero := 0;
     s_llid := 0; s_master := false; s_type := 0;
     s_pin := 1; s_pin_master := false;
     s_pin_data := repeat (repeat 0 16) 7 |}.

Definition idle_world : World :=
  {| st := idle_state; console := []; dumpfile := [] |}.

Definition msg (m : bool) (op : Z) (b : Z) (n : nat) : lmp_input :=
  {| in_master := m; in_op := op; in_body := repeat b n |}.

(** IN_RAND(M), COMB(M), COMB(S), AU_RAND(M), AU_RAND(S), SRES(S),
    SRES(M) with bodies 0x11.., 0x22.., ... 0x77... *)
Definition pairing_head : list lmp_input :=
  [ msg true 8 17 16; msg true 9 34 16; msg false 9 51 16;
    msg true 11 68 16; msg false 11 85 16; msg false 12 102 4 ].

Definition pairing_last : lmp_input := msg true 12 119 4.

Definition pairing : list lmp_input := pairing_head ++ [pairing_last].

Definition world_of (o : outcome unit) : World :=
  match o with
  | Ok _ w => w
  | _ => idle_world
  end.

Definition pairing_mid : World :=
  world_of (feed_all (H := sample_header) pairing_head idle_world).

Definition pairing_end : World :=
  world_of (feed (H := sample_header) pairing_last pairing_mid).

Definition pairing_slots : list (list Z) :=
  [ repeat 17 16; repeat 34 16; repeat 51 16; repeat 68 16; repeat 85 16;
    repeat 119 4; repeat 102 4 ].

Lemma idle_wf : pin_data_wf (s_pin_data idle_state).
Proof.
  split; [reflexivity|].
  intros i Hi. unfold PIN_SLOTS in Hi.
  do 7 (destruct i as [|i]; [reflexivity|]). lia.
Qed.

Example pairing_prints :
  feed_all (H := sample_header) pairing idle_world = Ok tt pairing_end /\
  console pairing_end = [OutPin true pairing_slots].
Proof. split; vm_compute; reflexivity. Qed.

Example pairing_text :
  pin_line true pairing_slots =
  ("btpincrack Go <master> <slave> " ++
   "11111111111111111111111111111111 22222222222222222222222222222222 " ++
   "33333333333333333333333333333333 44444444444444444444444444444444 " ++
   "55555555555555555555555555555555 77777777 66666666 " ++
   String "010" EmptyString)%string.
Proof. vm_compute. reflexivity. Qed.

Example pairing_swapped_prints :
  exists w, feed_all (H := sample_header) (map swap_role pairing) idle_world = Ok tt w /\
            console w = [OutPin false pairing_slots].
Proof. eexists. split; vm_compute; reflexivity. Qed.

(** The slot order that swapping the pairs 1-2, 3-4 and 5-6 gives. *)
Definition swap_pairs (slots : list (list Z)) : list (list Z) :=
  match slots with
  | [s0; s1; s2; s3; s4; s5; s6] => [s0; s2; s1; s4; s3; s6; s5]
  | _ => slots
  end.

Section AsStated.
Context {H : Header}.

(** C3 as the spec words it: slot 5 is the SRES that the responder
    sent, slot 6 the SRES that the initiator sent. *)
Definition sres_slots_as_stated (ins : list lmp_input) (w : World) : Prop :=
  forall w' pm slots,
    feed_all ins w = Ok tt w' -> In (OutPin pm slots) (console w') ->
    (exists i5, In i5 ins /\ in_op i5 = LMP_SRES /\ in_master i5 = negb pm /\
                nth 5 slots [] = in_body i5) /\
    (exists i6, In i6 ins /\ in_op i6 = LMP_SRES /\ in_master i6 = pm /\
                nth 6 slots [] = in_body i6).

(** C5 as the spec words it: the role-swapped run prints the opposite
    role order and the slot pairs exchanged. *)
Definition role_swap_as_stated (ins : list lmp_input) (w : World) : Prop :=
  forall w1 pm slots,
    feed_all ins w = Ok tt w1 -> In (OutPin pm slots) (console w1) ->
    exists w1', feed_all (map swap_role ins) w = Ok tt w1' /\
                In (OutPin (negb pm) (swap_pairs slots)) (console w1').

End AsStated.

Lemma pairing_run : feed_all (H := sample_header) pairing idle_world = Ok tt pairing_end.
Proof. vm_compute. reflexivity. Qed.

Lemma pairing_console : console pairing_end = [OutPin true pairing_slots].
Proof. vm_compute. reflexivity. Qed.

(** C3, counterexample: in the pairing above the master is the
    initiator; slot 5 is printed as 77777777, the SRES the master sent,
    and no SRES sent by the responder is in slot 5. *)
Lemma sres_slots_counterexample :
  ~ sres_slots_as_stated (H := sample_header) pairing idle_world.
Proof.
  intros Hc.
  destruct (Hc pairing_end true pairing_slots pairing_run) as [(i5 & Hin & Hop & Hm & Hb) _].
  { rewrite pairing_console. left. reflexivity. }
  vm_compute in Hin.
  repeat (destruct Hin as [Hin|Hin]; [subst i5; vm_compute in Hop, Hm, Hb; discriminate|]).
  exact Hin.
Qed.

(** C5, counterexample: with every role flag swapped the same pairing
    prints the same seven slots in the same order, not the pairs
    exchanged. *)
Lemma role_swap_counterexample :
  ~ role_swap_as_stated (H := sample_header) pairing idle_world.
Proof.
  intros Hc.
  destruct (Hc pairing_end true pairing_slots pairing_run) as (w1' & Hrun & Hin).
  { rewrite pairing_console. left. reflexivity. }
  vm_compute in Hrun. inversion Hrun; subst w1'; clear Hrun.
  vm_compute in Hin. destruct Hin as [E|[]]. discriminate E.
Qed.

(** C1, witness: the pairing above, fed to the idle observer twice. *)
Lemma pin_emission_gated_and_reproducible_witness :
  exists wp' w2,
    feed_all (H := sample_header) pairing_head pairing_end = Ok tt wp' /\
    feed (H := sample_header) pairing_last wp' = Ok tt w2 /\
    console w2 = console wp' ++ [OutPin true pairing_slots] /\
    s_pin (st w2) = 1 /\
    s_pin_data (st w2) = s_pin_data (st pairing_end).
Proof.
  assert (Hpre : feed_all (H := sample_header) pairing_head idle_world = Ok tt pairing_mid)
    by (vm_compute; reflexivity).
  assert (Hlast : feed (H := sample_header) pairing_last pairing_mid = Ok tt pairing_end)
    by (vm_compute; reflexivity).
  assert (Hcon : console pairing_end = console pairing_mid ++ [OutPin true pairing_slots])
    by (vm_compute; reflexivity).
  destruct (pin_emission_gated_and_reproducible (H := sample_header)
              idle_world pairing_mid pairing_end pairing_head pairing_last
              (or_introl eq_refl) idle_wf Hpre Hlast) as [_ Hrep].
  destruct (Hrep _ Hcon) as (_ & _ & Hagain).
  exact Hagain.
Defined.

(** C3, witness: in the pairing above the master is the initiator;
    slot 5 is the SRES the master sent, slot 6 the SRES the slave
    sent. *)
Lemma sres_slots_by_sender_witness :
  (exists i5, In i5 pairing /\ in_op i5 = 12 /\ in_master i5 = true /\
     nth 5 pairing_slots [] = firstn 4 (in_body i5)) /\
  (exists i6, In i6 pairing /\ in_op i6 = 12 /\ in_master i6 = negb true /\
     nth 6 pairing_slots [] = firstn 4 (in_body i6)).
Proof.
  assert (Hline : In (OutPin true pairing_slots) (console pairing_end)).
  { rewrite pairing_console. left. reflexivity. }
  apply (proj1 (proj2 (sres_slots_by_sender (H := sample_header) idle_world
                         pairing_end pairing true pairing_slots eq_refl idle_wf
                         eq_refl pairing_run Hline))).
  repeat constructor; intros _; vm_compute; discriminate.
Defined.

(** Why the body length matters: a second pairing, started by the
    slave, whose last SRES has an empty body.  [memcpy] of zero bytes
    leaves slot 5 as the first pairing filled it, so the line names the
    slave as initiator and prints in slot 5 the SRES that the master
    sent in the first pairing. *)
Definition pairing_short : list lmp_input :=
  [ msg false 8 1 16; msg false 9 2 16; msg true 9 3 16;
    msg false 11 4 16; msg true 11 5 16; msg true 12 6 4; msg false 12 7 0 ].

Definition pairing_short_end : World :=
  world_of (feed_all (H := sample_header) (pairing ++ pairing_short) idle_world).

Example sres_short_body_keeps_stale :
  feed_all (H := sample_header) (pairing ++ pairing_short) idle_world =
    Ok tt pairing_short_end /\
  console pairing_short_end =
    [ OutPin true pairing_slots;
      OutPin false [ repeat 1 16; repeat 2 16; repeat 3 16; repeat 4 16; repeat 5 16;
                     repeat 119 4; repeat 6 4 ] ].
Proof. split; vm_compute; reflexivity. Qed.

(** C5, witness. *)
Lemma role_swap_flips_order_only_witness :
  exists w1' es,
    feed_all (H := sample_header) (map swap_role pairing) idle_world = Ok tt w1' /\
    console pairing_end = console idle_world ++ es /\
    console w1' = console idle_world ++ map flip_line es /\
    s_pin_data (st w1') = s_pin_data (st pairing_end).
Proof.
  destruct (role_swap_flips_order_only (H := sample_header) idle_world pairing_end
              pairing eq_refl pairing_run) as (w1' & es & Hrun & Ha & Hb & Hd & _).
  exists w1', es. repeat split; assumption.
Defined.

(** C9, witness: an IN_RAND on the idle observer. *)
Lemma do_pin_keeps_armed_witness :
  s_pin (st (world_of (do_pin (H := sample_header) 8 (repeat 17 16) 16 idle_world))) =
  Z.lor 1 GOT_IN_RAND.
Proof.
  assert (Hrun : do_pin (H := sample_header) 8 (repeat 17 16) 16 idle_world =
                 Ok tt (world_of (do_pin (H := sample_header) 8 (repeat 17 16) 16 idle_world)))
    by (vm_compute; reflexivity).
  exact (proj1 (proj2 (do_pin_keeps_armed (H := sample_header) _ _ _ _ _ Hrun)) eq_refl).
Defined.

(** ** The synthetic LMP dump record *)

Lemma set_nth_last {A : Type} (l : list A) (x y : A) :
  set_nth (l ++ [x]) (List.length l) y = l ++ [y].
Proof. induction l as [|h t IH]; simpl; [reflexivity | rewrite IH; reflexivity]. Qed.

Lemma skipn_repeat {A : Type} (x : A) (n k : nat) :
  skipn n (repeat x k) = repeat x (k - n).
Proof.
  revert k; induction n as [|n IH]; intros [|k]; simpl; auto.
Qed.

Lemma repeat_snoc {A : Type} (x : A) (n : nat) :
  repeat x (S n) = repeat x n ++ [x].
Proof. induction n as [|n IH]; simpl in *; [reflexivity | rewrite <- IH; reflexivity]. Qed.

(** The 20 bytes: channel 20, direction, body zero-padded to 17, handle 0. *)
Lemma csr_lmp_bytes (master : bool) (buf : list Z) (len : Z) :
  0 <= len <= 17 -> len <= Z.of_nat (List.length buf) ->
  csr_lmp master buf len =
  [20; if master then 16 else 15] ++ firstn (Z.to_nat len) buf ++
  repeat 0 (17 - Z.to_nat len) ++ [0].
Proof.
  intros Hl Hb. unfold csr_lmp, overwrite.
  set (n := Z.to_nat len). assert (Hn : (n <= 17)%nat) by lia.
  assert (Hf : List.length (firstn n buf) = n) by (rewrite length_firstn; lia).
  change (set_nth (set_nth (repeat 0 (1 + 1 + 17 + 1)) 0 20) 1
            (if master then 16 else 15))
    with ([20; if master then 16 else 15] ++ repeat 0 18).
  rewrite firstn_app, skipn_app. simpl (List.length _).
  change (firstn 2 [20; if master then 16 else 15])
    with [20; if master then 16 else 15].
  change (skipn 2 [20; if master then 16 else 15]) with (@nil Z).
  simpl (2 - 2)%nat. simpl (firstn 0 _). simpl (skipn 0 _).
  rewrite app_nil_r. simpl ([] ++ _).
  change [0; 0; 0; 0; 0; 0; 0; 0; 0; 0; 0; 0; 0; 0; 0; 0; 0; 0] with (repeat 0 18).
  rewrite skipn_repeat. replace (18 - n)%nat with (S (17 - n)) by lia.
  rewrite repeat_snoc.
  replace ([20; if master then 16 else 15] ++ firstn n buf ++ repeat 0 (17 - n) ++ [0])
    with (([20; if master then 16 else 15] ++ firstn n buf ++ repeat 0 (17 - n)) ++ [0])
    by (rewrite <- !app_assoc; reflexivity).
  replace (2 + 17)%nat
    with (List.length ([20; if master then 16 else 15] ++ firstn n buf ++ repeat 0 (17 - n))).
  - apply set_nth_last.
  - rewrite !length_app, Hf, repeat_length. cbn [List.length]. clearbody n. lia.
Qed.

(** The record [dump_lmp] writes. *)
Definition lmp_record (master : bool) (buf : list Z) (len : Z) : list chunk :=
  [ WDumpHdr {| dh_len := 1 + sizeof_hci_event_hdr + 20; dh_in := 1;
                dh_ts_sec := 0; dh_ts_usec := 0 |};
    WBytes [HCI_EVENT_PKT];
    WBytes [EVT_VENDOR; 20];
    WBytes ([20; if master then 16 else 15] ++ firstn (Z.to_nat len) buf ++
            repeat 0 (17 - Z.to_nat len) ++ [0]) ].

Definition dumped (w : World) (rec : list chunk) : World :=
  {| st := st w; console := console w; dumpfile := dumpfile w ++ rec |}.

Lemma dump_lmp_ok (buf : list Z) (len : Z) (w : World) :
  0 <= len <= 17 -> len <= Z.of_nat (List.length buf) ->
  dump_lmp buf len w = Ok tt (dumped w (lmp_record (s_master (st w)) buf len)).
Proof.
  intros Hl Hb. unfold dump_lmp, bind, assert, write, get, ret.
  replace (len <=? 17) with true by (symmetry; apply Z.leb_le; lia).
  cbn [st console dumpfile].
  replace ((0 <=? len) && (len <=? Z.of_nat (List.length buf))) with true
    by (symmetry; apply andb_true_iff; split; apply Z.leb_le; lia).
  rewrite csr_lmp_bytes by assumption.
  unfold dumped, lmp_record. cbn [st console dumpfile].
  rewrite <- !app_assoc. reflexivity.
Qed.

(** ** Computations that leave the dump file alone *)

Definition dump_of {A : Type} (o : outcome A) : option (list chunk) :=
  match o with
  | Ok _ w => Some (dumpfile w)
  | Abort _ w => Some (dumpfile w)
  | _ => None
  end.

(** [no_dump m]: whether [m] returns or aborts, the dump file is as it
    was. *)
Definition no_dump {A : Type} (m : M A) : Prop :=
  forall w d, dump_of (m w) = Some d -> d = dumpfile w.

Lemma no_dump_bind {A B : Type} (m : M A) (k : A -> M B) :
  no_dump m -> (forall a, no_dump (k a)) -> no_dump (bind m k).
Proof.
  intros Hm Hk w d. unfold bind.
  destruct (m w) as [a w1|f w1| |] eqn:E; simpl; try discriminate.
  - intros Hd. rewrite (Hk a w1 d Hd). apply (Hm w). rewrite E. reflexivity.
  - intros Hd. apply (Hm w). rewrite E. exact Hd.
Qed.

Lemma no_dump_get {B : Type} (k : PyState -> M B) :
  (forall s, no_dump (k s)) -> no_dump (bind get k).
Proof. intros Hk w d. unfold bind, get. apply Hk. Qed.

Lemma no_dump_ret {A : Type} (a : A) : no_dump (ret a).
Proof. intros w d E. inversion E. reflexivity. Qed.

Lemma no_dump_print (e : event) : no_dump (print e).
Proof. intros w d E. inversion E. reflexivity. Qed.

Lemma no_dump_fault {A : Type} : no_dump (@fault A).
Proof. intros w d E. discriminate. Qed.

Lemma no_dump_assert (b : bool) (f : failure) : no_dump (assert b f).
Proof. intros w d E. destruct b; inversion E; reflexivity. Qed.

Lemma no_dump_read_byte (buf : list Z) (off : nat) : no_dump (read_byte buf off).
Proof.
  unfold read_byte. destruct (byte_at buf off);
    [apply no_dump_ret | apply no_dump_fault].
Qed.

Lemma no_dump_hexdump (buf : list Z) (len : Z) : no_dump (hexdump buf len).
Proof.
  unfold hexdump.
  match goal with |- context [if ?c then _ else _] => destruct c end;
    [apply no_dump_print | apply no_dump_fault].
Qed.

Lemma no_dump_do_pin {H : Header} (op : Z) (buf : list Z) (len : Z) :
  no_dump (do_pin op buf len).
Proof.
  intros w d. rewrite do_pin_unfold.
  destruct (classify (st w) op); [|intros E; inversion E; reflexivity].
  destruct (copy_ok buf len); [|discriminate].
  cbv zeta.
  match goal with |- context [if ?c then _ else _] => destruct c end;
    intros E; inversion E; reflexivity.
Qed.

(** ** The LMP decoder *)

Section Lmp.
Context {H : Header}.

(** What [process_lmp] does after the dump. *)
Definition lmp_decode (buf : list Z) (len : Z) : M unit :=
  op1 <- read_byte buf 0 ;;
  let data := skipn 1 buf in
  let len := len - 1 in
  assert (0 <=? len) AssertLmpLen ;;;
  let tid := Z.land op1 LMP_TID_MASK in
  let op1 := Z.shiftr op1 LMP_OP1_SHIFT in
  r <- (if (124 <=? op1) && (op1 <=? 127)
        then
          op2 <- read_byte data 0 ;;
          let data := skipn 1 data in
          let len := len - 1 in
          assert (0 <=? len) AssertLmpLen ;;;
          ret (op2, data, len)
        else ret (-1, data, len)) ;;
  let '(op2, data, len) := r in
  print (OutLmp tid op1) ;;;
  (if negb (op2 =? -1) then print (OutOp2 op2) else ret tt) ;;;
  print (OutText ": ") ;;;
  hexdump data len ;;;
  s <- get ;;
  if negb (s_pin s =? 0) then do_pin op1 data len else ret tt.

Lemma process_lmp_split (buf : list Z) (len : Z) :
  process_lmp buf len =
  (s <- get ;;
   (if negb (s_dump s =? -1) then dump_lmp buf len else ret tt) ;;;
   lmp_decode buf len).
Proof. reflexivity. Qed.

Lemma no_dump_lmp_decode (buf : list Z) (len : Z) : no_dump (lmp_decode buf len).
Proof.
  unfold lmp_decode.
  apply no_dump_bind; [apply no_dump_read_byte|]. intros op1.
  apply no_dump_bind; [apply no_dump_assert|]. intros _.
  apply no_dump_bind.
  { match goal with |- context [if ?c then _ else _] => destruct c end;
      [|apply no_dump_ret].
    apply no_dump_bind; [apply no_dump_read_byte|]. intros op2.
    apply no_dump_bind; [apply no_dump_assert|]. intros _. apply no_dump_ret. }
  intros [[op2 data] n].
  apply no_dump_bind; [apply no_dump_print|]. intros _.
  apply no_dump_bind;
    [destruct (negb (op2 =? -1)); [apply no_dump_print | apply no_dump_ret]|].
  intros _. apply no_dump_bind; [apply no_dump_print|]. intros _.
  apply no_dump_bind; [apply no_dump_hexdump|]. intros _.
  apply no_dump_get. intros s.
  destruct (negb (s_pin s =? 0)); [apply no_dump_do_pin | apply no_dump_ret].
Qed.

(** C6. With the dump enabled and a body of at most 17 bytes,
    [process_lmp] first writes the record
    DumpHdr(len = 1 + sizeof(EvtHdr) + 20, in = 1, ts = 0, 0), the byte
    HCI_EVENT_PKT = 0x04, EvtHdr(EVT_VENDOR = 0xFF, 20), and the 20
    bytes [20, dir, body zero-padded to 17 bytes, 0] with dir = 0x10
    for the master and 0x0F for the slave; the body is decoded in the
    world that holds the record, and nothing else reaches the dump
    file, whether the decoding returns or aborts. *)
Theorem lmp_dump_record_first (w : World) (buf : list Z) (len : Z)
    (Hdump : s_dump (st w) <> -1)
    (Hlen : 0 <= len <= 17)
    (Hbuf : len <= Z.of_nat (List.length buf)) :
  let body := firstn (Z.to_nat len) buf in
  let dir := if s_master (st w) then 16 else 15 in
  let rec :=
    [ WDumpHdr {| dh_len := 1 + sizeof_hci_event_hdr + 20; dh_in := 1;
                  dh_ts_sec := 0; dh_ts_usec := 0 |};
      WBytes [4];
      WBytes [255; 20];
      WBytes ([20; dir] ++ body ++ repeat 0 (17 - List.length body) ++ [0]) ] in
  process_lmp buf len w = lmp_decode buf len (dumped w rec) /\
  (forall d, dump_of (process_lmp buf len w) = Some d -> d = dumpfile w ++ rec) /\
  1 + sizeof_hci_event_hdr + 20 = 23.
Proof.
  intros body dir rec.
  assert (Hb : List.length body = Z.to_nat len).
  { unfold body. rewrite length_firstn. lia. }
  assert (Hrec : rec = lmp_record (s_master (st w)) buf len).
  { unfold rec, lmp_record, dir, body. rewrite length_firstn.
    replace (Nat.min (Z.to_nat len) (List.length buf)) with (Z.to_nat len) by lia.
    reflexivity. }
  assert (Hsplit : process_lmp buf len w = lmp_decode buf len (dumped w rec)).
  { rewrite process_lmp_split. unfold bind at 1 2. unfold get.
    apply Z.eqb_neq in Hdump. rewrite Hdump. cbn [negb].
    rewrite dump_lmp_ok by assumption. rewrite Hrec. reflexivity. }
  split; [exact Hsplit|]. split; [|reflexivity].
  intros d Hd. rewrite Hsplit in Hd.
  apply no_dump_lmp_decode in Hd. exact Hd.
Qed.

(** With two bytes behind the pointer and a length in 0..17,
    [process_lmp] returns, or fails an assertion [len >= 0]. *)
Lemma process_lmp_cases (w : World) (b0 b1 : Z) (rest : list Z) (len : Z)
    (Hlen : 0 <= len <= 17)
    (Hbuf : len <= Z.of_nat (List.length (b0 :: b1 :: rest))) :
  let op1 := Z.shiftr b0 LMP_OP1_SHIFT in
  let pre := 1 <= len /\ (124 <= op1 <= 127 -> 2 <= len) in
  (pre /\ exists w', process_lmp (b0 :: b1 :: rest) len w = Ok tt w') \/
  (~ pre /\ exists w', process_lmp (b0 :: b1 :: rest) len w = Abort AssertLmpLen w').
Proof.
  intros op1 pre.
  assert (Hdec : exists w1,
              process_lmp (b0 :: b1 :: rest) len w = lmp_decode (b0 :: b1 :: rest) len w1).
    { rewrite process_lmp_split. unfold bind at 1. unfold get.
      unfold bind at 1.
      destruct (negb (s_dump (st w) =? -1)).
      - rewrite dump_lmp_ok by assumption. eexists. reflexivity.
      - exists w. reflexivity. }
    destruct Hdec as (w1 & Hdec). rewrite Hdec. clear Hdec.
    unfold lmp_decode. mred. fold op1.
    destruct (0 <=? len - 1) eqn:E1; mred.
    2:{ right. apply Z.leb_gt in E1. split; [unfold pre; lia|].
        exists w1. reflexivity. }
    apply Z.leb_le in E1.
    simpl List.length in Hbuf.
    destruct ((124 <=? op1) && (op1 <=? 127)) eqn:Eext; mred.
    - apply andb_true_iff in Eext. destruct Eext as [Ea Eb].
      apply Z.leb_le in Ea, Eb.
      destruct (0 <=? len - 1 - 1) eqn:E2; mred.
      2:{ right. apply Z.leb_gt in E2. split; [unfold pre; lia|].
          exists w1. reflexivity. }
      apply Z.leb_le in E2. left. split; [unfold pre; lia|].
      unfold hexdump.
      replace ((0 <=? len - 1 - 1) && (len - 1 - 1 <=? Z.of_nat (List.length rest)))
        with true
        by (symmetry; apply andb_true_iff; split; apply Z.leb_le; lia).
      destruct (negb (b1 =? -1)); mred;
        (destruct (negb (s_pin (st w1) =? 0)); mred; [|eexists; reflexivity]);
        rewrite do_pin_unfold; cbn [st];
        (destruct (classify (st w1) op1); [|eexists; reflexivity]);
        (replace (copy_ok rest (len - 1 - 1)) with true
           by (symmetry; unfold copy_ok, PIN_SLOT_LEN;
               rewrite !andb_true_iff, !Z.leb_le; lia));
        cbv zeta;
        match goal with |- context [if ?c then _ else _] => destruct c end;
        eexists; reflexivity.
    - left. split.
      { unfold pre. split; [lia|]. intros Hr.
        apply andb_false_iff in Eext. destruct Eext as [Ea|Ea];
          apply Z.leb_gt in Ea; lia. }
      unfold hexdump.
      replace ((0 <=? len - 1) && (len - 1 <=? Z.of_nat (List.length (b1 :: rest))))
        with true
        by (symmetry; apply andb_true_iff; split; apply Z.leb_le;
            simpl List.length; lia).
      change (-1 =? -1) with true. mred.
      destruct (negb (s_pin (st w1) =? 0)); mred; [|eexists; reflexivity].
      rewrite do_pin_unfold; cbn [st].
      destruct (classify (st w1) op1); [|eexists; reflexivity].
      replace (copy_ok (b1 :: rest) (len - 1)) with true
        by (symmetry; unfold copy_ok, PIN_SLOT_LEN;
            rewrite !andb_true_iff, !Z.leb_le; simpl List.length; lia).
      cbv zeta.
      match goal with |- context [if ?c then _ else _] => destruct c end;
        eexists; reflexivity.
Qed.

(** C10. For a body pointer with two bytes behind it and a length in
    0..17, [process_lmp] returns exactly when the length is at least 1,
    and at least 2 when the first opcode is in 124..127; otherwise one
    of its two assertions [len >= 0] fails. *)
Theorem process_lmp_total_iff (w : World) (b0 b1 : Z) (rest : list Z) (len : Z)
    (Hlen : 0 <= len <= 17)
    (Hbuf : len <= Z.of_nat (List.length (b0 :: b1 :: rest))) :
  let op1 := Z.shiftr b0 LMP_OP1_SHIFT in
  let pre := 1 <= len /\ (124 <= op1 <= 127 -> 2 <= len) in
  (pre <-> exists w', process_lmp (b0 :: b1 :: rest) len w = Ok tt w') /\
  (~ pre <-> exists w', process_lmp (b0 :: b1 :: rest) len w = Abort AssertLmpLen w').
Proof.
  intros op1 pre.
  pose proof (process_lmp_cases w b0 b1 rest len Hlen Hbuf) as Hcases.
  cbv zeta in Hcases. fold op1 in Hcases. fold pre in Hcases.
  destruct Hcases as [[Hp (w' & Hw)]|[Hp (w' & Hw)]].
  - split; split; intros X; auto.
    + exists w'. exact Hw.
    + contradiction.
    + destruct X as (w2 & Hw2). rewrite Hw in Hw2. discriminate.
  - split; split; intros X; auto.
    + contradiction.
    + destruct X as (w2 & Hw2). rewrite Hw in Hw2. discriminate.
    + exists w'. exact Hw.
Qed.

End Lmp.

(** ** What the payload decoders leave alone *)

Definition frames_of (l : list event) : list frame_log :=
  flat_map (fun e => match e with OutFrame f => [f] | _ => [] end) l.

(** A payload dispatch is announced by the blank that
    [process_frontline] prints before [process_payload]. *)
Definition is_dispatch (e : event) : bool :=
  match e with
  | OutText s => String.eqb s " "
  | _ => false
  end.

Definition dispatches (l : list event) : nat := List.length (filter is_dispatch l).

Definition payload_event (e : event) : Prop :=
  is_dispatch e = false /\ match e with OutFrame _ => False | _ => True end.

(** [respects m]: a returning [m] leaves the ignore filters as they
    were and prints only payload events. *)
Definition respects {A : Type} (m : M A) : Prop :=
  forall w a w', m w = Ok a w' ->
    s_ignore (st w') = s_ignore (st w) /\
    s_ignore_zero (st w') = s_ignore_zero (st w) /\
    exists es, console w' = console w ++ es /\ Forall payload_event es.

Lemma respects_same {A : Type} (m : M A) :
  (forall w a w', m w = Ok a w' -> st w' = st w /\ console w' = console w) ->
  respects m.
Proof.
  intros Hm w a w' E. destruct (Hm w a w' E) as [Hs Hc].
  rewrite Hs, Hc. repeat split. exists []. rewrite app_nil_r. split; constructor.
Qed.

Lemma respects_bind {A B : Type} (m : M A) (k : A -> M B) :
  respects m -> (forall a, respects (k a)) -> respects (bind m k).
Proof.
  intros Hm Hk w b w' E. apply bind_ok in E. destruct E as (a & w1 & E1 & E2).
  destruct (Hm _ _ _ E1) as (Hi1 & Hz1 & es1 & Hc1 & Hf1).
  destruct (Hk a _ _ _ E2) as (Hi2 & Hz2 & es2 & Hc2 & Hf2).
  split; [congruence|]. split; [congruence|].
  exists (es1 ++ es2). split.
  - rewrite Hc2, Hc1, app_assoc. reflexivity.
  - apply Forall_app. split; assumption.
Qed.

Lemma respects_get {B : Type} (k : PyState -> M B) :
  (forall s, respects (k s)) -> respects (bind get k).
Proof. intros Hk w b w' E. unfold bind, get in E. apply (Hk _ _ _ _ E). Qed.

Lemma respects_ret {A : Type} (a : A) : respects (ret a).
Proof. apply respects_same. intros w x w' E. inversion E. auto. Qed.

Lemma respects_fault {A : Type} : respects (@fault A).
Proof. intros w x w' E. discriminate. Qed.

Lemma respects_write (c : chunk) : respects (write c).
Proof. apply respects_same. intros w x w' E. inversion E. auto. Qed.

Lemma respects_assert (b : bool) (f : failure) : respects (assert b f).
Proof.
  apply respects_same. intros w x w' E. unfold assert in E.
  destruct b; inversion E. auto.
Qed.

Lemma respects_print (e : event) : payload_event e -> respects (print e).
Proof.
  intros He w x w' E. inversion E. cbn [st console]. repeat split.
  exists [e]. split; [reflexivity|]. constructor; [exact He | constructor].
Qed.

Lemma respects_read_byte (buf : list Z) (off : nat) : respects (read_byte buf off).
Proof.
  unfold read_byte. destruct (byte_at buf off);
    [apply respects_ret | apply respects_fault].
Qed.

Lemma respects_hexdump (buf : list Z) (len : Z) : respects (hexdump buf len).
Proof.
  unfold hexdump.
  match goal with |- context [if ?c then _ else _] => destruct c end;
    [apply respects_print; split; exact I || reflexivity | apply respects_fault].
Qed.

Lemma respects_dump_lmp (buf : list Z) (len : Z) : respects (dump_lmp buf len).
Proof.
  unfold dump_lmp.
  apply respects_bind; [apply respects_assert|]; intros _.
  do 3 (apply respects_bind; [apply respects_write|]; intros _).
  apply respects_get; intros s.
  match goal with |- context [if ?c then _ else _] => destruct c end;
    [apply respects_write | apply respects_fault].
Qed.

Lemma respects_process_dv (buf : list Z) (len : Z) : respects (process_dv buf len).
Proof.
  unfold process_dv.
  apply respects_bind; [apply respects_print; split; [reflexivity | exact I]|].
  intros _. apply respects_hexdump.
Qed.

Lemma respects_process_l2cap (buf : list Z) (len : Z) :
  respects (process_l2cap buf len).
Proof.
  unfold process_l2cap.
  apply respects_bind; [apply respects_print; split; [reflexivity | exact I]|].
  intros _. apply respects_bind; [apply respects_hexdump|]. intros _.
  apply respects_get; intros s.
  destruct (s_dump s =? -1); [apply respects_ret|].
  do 3 (apply respects_bind; [apply respects_write|]; intros _).
  apply respects_write.
Qed.

Section RespectsDecoders.
Context {H : Header}.

Lemma respects_do_pin (op : Z) (buf : list Z) (len : Z) :
  respects (do_pin op buf len).
Proof.
  intros w x w'. rewrite do_pin_unfold.
  destruct (classify (st w) op) as [a|].
  - destruct (copy_ok buf len); [|discriminate]. cbv zeta.
    match goal with |- context [if ?c then _ else _] => destruct c end;
      intros E; inversion E; cbn [emitted silent st console]; repeat split.
    + exists [OutPin (s_pin_master (accept (st w) a buf len))
                (printed_slots (s_pin_data (accept (st w) a buf len)))].
      split; [reflexivity|]. constructor; [|constructor]. split; [reflexivity | exact I].
    + exists []. rewrite app_nil_r. split; constructor.
  - intros E; inversion E. repeat split.
    exists []. rewrite app_nil_r. split; constructor.
Qed.

Lemma respects_process_lmp (buf : list Z) (len : Z) : respects (process_lmp buf len).
Proof.
  rewrite process_lmp_split.
  apply respects_get; intros s. apply respects_bind.
  { destruct (negb (s_dump s =? -1)); [apply respects_dump_lmp | apply respects_ret]. }
  intros _. unfold lmp_decode.
  apply respects_bind; [apply respects_read_byte|]. intros op1.
  apply respects_bind; [apply respects_assert|]. intros _.
  apply respects_bind.
  { match goal with |- context [if ?c then _ else _] => destruct c end;
      [|apply respects_ret].
    apply respects_bind; [apply respects_read_byte|]. intros op2.
    apply respects_bind; [apply respects_assert|]. intros _. apply respects_ret. }
  intros [[op2 data] n].
  apply respects_bind; [apply respects_print; split; [reflexivity | exact I]|].
  intros _. apply respects_bind.
  { destruct (negb (op2 =? -1));
      [apply respects_print; split; [reflexivity | exact I] | apply respects_ret]. }
  intros _.
  apply respects_bind; [apply respects_print; split; [reflexivity | exact I]|].
  intros _. apply respects_bind; [apply respects_hexdump|]. intros _.
  apply respects_get. intros s'.
  destruct (negb (s_pin s' =? 0)); [apply respects_do_pin | apply respects_ret].
Qed.

Lemma respects_process_payload (buf : list Z) (len : Z) :
  respects (process_payload buf len).
Proof.
  unfold process_payload. apply respects_get; intros s.
  destruct (s_type s =? TYPE_DV); [apply respects_process_dv|].
  destruct (s_llid s =? LLID_LMP);
    [apply respects_process_lmp | apply respects_process_l2cap].
Qed.

End RespectsDecoders.

(** ** The frontline decoder: one invocation *)

Lemma read_byte_ok (buf : list Z) (off : nat) (w w' : World) (v : Z) :
  read_byte buf off w = Ok v w' -> byte_at buf off = Some v /\ w' = w.
Proof.
  unfold read_byte. destruct (byte_at buf off); [|discriminate].
  intros E; inversion E. auto.
Qed.

Lemma read_le16_ok (buf : list Z) (off : nat) (w w' : World) (v : Z) :
  read_le16 buf off w = Ok v w' -> le16_at buf off = Some v /\ w' = w.
Proof.
  unfold read_le16. destruct (le16_at buf off); [|discriminate].
  intros E; inversion E. auto.
Qed.

Lemma read_le32_ok (buf : list Z) (off : nat) (w w' : World) (v : Z) :
  read_le32 buf off w = Ok v w' -> le32_at buf off = Some v /\ w' = w.
Proof.
  unfold read_le32. destruct (le32_at buf off); [|discriminate].
  intros E; inversion E. auto.
Qed.

Lemma assert_ok (b : bool) (f : failure) (w w' : World) :
  assert b f w = Ok tt w' -> b = true /\ w' = w.
Proof. unfold assert. destruct b; intros E; inversion E. auto. Qed.

Lemma frames_of_app (l1 l2 : list event) :
  frames_of (l1 ++ l2) = frames_of l1 ++ frames_of l2.
Proof. apply flat_map_app. Qed.

Lemma dispatches_app (l1 l2 : list event) :
  dispatches (l1 ++ l2) = (dispatches l1 + dispatches l2)%nat.
Proof. unfold dispatches. rewrite filter_app, length_app. reflexivity. Qed.

Lemma payload_events_quiet (es : list event) :
  Forall payload_event es -> frames_of es = [] /\ dispatches es = 0%nat.
Proof.
  induction 1 as [|e es [Hd Hf] _ [IH1 IH2]]; [split; reflexivity|].
  unfold dispatches in *. simpl. rewrite Hd. split; [|exact IH2].
  destruct e; try contradiction; exact IH1.
Qed.

Section Frontline.
Context {H : Header}.

Definition fp_type (hdr0 : Z) : Z := Z.land (Z.shiftr hdr0 FP_TYPE_SHIFT) FP_TYPE_MASK.
Definition fp_plen (fp_len : Z) : Z := Z.shiftr fp_len FP_LEN_SHIFT.

(** The two [return]s of the ignore filters. *)
Definition filtered (s : PyState) (type plen : Z) : bool :=
  existsb (fun x => x =? type) (firstn MAX_TYPES (s_ignore s)) ||
  (negb (s_ignore_zero s =? 0) && (plen =? 0)).

(** What a returning invocation has done. *)
Lemma frontline_step_ok (buf : list Z) (len : Z) (w w' : World) (e : fl_exit) :
  frontline_step buf len w = Ok e w' ->
  exists hdr0 fplen hlen,
    byte_at buf OFF_fp_hdr0 = Some hdr0 /\
    le16_at buf OFF_fp_len = Some fplen /\
    byte_at buf OFF_fp_hlen = Some hlen /\
    (hlen = HLEN_BC2 \/ hlen = HLEN_BC4) /\
    if filtered (st w) (fp_type hdr0) (fp_plen fplen)
    then e = FlSkipped /\ w' = w
    else
      exists fr es,
        fl_hlen fr = hlen /\ fl_plen fr = fp_plen fplen /\
        fl_type fr = fp_type hdr0 /\
        console w' = console w ++ OutFrame fr :: es /\
        frames_of es = [] /\
        dispatches es = (if fp_plen fplen =? 0 then 0%nat else 1%nat) /\
        s_ignore (st w') = s_ignore (st w) /\
        s_ignore_zero (st w') = s_ignore_zero (st w) /\
        0 <= len - hlen /\ fp_plen fplen <= len - hlen /\
        e = if len - hlen - fp_plen fplen =? 0 then FlDone
            else FlMore (skipn (Z.to_nat (fp_plen fplen)) (skipn (Z.to_nat hlen) buf))
                        (len - hlen - fp_plen fplen).
Proof.
  unfold frontline_step. intros Hrun.
  apply bind_ok in Hrun. destruct Hrun as (hdr0 & w1 & Hr & Hrun).
  apply read_byte_ok in Hr. destruct Hr as [Hhdr0 ->].
  apply bind_ok in Hrun. destruct Hrun as (fplen & w1 & Hr & Hrun).
  apply read_le16_ok in Hr. destruct Hr as [Hlen ->].
  apply bind_ok in Hrun. destruct Hrun as (hlen & w1 & Hr & Hrun).
  apply read_byte_ok in Hr. destruct Hr as [Hhlen ->].
  apply bind_ok in Hrun. destruct Hrun as ([] & w1 & Hsw & Hrun).
  assert (Hknown : (hlen = HLEN_BC2 \/ hlen = HLEN_BC4) /\ w1 = w).
  { destruct ((hlen =? HLEN_BC2) || (hlen =? HLEN_BC4)) eqn:E.
    - inversion Hsw. split; [|reflexivity].
      apply orb_true_iff in E. rewrite !Z.eqb_eq in E. exact E.
    - unfold bind, print, abort in Hsw. discriminate. }
  destruct Hknown as [Hknown ->]. clear Hsw.
  exists hdr0, fplen, hlen. repeat (split; [assumption|]).
  fold (fp_type hdr0) in Hrun. fold (fp_plen fplen) in Hrun.
  unfold bind at 1 in Hrun. unfold get in Hrun.
  unfold filtered.
  destruct (existsb (fun x => x =? fp_type hdr0) (firstn MAX_TYPES (s_ignore (st w))));
    cbn [orb].
  { inversion Hrun. auto. }
  destruct (negb (s_ignore_zero (st w) =? 0) && (fp_plen fplen =? 0)).
  { inversion Hrun. auto. }
  apply bind_ok in Hrun. destruct Hrun as (clock & w1 & Hr & Hrun).
  apply read_le32_ok in Hr. destruct Hr as [Hclock ->].
  apply bind_ok in Hrun. destruct Hrun as (chan & w1 & Hr & Hrun).
  apply read_byte_ok in Hr. destruct Hr as [Hchan ->].
  apply bind_ok in Hrun. destruct Hrun as ([] & w1 & Hput & Hrun).
  inversion Hput; subst w1; clear Hput.
  apply bind_ok in Hrun. destruct Hrun as ([] & w1 & Hpr & Hrun).
  inversion Hpr; subst w1; clear Hpr. cbn [st console dumpfile] in Hrun.
  apply bind_ok in Hrun. destruct Hrun as ([] & w1 & Has & Hrun).
  apply assert_ok in Has. destruct Has as [Ha1 ->].
  apply bind_ok in Hrun. destruct Hrun as ([] & w1 & Has & Hrun).
  apply assert_ok in Has. destruct Has as [Ha2 ->].
  apply bind_ok in Hrun. destruct Hrun as ([] & w2 & Hpay & Hrun).
  apply bind_ok in Hrun. destruct Hrun as ([] & w3 & Has & Hrun).
  apply assert_ok in Has. destruct Has as [Ha3 ->].
  apply Z.leb_le in Ha1, Ha2, Ha3.
  match type of Hpay with
  | _ ?w0 = _ => set (w1 := w0) in *
  end.
  assert (Hp : s_ignore (st w2) = s_ignore (st w1) /\
               s_ignore_zero (st w2) = s_ignore_zero (st w1) /\
               exists es, console w2 = console w1 ++ es /\ frames_of es = [] /\
                 dispatches es = (if fp_plen fplen =? 0 then 0%nat else 1%nat)).
  { destruct (fp_plen fplen =? 0); cbn [negb] in Hpay.
    - inversion Hpay. cbn [st console]. repeat split.
      eexists. split; [reflexivity|]. split; reflexivity.
    - apply bind_ok in Hpay. destruct Hpay as ([] & wp & Hsp & Hpay).
      inversion Hsp; subst wp; clear Hsp.
      destruct (respects_process_payload _ _ _ _ _ Hpay) as (Hi & Hz & es & Hc & Hf).
      cbn [st console] in Hi, Hz, Hc.
      split; [exact Hi|]. split; [exact Hz|].
      exists (OutText " " :: es). split.
      + rewrite Hc, <- app_assoc. reflexivity.
      + destruct (payload_events_quiet es Hf) as [Hq1 Hq2].
        split; [exact Hq1|]. unfold dispatches in *. simpl. rewrite Hq2. reflexivity. }
  destruct Hp as (Hi & Hz & es & Hc & Hfr & Hdi).
  assert (He : w' = w2 /\
               e = if len - hlen - fp_plen fplen =? 0 then FlDone
                   else FlMore (skipn (Z.to_nat (fp_plen fplen)) (skipn (Z.to_nat hlen) buf))
                               (len - hlen - fp_plen fplen)).
  { destruct (len - hlen - fp_plen fplen =? 0); inversion Hrun; split; reflexivity. }
  destruct He as [-> He].
  eexists. exists es.
  split; [|split; [|split; [|split; [|split; [|split; [|split; [|split; [|split; [|split]]]]]]]]].
  4:{ rewrite Hc. unfold w1. cbn [console]. rewrite <- app_assoc. reflexivity. }
  all: try reflexivity; try assumption.
Qed.

End Frontline.

(** ** The recursion of the frontline decoder *)



















Section FrontlineRuns.
Context {H : Header}.





End FrontlineRuns.

Definition is_byte (b : Z) : Prop := 0 <= b < 256.

(** The buffer behind a pointer holds bytes. *)
Definition bytes (buf : list Z) : Prop := Forall is_byte buf.

Lemma bytes_skipn (n : nat) (buf : list Z) : bytes buf -> bytes (skipn n buf).
Proof.
  revert buf; induction n as [|n IH]; intros buf Hb; [exact Hb|].
  destruct buf as [|b buf]; [constructor|]. simpl. apply IH.
  inversion Hb; assumption.
Qed.

Lemma byte_at_byte (buf : list Z) (off : nat) (v : Z) :
  bytes buf -> byte_at buf off = Some v -> is_byte v.
Proof.
  intros Hb Hv. unfold bytes in Hb. rewrite Forall_forall in Hb.
  apply Hb. apply (nth_error_In buf off Hv).
Qed.


Definition frames_len (frs : list frame_log) : Z :=
  fold_right (fun f acc => fl_hlen f + fl_plen f + acc) 0 frs.

Section Decomposition.
Context {H : Header}.
Context {HOk : HeaderOk H}.



End Decomposition.

(** ** The receive loop *)


Definition logged (w : World) (e : event) : World :=
  {| st := st w; console := console w ++ [e]; dumpfile := dumpfile w |}.

Section Receive.
Context {H : Header}.



Lemma process_bad_dlen (buf : list Z) (len : Z) (w : World) (dlen : Z) :
  byte_at buf 0 = Some HCI_ACLDATA_PKT ->
  le16_at (skipn 1 buf) 2 = Some dlen ->
  dlen <> (len - sizeof_hci_acl_hdr - 1) mod 2 ^ SIZE_T_BITS ->
  process buf len w = Abort AssertAclDlen w.
Proof.
  intros Ht Hd Hne. unfold process, bind, read_byte, read_le16.
  rewrite Ht. unfold ret. rewrite Z.eqb_refl. cbn [negb]. rewrite Hd.
  apply Z.eqb_neq in Hne. rewrite Hne. reflexivity.
Qed.




End Receive.

(** ** Two concatenated fragments *)

Lemma read_byte_some (buf : list Z) (off : nat) (v : Z) :
  byte_at buf off = Some v -> read_byte buf off = ret v.
Proof. intros E. unfold read_byte. rewrite E. reflexivity. Qed.

Lemma read_le16_some (buf : list Z) (off : nat) (v : Z) :
  le16_at buf off = Some v -> read_le16 buf off = ret v.
Proof. intros E. unfold read_le16. rewrite E. reflexivity. Qed.

Lemma read_le32_some (buf : list Z) (off : nat) (v : Z) :
  le32_at buf off = Some v -> read_le32 buf off = ret v.
Proof. intros E. unfold read_le32. rewrite E. reflexivity. Qed.

Lemma hexdump_ok (buf : list Z) (len : Z) (w : World) :
  0 <= len <= Z.of_nat (List.length buf) ->
  hexdump buf len w = Ok tt (logged w (OutHexdump (firstn (Z.to_nat len) buf))).
Proof.
  intros Hl. unfold hexdump.
  replace ((0 <=? len) && (len <=? Z.of_nat (List.length buf))) with true
    by (symmetry; apply andb_true_iff; split; apply Z.leb_le; lia).
  reflexivity.
Qed.

Section TwoFragments.
Context {H : Header}.

Lemma process_payload_returns (buf : list Z) (len : Z) (w : World) :
  2 <= len <= 17 -> len <= Z.of_nat (List.length buf) ->
  exists w', process_payload buf len w = Ok tt w'.
Proof.
  intros Hl Hb. unfold process_payload. unfold bind at 1. unfold get.
  destruct (s_type (st w) =? TYPE_DV).
  { unfold process_dv, bind, print. rewrite hexdump_ok by (cbn [st console]; lia).
    eexists. reflexivity. }
  destruct (s_llid (st w) =? LLID_LMP).
  - destruct buf as [|b0 [|b1 rest]]; simpl List.length in Hb; try lia.
    destruct (process_lmp_cases w b0 b1 rest len) as [[_ Hok]|[Hno _]];
      [lia | exact Hb | exact Hok |].
    exfalso. apply Hno. split; lia.
  - unfold process_l2cap. unfold bind at 1. unfold print at 1.
    unfold bind at 1. rewrite hexdump_ok by lia.
    unfold bind at 1. unfold get. cbn [logged st].
    destruct (s_dump (st w) =? -1); eexists; reflexivity.
Qed.

(** A fragment header that [process_frontline] can read at [buf]. *)
Definition fragment_at (buf : list Z) (hlen type plen : Z) : Prop :=
  exists hdr0 fplen clock chan,
    byte_at buf OFF_fp_hdr0 = Some hdr0 /\
    le16_at buf OFF_fp_len = Some fplen /\
    byte_at buf OFF_fp_hlen = Some hlen /\
    le32_at buf OFF_fp_clock = Some clock /\
    byte_at buf OFF_fp_chan = Some chan /\
    fp_type hdr0 = type /\ fp_plen fplen = plen.

Lemma frontline_step_returns (buf : list Z) (len : Z) (w : World) (hlen type plen : Z) :
  fragment_at buf hlen type plen ->
  hlen = HLEN_BC2 \/ hlen = HLEN_BC4 ->
  (filtered (st w) type plen = false ->
   0 <= len - hlen /\ plen <= len - hlen /\
   (plen <> 0 -> forall w1, exists w2,
       process_payload (skipn (Z.to_nat hlen) buf) plen w1 = Ok tt w2)) ->
  exists e w', frontline_step buf len w = Ok e w'.
Proof.
  intros (hdr0 & fplen & clock & chan & H0 & Hl & Hh & Hc & Hch & Ht & Hp) Hk Hrun.
  unfold frontline_step.
  rewrite (read_byte_some _ _ _ H0), (read_le16_some _ _ _ Hl),
    (read_byte_some _ _ _ Hh), (read_le32_some _ _ _ Hc),
    (read_byte_some _ _ _ Hch).
  cbn [bind ret get].
  replace ((hlen =? HLEN_BC2) || (hlen =? HLEN_BC4)) with true
    by (symmetry; apply orb_true_iff; rewrite !Z.eqb_eq; exact Hk).
  cbn [bind ret get].
  fold (fp_type hdr0). fold (fp_plen fplen). rewrite Ht, Hp.
  unfold filtered in Hrun.
  destruct (existsb (fun x => x =? type) (firstn MAX_TYPES (s_ignore (st w)))).
  { eexists. eexists. reflexivity. }
  destruct (negb (s_ignore_zero (st w) =? 0) && (plen =? 0)).
  { eexists. eexists. reflexivity. }
  destruct (Hrun eq_refl) as (Ha1 & Ha2 & Hpay).
  assert (Hrem : (0 <=? len - hlen - plen) = true) by (apply Z.leb_le; lia).
  replace (0 <=? len - hlen) with true by (symmetry; apply Z.leb_le; lia).
  replace (plen <=? len - hlen) with true by (symmetry; apply Z.leb_le; lia).
  rewrite Hrem.
  cbn [bind ret get put print assert st console dumpfile].
  destruct (plen =? 0) eqn:Ez; cbn [negb bind print].
  - cbn [bind ret].
    destruct (negb (len - hlen - plen =? 0)); eexists; eexists; reflexivity.
  - apply Z.eqb_neq in Ez.
    match goal with
    | |- exists e w', ?m ?w0 = Ok e w' => set (wz := w0)
    end.
    destruct (Hpay Ez (logged wz (OutText " "))) as (w2 & Hw2).
    assert (Hpp : (print (OutText " ") ;;;
                   process_payload (skipn (Z.to_nat hlen) buf) plen) wz = Ok tt w2)
      by exact Hw2.
    rewrite (bind_run _ _ _ _ _ Hpp).
    cbn [bind ret].
    destruct (negb (len - hlen - plen =? 0)); eexists; eexists; reflexivity.
Qed.

End TwoFragments.

Section TwoFragmentsRun.
Context {H : Header}.

(** One invocation on a readable fragment whose payload decoder
    returns. *)
Lemma frontline_step_fragment (buf : list Z) (len : Z) (w : World) (hlen type plen : Z) :
  fragment_at buf hlen type plen ->
  hlen = HLEN_BC2 \/ hlen = HLEN_BC4 ->
  (filtered (st w) type plen = false ->
   0 <= len - hlen /\ plen <= len - hlen /\
   (plen <> 0 -> forall w1, exists w2,
       process_payload (skipn (Z.to_nat hlen) buf) plen w1 = Ok tt w2)) ->
  exists e w', frontline_step buf len w = Ok e w' /\
    if filtered (st w) type plen
    then e = FlSkipped /\ w' = w
    else
      exists fr es,
        console w' = console w ++ OutFrame fr :: es /\
        frames_of es = [] /\
        dispatches es = (if plen =? 0 then 0%nat else 1%nat) /\
        s_ignore (st w') = s_ignore (st w) /\
        s_ignore_zero (st w') = s_ignore_zero (st w) /\
        e = if len - hlen - plen =? 0 then FlDone
            else FlMore (skipn (Z.to_nat plen) (skipn (Z.to_nat hlen) buf))
                        (len - hlen - plen).
Proof.
  intros Hfrag Hk Hrun.
  destruct (frontline_step_returns buf len w hlen type plen Hfrag Hk Hrun)
    as (e & w' & Hs).
  exists e, w'. split; [exact Hs|].
  destruct Hfrag as (hdr0 & fplen & clock & chan & H0 & Hl & Hh & _ & _ & Ht & Hp).
  destruct (frontline_step_ok _ _ _ _ _ Hs)
    as (hdr0' & fplen' & hlen' & H0' & Hl' & Hh' & _ & Hrest).
  rewrite H0 in H0'. rewrite Hl in Hl'. rewrite Hh in Hh'.
  assert (E0 : hdr0' = hdr0) by congruence.
  assert (E1 : fplen' = fplen) by congruence.
  assert (E2 : hlen' = hlen) by congruence.
  subst hdr0' fplen' hlen'. rewrite Ht, Hp in Hrest.
  destruct (filtered (st w) type plen); [exact Hrest|].
  destruct Hrest as (fr & es & _ & _ & _ & Hc & Hf & Hd & Hi & Hz & _ & _ & He).
  exists fr, es. repeat (split; [assumption|]). exact He.
Qed.

Lemma fragment_at_nonempty (buf : list Z) (hlen type plen : Z) :
  fragment_at buf hlen type plen -> (0 < List.length buf)%nat.
Proof.
  intros (hdr0 & _ & _ & _ & H0 & _). unfold byte_at in H0.
  destruct buf; [destruct OFF_fp_hdr0; discriminate | simpl; lia].
Qed.

(** C2 (as the code has it). Two concatenated fragments with
    hlen = HLEN_BC4 and a type that is not in the ignore list, the
    first with plen = 4, the second with plen = 0: the decoder makes
    two invocations and one payload dispatch; with the zero-length
    filter off it logs two frames, with the filter on the second
    fragment is skipped before its summary is printed and one frame is
    logged. *)
Theorem two_fragments_frames_and_dispatch (HOk : HeaderOk H)
    (w : World) (buf : list Z)
    (Hfirst : fragment_at buf HLEN_BC4 0 4)
    (Hsecond : fragment_at (skipn 4 (skipn (Z.to_nat HLEN_BC4) buf)) HLEN_BC4 0 0)
    (Hign : existsb (fun x => x =? 0) (firstn MAX_TYPES (s_ignore (st w))) = false) :
  exists w' es,
    process_frontline buf (HLEN_BC4 + 4 + HLEN_BC4) w =
      Ok (2%nat, negb (s_ignore_zero (st w) =? 0)) w' /\
    console w' = console w ++ es /\
    dispatches es = 1%nat /\
    List.length (frames_of es) = if s_ignore_zero (st w) =? 0 then 2%nat else 1%nat.
Proof.
  pose proof hlen_bc4_pos as Hpos.
  set (start := skipn (Z.to_nat HLEN_BC4) buf) in *.
  set (tail := skipn 4 start) in *.
  assert (Hstart : 4 <= Z.of_nat (List.length start)).
  { pose proof (fragment_at_nonempty _ _ _ _ Hsecond) as Hne.
    unfold tail in Hne. rewrite length_skipn in Hne. lia. }
  (* first invocation *)
  destruct (frontline_step_fragment buf (HLEN_BC4 + 4 + HLEN_BC4) w HLEN_BC4 0 4
              Hfirst (or_intror eq_refl)) as (e1 & w1 & Hs1 & Hr1).
  { intros _. split; [lia|]. split; [lia|]. intros _ w0.
    apply process_payload_returns; [lia | exact Hstart]. }
  assert (Hf1 : filtered (st w) 0 4 = false).
  { unfold filtered. rewrite Hign. change (4 =? 0) with false.
    rewrite andb_false_r. reflexivity. }
  rewrite Hf1 in Hr1.
  destruct Hr1 as (fr1 & es1 & Hc1 & Hfr1 & Hd1 & Hi1 & Hz1 & He1).
  change (4 =? 0) with false in Hd1.
  replace (HLEN_BC4 + 4 + HLEN_BC4 - HLEN_BC4 - 4) with HLEN_BC4 in He1 by lia.
  replace (HLEN_BC4 =? 0) with false in He1 by (symmetry; apply Z.eqb_neq; lia).
  change (skipn (Z.to_nat 4) (skipn (Z.to_nat HLEN_BC4) buf)) with tail in He1.
  (* second invocation *)
  destruct (frontline_step_fragment tail HLEN_BC4 w1 HLEN_BC4 0 0
              Hsecond (or_intror eq_refl)) as (e2 & w2 & Hs2 & Hr2).
  { intros _. split; [lia|]. split; [lia|]. intros Hne. contradiction Hne. reflexivity. }
  assert (Hf2 : filtered (st w1) 0 0 = negb (s_ignore_zero (st w) =? 0)).
  { unfold filtered. rewrite Hi1, Hz1, Hign. change (0 =? 0) with true.
    rewrite andb_true_r. reflexivity. }
  rewrite Hf2 in Hr2.
  (* the recursion *)
  assert (Hrun : process_frontline buf (HLEN_BC4 + 4 + HLEN_BC4) w =
                 match e2 with
                 | FlMore b l => OutOfFuel
                 | FlDone => Ok (2%nat, false) w2
                 | FlSkipped => Ok (2%nat, true) w2
                 end \/ exists b l, e2 = FlMore b l).
  { unfold process_frontline.
    destruct (Z.to_nat (HLEN_BC4 + 4 + HLEN_BC4)) as [|k] eqn:Ek; [lia|].
    cbn [process_frontline_fuel].
    rewrite (bind_run _ _ _ _ _ Hs1). rewrite He1.
    destruct e2; [left | left | right; eauto].
    - unfold bind at 1. unfold bind at 1. rewrite Hs2. reflexivity.
    - unfold bind at 1. unfold bind at 1. rewrite Hs2. reflexivity. }
  destruct (s_ignore_zero (st w) =? 0) eqn:Ez; cbn [negb] in *.
  - destruct Hr2 as (fr2 & es2 & Hc2 & Hfr2 & Hd2 & _ & _ & He2).
    replace (HLEN_BC4 - HLEN_BC4 - 0) with 0 in He2 by lia.
    change (0 =? 0) with true in He2, Hd2. subst e2.
    destruct Hrun as [Hrun|(b & l & Hb)]; [|discriminate].
    exists w2, (OutFrame fr1 :: es1 ++ OutFrame fr2 :: es2).
    split; [exact Hrun|]. split.
    { rewrite Hc2, Hc1, <- app_assoc. reflexivity. }
    split.
    + change (OutFrame fr1 :: es1 ++ OutFrame fr2 :: es2)
        with ([OutFrame fr1] ++ es1 ++ [OutFrame fr2] ++ es2).
      rewrite !dispatches_app, Hd1, Hd2. reflexivity.
    + change (OutFrame fr1 :: es1 ++ OutFrame fr2 :: es2)
        with ([OutFrame fr1] ++ es1 ++ [OutFrame fr2] ++ es2).
      rewrite !frames_of_app, Hfr1, Hfr2. reflexivity.
  - destruct Hr2 as [-> ->].
    destruct Hrun as [Hrun|(b & l & Hb)]; [|discriminate].
    exists w1, (OutFrame fr1 :: es1).
    split; [exact Hrun|]. split; [exact Hc1|]. split.
    + change (OutFrame fr1 :: es1) with ([OutFrame fr1] ++ es1).
      rewrite dispatches_app, Hd1. reflexivity.
    + change (OutFrame fr1 :: es1) with ([OutFrame fr1] ++ es1).
      rewrite frames_of_app, Hfr1. reflexivity.
Qed.

End TwoFragmentsRun.

(** ** Streams that the decoder reads to their end *)

Section CoveredStreams.
Context {H : Header}.
Context {HOk : HeaderOk H}.







End CoveredStreams.

(** ** The timer command *)

Section Timer.
Context {H : Header}.

Lemma dbg_packet_bytes_timer :
  dbg_packet_bytes {| dp_type := CMD_TIMER; dp_rest := dp_rest dbg_packet_zero |} =
  CMD_TIMER mod 256 :: repeat 0 DP_REST.
Proof.
  unfold dbg_packet_bytes, dbg_packet_zero. cbn [dp_type dp_rest].
  rewrite firstn_app, repeat_length, Nat.sub_diag. cbn [firstn].
  rewrite app_nil_r, firstn_all2 by (rewrite repeat_length; lia).
  reflexivity.
Qed.

Lemma send_debug_timer (rplen : Z) :
  (DP_REST <= 252)%nat ->
  send_debug {| dp_type := CMD_TIMER; dp_rest := dp_rest dbg_packet_zero |} rplen =
  Some {| rq_ogf := OGF_VENDOR_CMD; rq_ocf := 0; rq_event := EVT_VENDOR;
          rq_cparam := Z.lor (Z.lor FRAG_FIRST FRAG_LAST) CHAN_DEBUG mod 256
                       :: CMD_TIMER mod 256 :: repeat 0 DP_REST;
          rq_rlen := rplen |}.
Proof.
  intros Hfit. unfold send_debug. rewrite dbg_packet_bytes_timer.
  cbn [List.length]. rewrite repeat_length.
  replace (1 + S DP_REST <=? 254)%nat with true
    by (symmetry; apply Nat.leb_le; lia).
  set (prefix := Z.lor (Z.lor FRAG_FIRST FRAG_LAST) CHAN_DEBUG mod 256).
  change (set_nth (repeat 0 254) 0 prefix) with (prefix :: repeat 0 253).
  cbn [firstn skipn app]. unfold overwrite.
  set (pkt := CMD_TIMER mod 256 :: repeat 0 DP_REST).
  assert (Hl : List.length pkt = S DP_REST).
  { unfold pkt. cbn [List.length]. rewrite repeat_length. reflexivity. }
  rewrite (firstn_all2 (n := S DP_REST) pkt) by lia.
  change (1 + S DP_REST)%nat with (S (S DP_REST)).
  clearbody pkt. rewrite firstn_cons, firstn_app, Hl, Nat.sub_diag.
  rewrite firstn_O, app_nil_r, firstn_all2 by lia.
  reflexivity.
Qed.

(** C7. [basesniff_get_timer] sends the prefix byte
    FRAG_FIRST|FRAG_LAST|CHAN_DEBUG (0x07 when the macros are what the
    spec says), then the debug packet: CMD_TIMER and a payload of
    zeros; and it returns the 32-bit little-endian integer at offset 2
    of the reply: 0x12345678 for 00 00 78 56 34 12. *)
Theorem get_timer_request_and_clock (Hfit : (DP_REST <= 252)%nat)
    (b0 b1 b2 b3 b4 b5 : Z) (rest : list Z) :
  exists rq,
    basesniff_get_timer (b0 :: b1 :: b2 :: b3 :: b4 :: b5 :: rest) =
      Some (rq, as_int (b2 + 256 * b3 + 65536 * (b4 + 256 * b5))) /\
    rq_cparam rq = Z.lor (Z.lor FRAG_FIRST FRAG_LAST) CHAN_DEBUG mod 256
                   :: CMD_TIMER mod 256 :: repeat 0 DP_REST /\
    (Z.lor (Z.lor FRAG_FIRST FRAG_LAST) CHAN_DEBUG = 7 -> hd 0 (rq_cparam rq) = 7) /\
    (b2 = 120 -> b3 = 86 -> b4 = 52 -> b5 = 18 ->
     as_int (b2 + 256 * b3 + 65536 * (b4 + 256 * b5)) = 305419896).
Proof.
  eexists. split; [|split; [|split]].
  - unfold basesniff_get_timer. rewrite (send_debug_timer 254 Hfit).
    unfold overwrite. cbn [List.length Nat.min firstn app].
    unfold le32_at, le16_at, byte_at. cbn [Nat.add nth_error]. reflexivity.
  - reflexivity.
  - intros Hp. cbn [rq_cparam hd]. rewrite Hp. reflexivity.
  - intros -> -> -> ->. reflexivity.
Qed.

End Timer.

(** C7, witness: the reply 00 00 78 56 34 12 on the sample header. *)
Lemma get_timer_request_and_clock_witness :
  exists rq,
    basesniff_get_timer (H := sample_header) [0; 0; 120; 86; 52; 18] =
      Some (rq, as_int (120 + 256 * 86 + 65536 * (52 + 256 * 18))) /\
    rq_cparam rq = 7 :: 0 :: repeat 0 22 /\
    hd 0 (rq_cparam rq) = 7 /\
    as_int (120 + 256 * 86 + 65536 * (52 + 256 * 18)) = 305419896.
Proof.
  assert (Hfit : (@DP_REST sample_header <= 252)%nat) by (vm_compute; lia).
  destruct (get_timer_request_and_clock (H := sample_header) Hfit 0 0 120 86 52 18 [])
    as (rq & Hrun & Hcp & Hpre & Hval).
  exists rq. split; [exact Hrun|]. split; [exact Hcp|].
  split; [apply Hpre; reflexivity | apply Hval; reflexivity].
Defined.

(** ** Runs on the sample header *)

Lemma sample_header_ok : HeaderOk sample_header.
Proof.
  split.
  - repeat constructor; simpl; intuition discriminate.
  - reflexivity.
  - reflexivity.
Qed.

(** A master fragment with a 4-byte L2CAP payload, then an empty slave
    fragment; both have hlen = HLEN_BC4 = 15 and type 0. *)
Definition frag_payload4 : list Z := [15; 0; 0; 0; 0; 0; 34; 0; 0; 0; 0; 0; 7; 0; 0].
Definition frag_empty : list Z := [15; 2; 0; 0; 0; 0; 0; 0; 0; 0; 0; 0; 7; 0; 0].
Definition two_frags : list Z := frag_payload4 ++ [1; 2; 3; 4] ++ frag_empty.

Definition zero_filter_state : PyState :=
  {| s_buf := s_buf idle_state; s_len := 0;
     s_dump := -1; s_ignore := repeat (-1) 4; s_ignore_zero := 1;
     s_llid := 0; s_master := false; s_type := 0;
     s_pin := 1; s_pin_master := false;
     s_pin_data := s_pin_data idle_state |}.

Definition zero_filter_world : World :=
  {| st := zero_filter_state; console := []; dumpfile := [] |}.

Example two_frags_filter_off :
  exists w', process_frontline (H := sample_header) two_frags 34 idle_world =
               Ok (2%nat, false) w' /\
             List.length (frames_of (console w')) = 2%nat /\
             dispatches (console w') = 1%nat.
Proof. eexists. repeat split; vm_compute; reflexivity. Qed.

Example two_frags_filter_on :
  exists w', process_frontline (H := sample_header) two_frags 34 zero_filter_world =
               Ok (2%nat, true) w' /\
             List.length (frames_of (console w')) = 1%nat /\
             dispatches (console w') = 1%nat.
Proof. eexists. repeat split; vm_compute; reflexivity. Qed.

Section AsStatedFrontline.
Context {H : Header}.

(** C2 as the spec words it: two log frames, and one payload dispatch
    when the zero-length filter is on. *)
Definition two_frames_as_stated (w : World) (buf : list Z) (len : Z) : Prop :=
  exists r w',
    process_frontline buf len w = Ok r w' /\
    List.length (frames_of (console w')) = 2%nat /\
    (s_ignore_zero (st w) <> 0 -> dispatches (console w') = 1%nat).

End AsStatedFrontline.

(** C2, counterexample: with the zero-length filter on, the empty
    second fragment is skipped before its summary is printed: one log
    frame, not two. *)
Lemma two_frames_counterexample :
  ~ two_frames_as_stated (H := sample_header) zero_filter_world two_frags 34.
Proof.
  intros (r & w' & Hrun & Hf & _).
  vm_compute in Hrun. inversion Hrun; subst w'; clear Hrun.
  vm_compute in Hf. discriminate Hf.
Qed.

Lemma two_frags_first :
  fragment_at (H := sample_header) two_frags 15 0 4.
Proof. exists 0, 34, 0, 7. repeat split; reflexivity. Qed.

Lemma two_frags_second :
  fragment_at (H := sample_header) (skipn 4 (skipn (Z.to_nat 15) two_frags)) 15 0 0.
Proof. exists 0, 0, 2, 7. repeat split; reflexivity. Qed.

(** C2, witness: the two fragments above with the filter on. *)
Lemma two_fragments_frames_and_dispatch_witness :
  exists w' es,
    process_frontline (H := sample_header) two_frags (15 + 4 + 15) zero_filter_world =
      Ok (2%nat, negb (s_ignore_zero (st zero_filter_world) =? 0)) w' /\
    console w' = console zero_filter_world ++ es /\
    dispatches es = 1%nat /\
    List.length (frames_of es) =
      if s_ignore_zero (st zero_filter_world) =? 0 then 2%nat else 1%nat.
Proof.
  apply (two_fragments_frames_and_dispatch (H := sample_header) sample_header_ok
           zero_filter_world two_frags two_frags_first two_frags_second).
  reflexivity.
Defined.




(** A fragment with link id LMP and one payload byte, F8: the escape
    opcode 124 without the extended opcode that has to follow it. *)
Definition frag_lmp1 : list Z := [15; 0; 0; 0; 0; 0; 11; 0; 0; 0; 0; 0; 7; 0; 0].
Definition lmp_short : list Z := frag_lmp1 ++ [248] ++ frag_empty.


Example lmp_short_aborts :
  exists w', process_frontline (H := sample_header) lmp_short 31 idle_world =
               Abort AssertLmpLen w' /\
             List.length (frames_of (console w')) = 1%nat /\
             frames_len (frames_of (console w')) = 16.
Proof. eexists. split; [vm_compute; reflexivity|]. split; vm_compute; reflexivity. Qed.



Definition dumping_state : PyState :=
  {| s_buf := s_buf idle_state; s_len := 0;
     s_dump := 3; s_ignore := repeat (-1) 4; s_ignore_zero := 0;
     s_llid := 3; s_master := true; s_type := 0;
     s_pin := 0; s_pin_master := false;
     s_pin_data := s_pin_data idle_state |}.

Definition dumping_world : World :=
  {| st := dumping_state; console := []; dumpfile := [] |}.

Definition body17 : list Z := [2; 1; 2; 3; 4; 5; 6; 7; 8; 9; 10; 11; 12; 13; 14; 15; 16].

(** C6, witness: a 17-byte body sent by the master. *)
Lemma lmp_dump_record_first_witness :
  dump_of (process_lmp (H := sample_header) body17 17 dumping_world) =
  Some [ WDumpHdr {| dh_len := 23; dh_in := 1; dh_ts_sec := 0; dh_ts_usec := 0 |};
         WBytes [4]; WBytes [255; 20];
         WBytes ([20; 16] ++ body17 ++ [0]) ].
Proof.
  assert (Hdump : s_dump (st dumping_world) <> -1) by discriminate.
  assert (Hlen : 0 <= 17 <= 17) by lia.
  assert (Hbuf : 17 <= Z.of_nat (List.length body17)) by (vm_compute; discriminate).
  destruct (dump_of (process_lmp (H := sample_header) body17 17 dumping_world))
    as [d|] eqn:E.
  - f_equal.
    exact (proj1 (proj2 (lmp_dump_record_first (H := sample_header) dumping_world
                           body17 17 Hdump Hlen Hbuf)) d E).
  - vm_compute in E. discriminate E.
Defined.

(** C10, witness: the extended opcode body F8 03 AA BB. *)
Lemma process_lmp_total_iff_witness :
  exists w', process_lmp (H := sample_header) [248; 3; 170; 187] 4 idle_world = Ok tt w'.
Proof.
  assert (Hlen : 0 <= 4 <= 17) by lia.
  assert (Hbuf : 4 <= Z.of_nat (List.length [248; 3; 170; 187])) by (vm_compute; discriminate).
  apply (proj1 (proj1 (process_lmp_total_iff (H := sample_header) idle_world
                         248 3 [170; 187] 4 Hlen Hbuf))).
  split; [lia|]. intros _. lia.
Defined.

(** Scenario S4: tid 0, op1 124, op2 3, body AA BB. *)
Example lmp_extended_opcode :
  exists w', process_lmp (H := sample_header) [248; 3; 170; 187] 4 idle_world = Ok tt w' /\
             console w' = [OutLmp 0 124; OutOp2 3; OutText ": "; OutHexdump [170; 187]].
Proof. eexists. split; vm_compute; reflexivity. Qed.

(** * Further properties of the module *)

(** ** The L2CAP dump record *)

Lemma acl_handle_pack_zero (f : Z) :
  0 <= f < 16 -> acl_handle_pack 0 f = 4096 * f.
Proof.
  intros Hf. unfold acl_handle_pack.
  rewrite Z.land_0_l, Z.lor_0_l, Z.shiftl_mul_pow2 by lia.
  change (2 ^ 12) with 4096. rewrite Z.mod_small by lia. lia.
Qed.

(** X1. [process_l2cap] on [len] readable bytes always returns with the
    session state untouched, prints the hexdump, and writes nothing
    when the dump is off; with the dump on it appends exactly the
    header with in = 1 and the 16-bit length (1 + 4 + len) mod 65536,
    the byte HCI_ACLDATA_PKT, the ACL header and the payload.  The
    header length is 1 + 4 + len for payloads below 65531 bytes and
    wraps to len - 65531 from there on.  For an LLID below 16 the ACL
    header bytes are 00, 16 * llid, then dlen in little endian: the
    handle is 0, the flags are the LLID, and a length below 65536 reads
    back unchanged. *)
Theorem l2cap_dump_record (w : World) (buf : list Z) (len : Z)
    (Hlen : 0 <= len <= Z.of_nat (List.length buf)) :
  let body := firstn (Z.to_nat len) buf in
  let acl := le16_bytes (acl_handle_pack 0 (s_llid (st w))) ++ le16_bytes len in
  process_l2cap buf len w =
    Ok tt {| st := st w;
             console := console w ++ [OutText "L2CAP: "; OutHexdump body];
             dumpfile :=
               dumpfile w ++
               (if s_dump (st w) =? -1 then []
                else [ WDumpHdr {| dh_len := (1 + 4 + len) mod 65536; dh_in := 1;
                                   dh_ts_sec := 0; dh_ts_usec := 0 |};
                       WBytes [2]; WBytes acl; WBytes body ]) |} /\
  (len < 65531 -> (1 + 4 + len) mod 65536 = 1 + 4 + len) /\
  (65531 <= len < 131067 -> (1 + 4 + len) mod 65536 = len - 65531) /\
  (0 <= s_llid (st w) < 16 -> len < 65536 ->
   exists d0 d1,
     acl = [0; 16 * s_llid (st w); d0; d1] /\ d0 + 256 * d1 = len /\
     Z.land (acl_handle_pack 0 (s_llid (st w))) 4095 = 0 /\
     Z.shiftr (acl_handle_pack 0 (s_llid (st w))) 12 = s_llid (st w)).
Proof.
  intros body acl. split; [|split; [|split]].
  - unfold process_l2cap. unfold bind at 1. unfold print at 1.
    unfold bind at 1. rewrite hexdump_ok by (cbn [st console]; lia).
    unfold bind at 1. unfold get. unfold logged. cbn [st console dumpfile].
    destruct (s_dump (st w) =? -1).
    + unfold ret. rewrite app_nil_r, <- app_assoc. reflexivity.
    + unfold bind, write. cbn [st console dumpfile].
      rewrite <- !app_assoc. reflexivity.
  - intros Hs. apply Z.mod_small. lia.
  - intros Hs. symmetry. apply (Z.mod_unique _ _ 1); lia.
  - intros Hl Hn. unfold acl.
    rewrite (acl_handle_pack_zero _ Hl).
    exists (len mod 256), ((len / 256) mod 256).
    split; [|split; [|split]].
    + unfold le16_bytes. cbn [app]. f_equal.
      * replace (4096 * s_llid (st w)) with (16 * s_llid (st w) * 256) by lia.
        apply Z.mod_mul. lia.
      * f_equal.
        replace (4096 * s_llid (st w)) with (16 * s_llid (st w) * 256) by lia.
        rewrite Z.div_mul by lia. apply Z.mod_small. lia.
    + rewrite (Z.mod_small (len / 256)).
      * pose proof (Z.div_mod len 256). lia.
      * split; [apply Z.div_pos; lia | apply Z.div_lt_upper_bound; lia].
    + change 4095 with (Z.ones 12). rewrite Z.land_ones by lia.
      change (2 ^ 12) with 4096.
      replace (4096 * s_llid (st w)) with (s_llid (st w) * 4096) by lia.
      apply Z.mod_mul. lia.
    + rewrite Z.shiftr_div_pow2 by lia. change (2 ^ 12) with 4096.
      replace (4096 * s_llid (st w)) with (s_llid (st w) * 4096) by lia.
      apply Z.div_mul. lia.
Qed.

Definition l2cap_world : World :=
  {| st := {| s_buf := s_buf idle_state; s_len := 0;
              s_dump := 3; s_ignore := repeat (-1) 4; s_ignore_zero := 0;
              s_llid := 2; s_master := true; s_type := 0;
              s_pin := 0; s_pin_master := false;
              s_pin_data := s_pin_data idle_state |};
     console := []; dumpfile := [] |}.

Lemma l2cap_dump_record_witness :
  process_l2cap [1; 2; 3; 4] 4 l2cap_world =
  Ok tt {| st := st l2cap_world;
           console := [OutText "L2CAP: "; OutHexdump [1; 2; 3; 4]];
           dumpfile := [ WDumpHdr {| dh_len := 9; dh_in := 1;
                                     dh_ts_sec := 0; dh_ts_usec := 0 |};
                         WBytes [2]; WBytes [0; 32; 4; 0]; WBytes [1; 2; 3; 4] ] |}.
Proof.
  assert (Hlen : 0 <= 4 <= Z.of_nat (List.length [1; 2; 3; 4])) by (simpl; lia).
  exact (proj1 (l2cap_dump_record l2cap_world [1; 2; 3; 4] 4 Hlen)).
Defined.

(** ** The vendor command frame *)

Section CommandFrame.
Context {H : Header}.

Lemma dbg_packet_bytes_length (dp : dbg_packet) :
  List.length (dbg_packet_bytes dp) = S DP_REST.
Proof.
  unfold dbg_packet_bytes. cbn [List.length]. f_equal.
  rewrite length_firstn, length_app, repeat_length. lia.
Qed.

Lemma send_debug_some (dp : dbg_packet) (rplen : Z) :
  (DP_REST <= 252)%nat ->
  send_debug dp rplen =
    Some {| rq_ogf := OGF_VENDOR_CMD; rq_ocf := 0; rq_event := EVT_VENDOR;
            rq_cparam := Z.lor (Z.lor FRAG_FIRST FRAG_LAST) CHAN_DEBUG mod 256
                         :: dbg_packet_bytes dp;
            rq_rlen := rplen |}.
Proof.
  intros Hfit. pose proof (dbg_packet_bytes_length dp) as Hl.
  unfold send_debug. rewrite Hl.
  replace (1 + S DP_REST <=? 254)%nat with true
    by (symmetry; apply Nat.leb_le; lia).
  set (prefix := Z.lor (Z.lor FRAG_FIRST FRAG_LAST) CHAN_DEBUG mod 256).
  change (set_nth (repeat 0 254) 0 prefix) with (prefix :: repeat 0 253).
  cbn [firstn skipn app]. unfold overwrite.
  set (pkt := dbg_packet_bytes dp) in *. clearbody pkt.
  rewrite (firstn_all2 (n := S DP_REST) pkt) by lia.
  change (1 + S DP_REST)%nat with (S (S DP_REST)).
  rewrite firstn_cons, firstn_app, Hl, Nat.sub_diag.
  rewrite firstn_O, app_nil_r, firstn_all2 by lia.
  reflexivity.
Qed.

(** X2. Whatever the debug packet, [send_debug] fits it into the
    command buffer exactly when the packet has at most 253 bytes; the
    command parameters are then the prefix byte followed by the packet
    (at most 254 bytes in all), addressed to OGF_VENDOR_CMD with OCF 0
    and answered by EVT_VENDOR; a larger packet would run over the
    buffer. *)
Theorem send_debug_frame (dp : dbg_packet) (rplen : Z) :
  ((DP_REST <= 252)%nat ->
   send_debug dp rplen =
     Some {| rq_ogf := OGF_VENDOR_CMD; rq_ocf := 0; rq_event := EVT_VENDOR;
             rq_cparam := Z.lor (Z.lor FRAG_FIRST FRAG_LAST) CHAN_DEBUG mod 256
                          :: dbg_packet_bytes dp;
             rq_rlen := rplen |} /\
   (List.length (dbg_packet_bytes dp) < 254)%nat) /\
  ((252 < DP_REST)%nat -> send_debug dp rplen = None).
Proof.
  pose proof (dbg_packet_bytes_length dp) as Hl.
  split; intros Hfit.
  - split; [apply send_debug_some; exact Hfit | lia].
  - unfold send_debug. rewrite Hl.
    replace (1 + S DP_REST <=? 254)%nat with false
      by (symmetry; apply Nat.leb_gt; lia).
    reflexivity.
Qed.

End CommandFrame.

Lemma send_debug_frame_witness :
  send_debug (H := sample_header) {| dp_type := 300; dp_rest := [9] |} 254 =
  Some {| rq_ogf := 63; rq_ocf := 0; rq_event := 255;
          rq_cparam := 7 :: 44 :: 9 :: repeat 0 21; rq_rlen := 254 |}.
Proof.
  assert (Hfit : (@DP_REST sample_header <= 252)%nat) by (vm_compute; lia).
  exact (proj1 (proj1 (send_debug_frame (H := sample_header)
                         {| dp_type := 300; dp_rest := [9] |} 254) Hfit)).
Defined.

(** ** The timer value for any reply *)

Lemma nth_overwrite_zeros (src : list Z) (n k j : nat) :
  (n <= List.length src)%nat -> (n <= k)%nat ->
  nth j (overwrite (repeat 0 k) src n) 0 = if (j <? n)%nat then nth j src 0 else 0.
Proof.
  intros Hn Hk. rewrite nth_overwrite by exact Hn.
  destruct (j <? n)%nat; [reflexivity|]. apply nth_repeat.
Qed.

Lemma reply_byte_at (reply : list Z) (j : nat) :
  (j < 254)%nat ->
  byte_at (overwrite (repeat 0 254) reply (Nat.min (List.length reply) 254)) j =
  Some (nth j reply 0).
Proof.
  intros Hj. unfold byte_at.
  set (n := Nat.min (List.length reply) 254).
  assert (Hl : List.length (overwrite (repeat 0 254) reply n) = 254%nat).
  { rewrite overwrite_length; [apply repeat_length | unfold n; lia |
      rewrite repeat_length; unfold n; lia]. }
  rewrite (nth_error_nth' _ 0) by (rewrite Hl; exact Hj).
  f_equal. rewrite nth_overwrite_zeros by (unfold n; lia).
  destruct (j <? n)%nat eqn:E; [reflexivity|].
  apply Nat.ltb_ge in E. symmetry. apply nth_overflow. unfold n in E. lia.
Qed.

Section TimerReply.
Context {H : Header}.

(** The [unsigned int] at offset 2 of a reply; bytes the reply does not
    have are the zeros of the cleared buffer. *)
Definition reply_clock (reply : list Z) : Z :=
  nth 2 reply 0 + 256 * nth 3 reply 0 +
  65536 * (nth 4 reply 0 + 256 * nth 5 reply 0).

(** X3. For every reply, however short, [basesniff_get_timer] returns
    the little-endian 32-bit value of reply bytes 2..5, missing bytes
    counting as zero; the value is handed to Python as a C int, so it
    lies in [-2^31, 2^31), agrees with the clock modulo 2^32, and is
    negative exactly when the top bit of byte 5 is set. *)
Theorem get_timer_any_reply (Hfit : (DP_REST <= 252)%nat) (reply : list Z)
    (Hbytes : bytes reply) :
  exists rq v,
    basesniff_get_timer reply = Some (rq, v) /\
    v = as_int (reply_clock reply) /\
    - 2 ^ 31 <= v < 2 ^ 31 /\
    v mod 2 ^ 32 = reply_clock reply /\
    (v < 0 <-> 128 <= nth 5 reply 0) /\
    (reply = [] -> v = 0).
Proof.
  assert (Hb : forall j, 0 <= nth j reply 0 < 256).
  { intros j. destruct (Nat.lt_ge_cases j (List.length reply)) as [Hj|Hj].
    - unfold bytes in Hbytes. rewrite Forall_forall in Hbytes.
      apply Hbytes. apply nth_In. exact Hj.
    - rewrite nth_overflow by exact Hj. lia. }
  pose proof (Hb 2%nat) as B2. pose proof (Hb 3%nat) as B3.
  pose proof (Hb 4%nat) as B4. pose proof (Hb 5%nat) as B5.
  eexists. exists (as_int (reply_clock reply)).
  split; [|split; [reflexivity|]].
  - unfold basesniff_get_timer. rewrite (send_debug_some _ 254 Hfit).
    unfold le32_at, le16_at.
    change (2 + 1)%nat with 3%nat. change (2 + 2)%nat with 4%nat.
    change (4 + 1)%nat with 5%nat.
    rewrite !reply_byte_at by lia. reflexivity.
  - assert (Hempty : reply = [] -> as_int (reply_clock reply) = 0).
    { intros ->. reflexivity. }
    unfold as_int, reply_clock in *.
    set (b2 := nth 2 reply 0) in *. set (b3 := nth 3 reply 0) in *.
    set (b4 := nth 4 reply 0) in *. set (b5 := nth 5 reply 0) in *.
    clearbody b2 b3 b4 b5.
    change (2 ^ 31) with 2147483648 in *. change (2 ^ 32) with 4294967296 in *.
    destruct (b2 + 256 * b3 + 65536 * (b4 + 256 * b5) <? 2147483648) eqn:E.
    + apply Z.ltb_lt in E. split; [lia|]. split; [apply Z.mod_small; lia|].
      split; [lia | exact Hempty].
    + apply Z.ltb_ge in E. split; [lia|]. split.
      * replace (b2 + 256 * b3 + 65536 * (b4 + 256 * b5) - 4294967296)
          with (b2 + 256 * b3 + 65536 * (b4 + 256 * b5) + (-1) * 4294967296) by lia.
        rewrite Z.mod_add by lia. apply Z.mod_small. lia.
      * split; [lia | exact Hempty].
Qed.

End TimerReply.

Lemma get_timer_any_reply_witness :
  exists rq v,
    basesniff_get_timer (H := sample_header) [0; 0; 1; 0; 0; 255] = Some (rq, v) /\
    v = as_int (reply_clock [0; 0; 1; 0; 0; 255]) /\
    - 2 ^ 31 <= v < 2 ^ 31 /\
    v mod 2 ^ 32 = reply_clock [0; 0; 1; 0; 0; 255] /\
    (v < 0 <-> 128 <= nth 5 [0; 0; 1; 0; 0; 255] 0) /\
    ([0; 0; 1; 0; 0; 255] = [] -> v = 0).
Proof.
  assert (Hfit : (@DP_REST sample_header <= 252)%nat) by (vm_compute; lia).
  assert (Hb : bytes [0; 0; 1; 0; 0; 255]) by (repeat constructor; unfold is_byte; lia).
  exact (get_timer_any_reply (H := sample_header) Hfit [0; 0; 1; 0; 0; 255] Hb).
Defined.

Example get_timer_negative :
  exists rq, basesniff_get_timer (H := sample_header) [0; 0; 1; 0; 0; 255] =
             Some (rq, -16777215).
Proof. eexists. vm_compute. reflexivity. Qed.

(** ** The filter command *)

Lemma set_nth_repeat {A : Type} (x v : A) (n k : nat) :
  (k < n)%nat ->
  set_nth (repeat x n) k v = repeat x k ++ [v] ++ repeat x (n - k - 1).
Proof.
  revert k; induction n as [|n IH]; intros k Hk; [lia|].
  destruct k as [|k]; simpl.
  - rewrite Nat.sub_0_r. reflexivity.
  - rewrite IH by lia. reflexivity.
Qed.

Section FilterCommand.
Context {H : Header}.
(** [CMD_FILTER] and the offset of [dp_data] behind [dp_type] are in the
    missing header. *)
Variable CMD_FILTER : Z.
Variable OFF_dp_data : nat.

(** [send_debug_no_rp]: the reply buffer is thrown away. *)
Definition send_debug_no_rp (dp : dbg_packet) : option hci_request :=
  send_debug dp 254.

(** [basesniff_set_filter] for the argument [val] (an [unsigned int]):
    the number printed by ["Filter packets: %d\n"] and the request
    sent. *)
Definition basesniff_set_filter (val : Z) : Z * option hci_request :=
  let pkt := dbg_packet_zero in
  let pkt := {| dp_type := CMD_FILTER; dp_rest := dp_rest pkt |} in
  let shown := as_int val in
  let pkt := {| dp_type := dp_type pkt;
                dp_rest := set_nth (dp_rest pkt) OFF_dp_data (val mod 256) |} in
  (shown, send_debug_no_rp pkt).

(** X4. [basesniff_set_filter] sends the prefix, CMD_FILTER and a
    payload that is zero except for the byte [dp_data[0]], which is the
    argument cut down to [unsigned char]: only the low eight bits of
    the argument reach the firmware, so a nonzero multiple of 256 sends
    the same request as 0. *)
Theorem set_filter_low_byte (Hfit : (DP_REST <= 252)%nat)
    (Hoff : (OFF_dp_data < DP_REST)%nat) (val : Z) :
  snd (basesniff_set_filter val) =
    Some {| rq_ogf := OGF_VENDOR_CMD; rq_ocf := 0; rq_event := EVT_VENDOR;
            rq_cparam := Z.lor (Z.lor FRAG_FIRST FRAG_LAST) CHAN_DEBUG mod 256
                         :: CMD_FILTER mod 256
                         :: repeat 0 OFF_dp_data ++ [val mod 256] ++
                            repeat 0 (DP_REST - OFF_dp_data - 1);
            rq_rlen := 254 |} /\
  (forall val', val' mod 256 = val mod 256 ->
     snd (basesniff_set_filter val') = snd (basesniff_set_filter val)).
Proof.
  assert (Hreq : forall v,
    snd (basesniff_set_filter v) =
    Some {| rq_ogf := OGF_VENDOR_CMD; rq_ocf := 0; rq_event := EVT_VENDOR;
            rq_cparam := Z.lor (Z.lor FRAG_FIRST FRAG_LAST) CHAN_DEBUG mod 256
                         :: CMD_FILTER mod 256
                         :: repeat 0 OFF_dp_data ++ [v mod 256] ++
                            repeat 0 (DP_REST - OFF_dp_data - 1);
            rq_rlen := 254 |}).
  { intros v. unfold basesniff_set_filter, send_debug_no_rp. cbn [snd].
    rewrite (send_debug_some _ 254 Hfit). do 2 f_equal.
    unfold dbg_packet_bytes, dbg_packet_zero. cbn [dp_type dp_rest].
    rewrite set_nth_repeat by exact Hoff.
    rewrite firstn_app.
    assert (Hl : List.length (repeat 0 OFF_dp_data ++ [v mod 256] ++
                              repeat 0 (DP_REST - OFF_dp_data - 1)) = DP_REST).
    { rewrite !length_app, !repeat_length. cbn [List.length]. lia. }
    rewrite Hl, Nat.sub_diag, firstn_O, app_nil_r.
    rewrite firstn_all2 by lia. reflexivity. }
  split; [apply Hreq|].
  intros val' Hv. rewrite !Hreq, Hv. reflexivity.
Qed.

End FilterCommand.

Lemma set_filter_low_byte_witness :
  snd (basesniff_set_filter (H := sample_header) 2 3 256) =
  snd (basesniff_set_filter (H := sample_header) 2 3 0).
Proof.
  assert (Hfit : (@DP_REST sample_header <= 252)%nat) by (vm_compute; lia).
  assert (Hoff : (3 < @DP_REST sample_header)%nat) by (vm_compute; lia).
  apply (proj2 (set_filter_low_byte (H := sample_header) 2 3 Hfit Hoff 0) 256).
  reflexivity.
Defined.

(** ** The MAC pair argument *)

Section ParseMacs.

(** [str2mac], taken as given: the six bytes, or [None] when it prints
    "can't parse mac" and exits. *)
Variable str2mac : list ascii -> option (list Z).

Inductive macs_result : Type :=
| BadMacs                                  (* errx(1, "bad macs") *)
| CantParseMac                             (* exit(1) in str2mac *)
| Macs (master slave : list Z).

(** [strchr(str, c)] on a C string without its terminator: the index of
    the first [c]. *)
Fixpoint strchr (str : list ascii) (c : ascii) : option nat :=
  match str with
  | [] => None
  | x :: rest =>
      if Ascii.eqb x c then Some O
      else match strchr rest c with
           | Some k => Some (S k)
           | None => None
           end
  end.

(** [parse_macs]: the separator is overwritten with a terminator, the
    text before it goes to [str2mac] first, then the text behind it. *)
Definition parse_macs (str : list ascii) : macs_result :=
  match strchr str "@"%char with
  | None => BadMacs
  | Some k =>
      match str2mac (firstn k str) with
      | None => CantParseMac
      | Some master =>
          match str2mac (skipn (S k) str) with
          | None => CantParseMac
          | Some slave => Macs master slave
          end
      end
  end.

Lemma strchr_none (str : list ascii) (c : ascii) :
  strchr str c = None <-> ~ In c str.
Proof.
  induction str as [|x rest IH]; simpl.
  - split; [intros _ [] | reflexivity].
  - destruct (Ascii.eqb x c) eqn:E.
    + apply Ascii.eqb_eq in E. split; [discriminate|]. intros Hn.
      exfalso. apply Hn. left. exact E.
    + apply Ascii.eqb_neq in E. destruct (strchr rest c).
      * split; [discriminate|]. intros Hn. exfalso.
        assert (Hs : Some n <> None) by discriminate.
        apply Hs. apply IH. intros Hin. apply Hn. right. exact Hin.
      * split; [|reflexivity]. intros _ [Hx|Hin]; [contradiction|].
        revert Hin. apply IH. reflexivity.
Qed.

Lemma strchr_some (str : list ascii) (c : ascii) (k : nat) :
  strchr str c = Some k ->
  str = firstn k str ++ c :: skipn (S k) str /\ ~ In c (firstn k str).
Proof.
  revert k; induction str as [|x rest IH]; intros k; simpl; [discriminate|].
  destruct (Ascii.eqb x c) eqn:E.
  - apply Ascii.eqb_eq in E. intros Hk. inversion Hk; subst. simpl.
    split; [reflexivity | intros []].
  - apply Ascii.eqb_neq in E. destruct (strchr rest c) as [j|]; [|discriminate].
    intros Hk. inversion Hk; subst k. destruct (IH j eq_refl) as [Hs Hn].
    cbn [firstn skipn]. split.
    + simpl. f_equal. exact Hs.
    + intros [Hx|Hin]; [contradiction | exact (Hn Hin)].
Qed.

(** X5. [parse_macs] gives up with "bad macs" exactly when the argument
    has no '@'; otherwise it splits at the first '@': the master text
    has no '@' in it and everything behind the first '@', further '@'
    included, is the slave text; the master text is parsed first, so
    when it fails the slave text is not looked at. *)
Theorem parse_macs_splits_at_first (str : list ascii) :
  (parse_macs str = BadMacs <-> ~ In "@"%char str) /\
  (forall master slave, parse_macs str = Macs master slave ->
     exists a b, str = a ++ "@"%char :: b /\ ~ In "@"%char a /\
                 str2mac a = Some master /\ str2mac b = Some slave) /\
  (forall a b, ~ In "@"%char a -> str = a ++ "@"%char :: b -> str2mac a = None ->
     parse_macs str = CantParseMac).
Proof.
  unfold parse_macs. split; [|split].
  - destruct (strchr str "@"%char) as [k|] eqn:E.
    + split.
      * destruct (str2mac (firstn k str)); [|discriminate].
        destruct (str2mac (skipn (S k) str)); discriminate.
      * intros Hn. apply strchr_none in Hn. congruence.
    + split; [|reflexivity]. intros _. apply strchr_none. exact E.
  - intros master slave.
    destruct (strchr str "@"%char) as [k|] eqn:E; [|discriminate].
    destruct (strchr_some _ _ _ E) as [Hs Hn].
    destruct (str2mac (firstn k str)) as [m|] eqn:Em; [|discriminate].
    destruct (str2mac (skipn (S k) str)) as [s|] eqn:Es; [|discriminate].
    intros Hr. inversion Hr; subst.
    exists (firstn k str), (skipn (S k) str). auto.
  - intros a b Hn Hs Ha.
    assert (Hk : strchr str "@"%char = Some (List.length a)).
    { subst str. clear Ha. induction a as [|x a IH]; simpl.
      - reflexivity.
      - destruct (Ascii.eqb x "@"%char) eqn:E.
        + apply Ascii.eqb_eq in E. exfalso. apply Hn. left. exact E.
        + rewrite IH; [reflexivity|]. intros Hin. apply Hn. right. exact Hin. }
    rewrite Hk. subst str. rewrite firstn_app, Nat.sub_diag, firstn_all.
    cbn [firstn]. rewrite app_nil_r, Ha. reflexivity.
Qed.

End ParseMacs.

(** ** The order in which the pairing mask fills *)

(** The flags respect the order of the protocol: a COMB flag needs
    IN_RAND, an AU_RAND flag needs both COMB flags, SRES1 needs
    AU_RAND1 and SRES2 needs AU_RAND2. *)
Definition mask_ordered (m : Z) : bool :=
  implb (Z.testbit m 2 || Z.testbit m 3) (Z.testbit m 1) &&
  implb (Z.testbit m 4 || Z.testbit m 6) (Z.testbit m 2 && Z.testbit m 3) &&
  implb (Z.testbit m 5) (Z.testbit m 4) &&
  implb (Z.testbit m 7) (Z.testbit m 6).

(** The number of flags GOT_IN_RAND .. GOT_SRES2 that are set. *)
Definition flags_set (m : Z) : nat :=
  List.length (filter (Z.testbit m) [1; 2; 3; 4; 5; 6; 7]).

Section MaskOrder.
Context {H : Header}.

(** The flag an accepted input needs to find set. *)
Lemma classify_gate (s : PyState) (op : Z) (a : accepted) :
  classify s op = Some a ->
  match a with
  | AccInRand => True
  | AccComb1 | AccComb2 => Z.testbit (s_pin s) 1 = true
  | AccAuRand1 | AccAuRand2 =>
      Z.testbit (s_pin s) 2 = true /\ Z.testbit (s_pin s) 3 = true
  | AccSres1 => Z.testbit (s_pin s) 4 = true
  | AccSres2 => Z.testbit (s_pin s) 6 = true
  end.
Proof.
  unfold classify. intros E.
  destruct (op =? LMP_IN_RAND), (op =? LMP_COMB_KEY), (op =? LMP_AU_RAND),
    (op =? LMP_SRES), (Z.testbit (s_pin s) 1), (Z.testbit (s_pin s) 2),
    (Z.testbit (s_pin s) 3), (Z.testbit (s_pin s) 6), (Z.testbit (s_pin s) 4),
    (Bool.eqb (s_master s) (s_pin_master s));
    cbn [andb] in E; inversion E; subst a; auto.
Qed.

Ltac mask_bits m :=
  set (b1 := Z.testbit m 1) in *; set (b2 := Z.testbit m 2) in *;
  set (b3 := Z.testbit m 3) in *; set (b4 := Z.testbit m 4) in *;
  set (b5 := Z.testbit m 5) in *; set (b6 := Z.testbit m 6) in *;
  set (b7 := Z.testbit m 7) in *;
  clearbody b1 b2 b3 b4 b5 b6 b7.

Lemma accept_mask_ordered (s : PyState) (op : Z) (a : accepted)
    (buf : list Z) (len : Z) :
  classify s op = Some a -> mask_ordered (s_pin s) = true ->
  mask_ordered (s_pin (accept s a buf len)) = true.
Proof.
  intros Hc Hord. apply classify_gate in Hc.
  unfold mask_ordered in *. cbn [accept s_pin].
  destruct a; try reflexivity; rewrite !Z.lor_spec;
    mask_bits (s_pin s); vm_compute in Hc |- *;
    destruct b1, b2, b3, b4, b5, b6, b7; vm_compute in Hord |- *;
    intuition congruence.
Qed.

Lemma accept_flags_set (s : PyState) (a : accepted) (buf : list Z) (len : Z) :
  (flags_set (s_pin (accept s a buf len)) <= S (flags_set (s_pin s)))%nat.
Proof.
  unfold flags_set. cbn [accept s_pin filter].
  destruct a; [vm_compute; lia | | | | | |]; rewrite !Z.lor_spec;
    mask_bits (s_pin s); vm_compute;
    destruct b1, b2, b3, b4, b5, b6, b7; lia.
Qed.

(** X6. Every transition of [do_pin], and so every run of the
    observer, keeps the flags of the mask in protocol order: no COMB
    flag without GOT_IN_RAND, no AU_RAND flag without both COMB flags,
    GOT_SRES1 only with GOT_AU_RAND1 and GOT_SRES2 only with
    GOT_AU_RAND2. *)
Theorem pin_mask_stays_ordered (w w' : World) (op : Z) (buf : list Z) (len : Z)
    (Hord : mask_ordered (s_pin (st w)) = true)
    (Hrun : do_pin op buf len w = Ok tt w') :
  mask_ordered (s_pin (st w')) = true /\
  (forall ins v v', mask_ordered (s_pin (st v)) = true ->
     feed_all ins v = Ok tt v' -> mask_ordered (s_pin (st v')) = true).
Proof.
  assert (Hstep : forall u u' o b l,
            mask_ordered (s_pin (st u)) = true -> do_pin o b l u = Ok tt u' ->
            mask_ordered (s_pin (st u')) = true).
  { intros u u' o b l Ho Hr. rewrite do_pin_unfold in Hr.
    destruct (classify (st u) o) as [a|] eqn:Hc.
    - destruct (copy_ok b l); [|discriminate]. cbv zeta in Hr.
      pose proof (accept_mask_ordered (st u) o a b l Hc Ho) as Ha.
      match type of Hr with
      | (if ?c then _ else _) = _ => destruct c
      end; inversion Hr; subst u'; [reflexivity | exact Ha].
    - inversion Hr; subst u'. exact Ho. }
  split; [apply (Hstep w w' op buf len Hord Hrun)|].
  induction ins as [|i ins IH]; intros v v' Ho Hr; simpl in Hr.
  - inversion Hr; subst v'. exact Ho.
  - apply bind_ok in Hr. destruct Hr as ([] & v1 & Hf & Hrest).
    apply (IH v1 v'); [|exact Hrest].
    unfold feed in Hf. unfold bind at 1 in Hf. unfold get in Hf.
    unfold bind at 1 in Hf. unfold put in Hf.
    apply (Hstep {| st := with_master (st v) (in_master i);
                    console := console v; dumpfile := dumpfile v |}
                 v1 _ _ _ Ho Hf).
Qed.

(** X7. Each input sets at most one more flag, so a transcript line
    needs at least as many inputs as flags are missing: fed fewer than
    seven inputs, an idle observer prints nothing. *)
Theorem pin_needs_seven_inputs (w w' : World) (ins : list lmp_input)
    (Hfew : (flags_set (s_pin (st w)) + List.length ins < 7)%nat)
    (Hrun : feed_all ins w = Ok tt w') :
  console w' = console w /\
  (flags_set (s_pin (st w')) <= flags_set (s_pin (st w)) + List.length ins)%nat.
Proof.
  revert w Hfew Hrun. induction ins as [|i ins IH]; intros w Hfew Hrun; simpl in *.
  - inversion Hrun; subst w'. split; [reflexivity | lia].
  - apply bind_ok in Hrun. destruct Hrun as ([] & w1 & Hf & Hrest).
    assert (Hone : console w1 = console w /\
                   (flags_set (s_pin (st w1)) <= S (flags_set (s_pin (st w))))%nat).
    { rewrite feed_unfold in Hf. cbv zeta in Hf.
      destruct (classify (with_master (st w) (in_master i)) (in_op i)) as [a|].
      - destruct (copy_ok (in_body i) (Z.of_nat (List.length (in_body i))));
          [|discriminate].
        pose proof (accept_flags_set (with_master (st w) (in_master i)) a (in_body i)
                      (Z.of_nat (List.length (in_body i)))) as Ha.
        cbn [with_master set_frame s_pin] in Ha.
        match type of Hf with
        | (if ?c then _ else _) = _ => destruct c eqn:Hfull
        end; inversion Hf; subst w1.
        + exfalso. apply Z.eqb_eq in Hfull. rewrite Hfull in Ha.
          change (flags_set 255) with 7%nat in Ha. lia.
        + split; [reflexivity | exact Ha].
      - inversion Hf; subst w1. split; [reflexivity|].
        cbn [silent st with_master set_frame s_pin]. lia. }
    destruct Hone as [Hc1 Hn1].
    destruct (IH w1) as [Hc Hn]; [lia | exact Hrest |].
    split; [congruence | lia].
Qed.

End MaskOrder.

Lemma pin_mask_stays_ordered_witness :
  mask_ordered
    (s_pin (st (world_of (do_pin (H := sample_header) 8 (repeat 17 16) 16 idle_world)))) =
  true.
Proof.
  assert (Hrun : do_pin (H := sample_header) 8 (repeat 17 16) 16 idle_world =
                 Ok tt (world_of (do_pin (H := sample_header) 8 (repeat 17 16) 16 idle_world)))
    by (vm_compute; reflexivity).
  assert (Hord : mask_ordered (s_pin (st idle_world)) = true) by reflexivity.
  exact (proj1 (pin_mask_stays_ordered (H := sample_header) idle_world _ _ _ _ Hord Hrun)).
Defined.

Lemma pin_needs_seven_inputs_witness :
  console pairing_mid = console idle_world.
Proof.
  assert (Hfew : (flags_set (s_pin (st idle_world)) + List.length pairing_head < 7)%nat)
    by (vm_compute; lia).
  assert (Hrun : feed_all (H := sample_header) pairing_head idle_world = Ok tt pairing_mid)
    by (vm_compute; reflexivity).
  exact (proj1 (pin_needs_seven_inputs (H := sample_header) _ _ _ Hfew Hrun)).
Defined.

(** ** Every slot of a transcript and its sender *)

Definition bit_of (a : accepted) : Z :=
  match a with
  | AccInRand => 1 | AccComb1 => 2 | AccComb2 => 3 | AccAuRand1 => 4
  | AccSres1 => 5 | AccAuRand2 => 6 | AccSres2 => 7
  end.

(** The side an accepted input comes from, given the initiator. *)
Definition who (a : accepted) (pm : bool) : bool :=
  match a with
  | AccInRand | AccComb1 | AccAuRand1 | AccSres2 => pm
  | AccComb2 | AccAuRand2 | AccSres1 => negb pm
  end.

Definition shown_len (a : accepted) : nat :=
  match a with
  | AccSres1 | AccSres2 => 4
  | _ => 16
  end.

Section AllSlots.
Context {H : Header}.

Definition op_of (a : accepted) : Z :=
  match a with
  | AccInRand => LMP_IN_RAND
  | AccComb1 | AccComb2 => LMP_COMB_KEY
  | AccAuRand1 | AccAuRand2 => LMP_AU_RAND
  | AccSres1 | AccSres2 => LMP_SRES
  end.

(** Every flag that is set has its slot filled by an input of the
    history with the right opcode from the right side. *)
Definition slots_traced (h : list lmp_input) (s : PyState) : Prop :=
  pin_data_wf (s_pin_data s) /\
  forall a, Z.testbit (s_pin s) (bit_of a) = true ->
    src_of h (op_of a) (who a (s_pin_master s)) (nth (slot_of a) (s_pin_data s) []).

Lemma classify_who (s : PyState) (op : Z) (a : accepted) :
  classify s op = Some a -> a <> AccInRand ->
  s_master s = who a (s_pin_master s).
Proof.
  unfold classify. intros E Hne.
  destruct (op =? LMP_IN_RAND), (op =? LMP_COMB_KEY), (op =? LMP_AU_RAND),
    (op =? LMP_SRES), (Z.testbit (s_pin s) 1),
    (Z.testbit (s_pin s) 2 && Z.testbit (s_pin s) 3),
    (Z.testbit (s_pin s) 6), (Z.testbit (s_pin s) 4),
    (s_master s), (s_pin_master s); simpl in E; inversion E; subst a;
    try reflexivity; contradiction Hne; reflexivity.
Qed.

Lemma bit_of_flag (a b : accepted) :
  Z.testbit (flag_of a) (bit_of b) = true -> a = b.
Proof. destruct a, b; intros E; try reflexivity; discriminate E. Qed.

Lemma slot_of_inj (a b : accepted) : slot_of a = slot_of b -> a = b.
Proof. destruct a, b; intros E; try reflexivity; discriminate E. Qed.

Lemma slots_traced_accept (h : list lmp_input) (s : PyState) (i : lmp_input)
    (a : accepted) :
  slots_traced h s ->
  classify (with_master s (in_master i)) (in_op i) = Some a ->
  copy_ok (in_body i) (Z.of_nat (List.length (in_body i))) = true ->
  slots_traced (h ++ [i])
    (accept (with_master s (in_master i)) a (in_body i)
       (Z.of_nat (List.length (in_body i)))).
Proof.
  intros [Hwf Hs] Hc Hok.
  pose proof (classify_op _ _ _ Hc) as Hop.
  pose proof (classify_who _ _ _ Hc) as Hwho.
  cbn [with_master set_frame s_master s_pin_master] in Hwho.
  pose proof (src_of_copied h (with_master s (in_master i)) i (slot_of a) Hwf
                (slot_of_lt a) Hok) as Hsrc.
  split.
  { apply (copied_wf (with_master s (in_master i))); auto. apply slot_of_lt. }
  intros b Hb.
  cbn [accept s_pin s_pin_master s_pin_data with_master set_frame s_master] in *.
  assert (Hcase : a = b \/
            (a <> b /\ a <> AccInRand /\ Z.testbit (s_pin s) (bit_of b) = true)).
  { destruct a.
    - left. destruct b; try reflexivity; discriminate Hb.
    - rewrite Z.lor_spec in Hb. apply orb_true_iff in Hb. destruct Hb as [Hb|Hb];
        [destruct b; try (left; reflexivity); right; repeat split; try discriminate; exact Hb
        | left; apply (bit_of_flag _ _ Hb)].
    - rewrite Z.lor_spec in Hb. apply orb_true_iff in Hb. destruct Hb as [Hb|Hb];
        [destruct b; try (left; reflexivity); right; repeat split; try discriminate; exact Hb
        | left; apply (bit_of_flag _ _ Hb)].
    - rewrite Z.lor_spec in Hb. apply orb_true_iff in Hb. destruct Hb as [Hb|Hb];
        [destruct b; try (left; reflexivity); right; repeat split; try discriminate; exact Hb
        | left; apply (bit_of_flag _ _ Hb)].
    - rewrite Z.lor_spec in Hb. apply orb_true_iff in Hb. destruct Hb as [Hb|Hb];
        [destruct b; try (left; reflexivity); right; repeat split; try discriminate; exact Hb
        | left; apply (bit_of_flag _ _ Hb)].
    - rewrite Z.lor_spec in Hb. apply orb_true_iff in Hb. destruct Hb as [Hb|Hb];
        [destruct b; try (left; reflexivity); right; repeat split; try discriminate; exact Hb
        | left; apply (bit_of_flag _ _ Hb)].
    - rewrite Z.lor_spec in Hb. apply orb_true_iff in Hb. destruct Hb as [Hb|Hb];
        [destruct b; try (left; reflexivity); right; repeat split; try discriminate; exact Hb
        | left; apply (bit_of_flag _ _ Hb)]. }
  destruct Hcase as [<-|(Hne & Hin & Hold)].
  - (* the slot just written *)
    change (in_op i = op_of a) in Hop. rewrite <- Hop.
    replace (who a match a with
                   | AccInRand => in_master i
                   | _ => s_pin_master s
                   end) with (in_master i).
    + exact Hsrc.
    + destruct a; try reflexivity; apply Hwho; discriminate.
  - (* an older slot *)
    rewrite nth_copied by (intros E; apply Hne; apply slot_of_inj; exact E).
    replace (match a with
             | AccInRand => in_master i
             | _ => s_pin_master s
             end) with (s_pin_master s)
      by (destruct a; try reflexivity; contradiction Hin; reflexivity).
    apply src_of_more. apply Hs. exact Hold.
Qed.

(** A printed line all of whose slots are attributed. *)
Definition line_all_senders (h : list lmp_input) (e : event) : Prop :=
  match e with
  | OutPin pm slots =>
      forall a, sent_by h (op_of a) (who a pm) (nth (slot_of a) slots []) /\
                List.length (nth (slot_of a) slots []) = shown_len a
  | _ => True
  end.

Lemma printed_slot (d : list (list Z)) (a : accepted) :
  nth (slot_of a) (printed_slots d) [] = firstn (shown_len a) (nth (slot_of a) d []).
Proof. destruct a; reflexivity. Qed.

Lemma slots_traced_line (h : list lmp_input) (s : PyState) :
  slots_traced h s -> s_pin s = 255 ->
  line_all_senders h (OutPin (s_pin_master s) (printed_slots (s_pin_data s))).
Proof.
  intros [[Hlen Hslots] Hs] Hfull a. rewrite printed_slot.
  assert (Hl : List.length (nth (slot_of a) (s_pin_data s) []) = 16%nat).
  { rewrite Hslots by apply slot_of_lt. reflexivity. }
  split.
  - apply src_of_printed; [rewrite Hl; destruct a; simpl; lia|].
    apply Hs. rewrite Hfull. destruct a; reflexivity.
  - rewrite length_firstn, Hl. destruct a; reflexivity.
Qed.

Lemma line_all_senders_more (h : list lmp_input) (i : lmp_input) (e : event) :
  line_all_senders h e -> line_all_senders (h ++ [i]) e.
Proof.
  destruct e; simpl; auto.
  intros Hall a. destruct (Hall a) as [Hs Hl]. split; [|exact Hl].
  apply sent_by_more. exact Hs.
Qed.

Definition slots_traced_world (h : list lmp_input) (w : World) : Prop :=
  slots_traced h (st w) /\ Forall (line_all_senders h) (console w).

Lemma feed_slots_traced (h : list lmp_input) (w w' : World) (i : lmp_input) :
  slots_traced_world h w -> feed i w = Ok tt w' -> slots_traced_world (h ++ [i]) w'.
Proof.
  intros [Ht Hc] Hrun. rewrite feed_unfold in Hrun. cbv zeta in Hrun.
  assert (Hc' : Forall (line_all_senders (h ++ [i])) (console w)).
  { eapply Forall_impl; [|exact Hc]. intros e. apply line_all_senders_more. }
  destruct (classify (with_master (st w) (in_master i)) (in_op i)) as [a|] eqn:Hcl.
  - destruct (copy_ok (in_body i) (Z.of_nat (List.length (in_body i)))) eqn:Hok;
      [|discriminate].
    pose proof (slots_traced_accept h (st w) i a Ht Hcl Hok) as Ha.
    match type of Hrun with
    | (if ?c then _ else _) = _ => destruct c eqn:Hfull
    end; inversion Hrun; subst w'; clear Hrun.
    + apply Z.eqb_eq in Hfull. split.
      * unfold emitted; cbn [st]. destruct Ha as [Hwf _]. split; [exact Hwf|].
        intros b Hb. cbn [set_pin s_pin] in Hb. destruct b; discriminate Hb.
      * unfold emitted; cbn [console]. apply Forall_app. split; [exact Hc'|].
        constructor; [|constructor]. apply slots_traced_line; auto.
    + split; [exact Ha | exact Hc'].
  - inversion Hrun; subst w'. split; [|exact Hc'].
    destruct Ht as [Hwf Hs]. split; [exact Hwf|].
    intros b Hb. apply src_of_more. apply Hs. exact Hb.
Qed.

Lemma feed_all_slots_traced (ins : list lmp_input) :
  forall h w w', slots_traced_world h w -> feed_all ins w = Ok tt w' ->
                 slots_traced_world (h ++ ins) w'.
Proof.
  induction ins as [|i ins IH]; intros h w w' Ht Hrun; simpl in Hrun.
  - inversion Hrun; subst w'. rewrite app_nil_r. exact Ht.
  - apply bind_ok in Hrun. destruct Hrun as ([] & w1 & Hf & Hrest).
    change (i :: ins) with ([i] ++ ins). rewrite app_assoc.
    apply (IH _ w1 w'); [|exact Hrest].
    apply (feed_slots_traced h w w1 i Ht Hf).
Qed.

(** The body of an input is as long as what the transcript prints of
    it: 16 bytes for IN_RAND, COMB_KEY and AU_RAND, 4 for SRES. *)
Definition full_body (i : lmp_input) : Prop :=
  forall a, in_op i = op_of a -> (shown_len a <= List.length (in_body i))%nat.

(** X8. Every transcript line that an idle armed observer prints is
    made of inputs it was fed.  When each input carries a body as long
    as what is printed of it, slot 0 is the first 16 bytes of an
    IN_RAND sent by the initiator, slots 1 and 2 those of COMB_KEYs
    sent by the initiator and by the responder, slots 3 and 4 those of
    AU_RANDs sent by the initiator and by the responder, slot 5 the
    first 4 bytes of an SRES of the initiator and slot 6 those of an
    SRES of the responder.  Without that condition each printed slot
    has its 16 or 4 bytes and still starts with the body of such an
    input, as far as that body goes. *)
Theorem transcript_slots_by_sender (w w' : World) (ins : list lmp_input)
    (pm : bool) (slots : list (list Z))
    (Harmed : s_pin (st w) = 1)
    (Hwf : pin_data_wf (s_pin_data (st w)))
    (Hcon : console w = [])
    (Hrun : feed_all ins w = Ok tt w')
    (Hline : In (OutPin pm slots) (console w')) :
  (Forall full_body ins ->
   forall a, exists i,
     In i ins /\ in_op i = op_of a /\ in_master i = who a pm /\
     nth (slot_of a) slots [] = firstn (shown_len a) (in_body i)) /\
  (forall a,
    (exists i, In i ins /\ in_op i = op_of a /\ in_master i = who a pm /\
       firstn (List.length (in_body i)) (nth (slot_of a) slots []) =
       firstn (List.length (nth (slot_of a) slots [])) (in_body i)) /\
    List.length (nth (slot_of a) slots []) = shown_len a).
Proof.
  assert (Ht : slots_traced_world [] w).
  { split.
    - split; [exact Hwf|]. intros b Hb. rewrite Harmed in Hb.
      destruct b; discriminate Hb.
    - rewrite Hcon. constructor. }
  pose proof (feed_all_slots_traced ins [] w w' Ht Hrun) as [_ Hall].
  simpl in Hall. rewrite Forall_forall in Hall.
  pose proof (Hall _ Hline) as Hslots. cbn [line_all_senders] in Hslots.
  split; [|exact Hslots].
  intros Hfull a. rewrite Forall_forall in Hfull.
  destruct (Hslots a) as [(i & Hin & Hop & Hm & Hb) Hl].
  exists i. repeat (split; [assumption|]).
  rewrite firstn_all2 in Hb by (rewrite Hl; apply (Hfull i Hin a Hop)).
  rewrite Hl in Hb. exact Hb.
Qed.

End AllSlots.

(** X8, witness: slot 2 of the pairing above is the COMB_KEY that the
    slave, the responder, sent. *)
Lemma transcript_slots_by_sender_witness :
  exists i, In i pairing /\ in_op i = 9 /\ in_master i = false /\
    nth 2 pairing_slots [] = firstn 16 (in_body i).
Proof.
  assert (Hline : In (OutPin true pairing_slots) (console pairing_end)).
  { rewrite pairing_console. left. reflexivity. }
  assert (Hfull : Forall (full_body (H := sample_header)) pairing).
  { unfold pairing, pairing_head, pairing_last. cbn [app].
    repeat (apply Forall_cons;
            [intros a Ha; destruct a; try discriminate Ha; simpl; lia|]).
    apply Forall_nil. }
  exact (proj1 (transcript_slots_by_sender (H := sample_header) idle_world
                  pairing_end pairing true pairing_slots eq_refl idle_wf eq_refl
                  pairing_run Hline) Hfull AccComb2).
Defined.

(** ** Edges of the frontline decoder *)

Section FrontlineEdges.
Context {H : Header}.

(** X9. A fragment that an ignore filter matches ends the decoding of
    the whole buffer: whatever [len] is, [process_frontline] returns
    at once from its first invocation and leaves the session, the
    console and the dump file as they were, so neither the fragment
    nor anything that follows it in the buffer is logged, and the
    length assertions are not reached. *)
Theorem filtered_fragment_hides_rest (buf : list Z) (len : Z) (w : World)
    (hdr0 fplen hlen : Z)
    (H0 : byte_at buf OFF_fp_hdr0 = Some hdr0)
    (Hl : le16_at buf OFF_fp_len = Some fplen)
    (Hh : byte_at buf OFF_fp_hlen = Some hlen)
    (Hk : hlen = HLEN_BC2 \/ hlen = HLEN_BC4)
    (Hf : filtered (st w) (fp_type hdr0) (fp_plen fplen) = true) :
  process_frontline buf len w = Ok (1%nat, true) w.
Proof.
  assert (Hstep : frontline_step buf len w = Ok FlSkipped w);
    [|unfold process_frontline; cbn [process_frontline_fuel];
      rewrite (bind_run _ _ _ _ _ Hstep); reflexivity].
  unfold frontline_step.
  rewrite (read_byte_some _ _ _ H0), (read_le16_some _ _ _ Hl),
    (read_byte_some _ _ _ Hh).
  cbn [bind ret get].
  replace ((hlen =? HLEN_BC2) || (hlen =? HLEN_BC4)) with true
    by (symmetry; apply orb_true_iff; rewrite !Z.eqb_eq; exact Hk).
  cbn [bind ret get].
  fold (fp_type hdr0). fold (fp_plen fplen).
  unfold filtered in Hf.
  destruct (existsb (fun x => x =? fp_type hdr0) (firstn MAX_TYPES (s_ignore (st w)))).
  { reflexivity. }
  cbn [orb] in Hf. rewrite Hf. reflexivity.
Qed.

(** X10. A fragment that no filter matches and whose header announces
    more than the buffer holds ([len < hlen], or a payload longer than
    [len - hlen]) ends the process on the length assertion, and by
    then the frame line is on the console and the link id, the sender
    and the packet type of the session are those of the fragment; the
    payload is not decoded. *)
Theorem frontline_short_buffer_aborts (buf : list Z) (len : Z) (w : World)
    (hdr0 fplen hlen clock chan : Z)
    (H0 : byte_at buf OFF_fp_hdr0 = Some hdr0)
    (Hl : le16_at buf OFF_fp_len = Some fplen)
    (Hh : byte_at buf OFF_fp_hlen = Some hlen)
    (Hc : le32_at buf OFF_fp_clock = Some clock)
    (Hch : byte_at buf OFF_fp_chan = Some chan)
    (Hk : hlen = HLEN_BC2 \/ hlen = HLEN_BC4)
    (Hf : filtered (st w) (fp_type hdr0) (fp_plen fplen) = false)
    (Hshort : len - hlen < 0 \/ len - hlen < fp_plen fplen) :
  let llid := Z.land (Z.shiftr fplen FP_LEN_LLID_SHIFT) FP_LEN_LLID_MASK in
  let master := Z.land clock FP_SLAVE_MASK =? 0 in
  process_frontline buf len w =
  Abort AssertFrontlineLen
    {| st := set_frame (st w) llid master (fp_type hdr0);
       console := console w ++
         [OutFrame {| fl_hlen := hlen; fl_chan := chan; fl_master := master;
                      fl_clock := Z.land clock FP_CLOCK_MASK;
                      fl_status := Z.shiftr clock FP_STATUS_SHIFT;
                      fl_hdr0 := hdr0; fl_type := fp_type hdr0;
                      fl_addr := Z.land hdr0 FP_ADDR_MASK;
                      fl_llid := llid; fl_plen := fp_plen fplen |}];
       dumpfile := dumpfile w |}.
Proof.
  intros llid master.
  match goal with
  | |- _ = Abort ?f ?w1 =>
      assert (Hstep : frontline_step buf len w = Abort f w1);
        [|unfold process_frontline; cbn [process_frontline_fuel];
          unfold bind at 1; rewrite Hstep; reflexivity]
  end.
  unfold frontline_step.
  rewrite (read_byte_some _ _ _ H0), (read_le16_some _ _ _ Hl),
    (read_byte_some _ _ _ Hh), (read_le32_some _ _ _ Hc),
    (read_byte_some _ _ _ Hch).
  cbn [bind ret get].
  replace ((hlen =? HLEN_BC2) || (hlen =? HLEN_BC4)) with true
    by (symmetry; apply orb_true_iff; rewrite !Z.eqb_eq; exact Hk).
  cbn [bind ret get].
  fold (fp_type hdr0). fold (fp_plen fplen).
  unfold filtered in Hf. apply orb_false_iff in Hf. destruct Hf as [Hf1 Hf2].
  rewrite Hf1, Hf2.
  cbn [bind ret get put print st console dumpfile].
  destruct (0 <=? len - hlen) eqn:E1.
  - apply Z.leb_le in E1.
    replace (fp_plen fplen <=? len - hlen) with false
      by (symmetry; apply Z.leb_gt; lia).
    reflexivity.
  - reflexivity.
Qed.

End FrontlineEdges.

Definition type_filter_world : World :=
  {| st := {| s_buf := s_buf idle_state; s_len := 0;
              s_dump := -1; s_ignore := [-1; 0; -1; -1]; s_ignore_zero := 0;
              s_llid := 0; s_master := false; s_type := 0;
              s_pin := 1; s_pin_master := false;
              s_pin_data := s_pin_data idle_state |};
     console := []; dumpfile := [] |}.

(** X9, witness: with packet type 0 ignored, the two fragments above
    leave no trace. *)
Lemma filtered_fragment_hides_rest_witness :
  process_frontline (H := sample_header) two_frags 34 type_filter_world =
    Ok (1%nat, true) type_filter_world.
Proof.
  apply (filtered_fragment_hides_rest (H := sample_header) two_frags 34
           type_filter_world 0 34 15); try reflexivity.
  right. reflexivity.
Defined.

(** X10, witness: the first of the two fragments above in a buffer
    of 16 bytes. *)
Lemma frontline_short_buffer_aborts_witness :
  process_frontline (H := sample_header) two_frags 16 idle_world =
  Abort AssertFrontlineLen
    {| st := set_frame (st idle_world) 2 true 0;
       console := [OutFrame {| fl_hlen := 15; fl_chan := 7; fl_master := true;
                               fl_clock := 0; fl_status := 0; fl_hdr0 := 0;
                               fl_type := 0; fl_addr := 0; fl_llid := 2;
                               fl_plen := 4 |}];
       dumpfile := [] |}.
Proof.
  apply (frontline_short_buffer_aborts (H := sample_header) two_frags 16
           idle_world 0 34 15 0 7); try reflexivity.
  - right. reflexivity.
  - right. vm_compute. reflexivity.
Defined.

(** ** The length check of [process] *)

Lemma le16_at_range (buf : list Z) (off : nat) (v : Z) :
  bytes buf -> le16_at buf off = Some v -> 0 <= v < 65536.
Proof.
  intros Hb. unfold le16_at.
  destruct (byte_at buf off) as [b0|] eqn:E0; [|discriminate].
  destruct (byte_at buf (off + 1)) as [b1|] eqn:E1; [|discriminate].
  intros Hv.
  assert (E : v = b0 + 256 * b1).
  { change (match Some v with Some x => x | None => 0 end = b0 + 256 * b1).
    rewrite <- Hv. reflexivity. }
  rewrite E. clear Hv E.
  pose proof (byte_at_byte _ _ _ Hb E0) as B0.
  pose proof (byte_at_byte _ _ _ Hb E1) as B1.
  unfold is_byte in B0, B1. lia.
Qed.

Section LengthCheck.
Context {H : Header}.

(** X11. For an ACL packet of bytes, [process] goes on to the
    frontline decoder only when the length it is given is exactly the
    [dlen] of the ACL header plus the five bytes before the data; with
    any other [int] length it ends the process on the assertion with
    nothing printed.  The unsigned wrap of [len - sizeof acl - 1] for
    lengths below five never meets a 16-bit [dlen], so reads shorter
    than five bytes always end the process, and so do lengths above
    65540. *)
Theorem process_needs_exact_length (buf : list Z) (len : Z) (w : World) (dlen : Z)
    (Hbytes : bytes buf)
    (Hint : - 2 ^ 31 <= len < 2 ^ 31)
    (Ht : byte_at buf 0 = Some HCI_ACLDATA_PKT)
    (Hd : le16_at (skipn 1 buf) 2 = Some dlen) :
  (len <> dlen + 5 -> process buf len w = Abort AssertAclDlen w) /\
  (len = dlen + 5 ->
   process buf len w =
   (process_frontline (skipn (Z.to_nat sizeof_hci_acl_hdr) (skipn 1 buf)) dlen ;;;
    ret tt) w) /\
  (len < 5 \/ 65540 < len -> process buf len w = Abort AssertAclDlen w).
Proof.
  pose proof (le16_at_range _ _ _ (bytes_skipn 1 buf Hbytes) Hd) as Hr.
  assert (Hbad : len <> dlen + 5 -> process buf len w = Abort AssertAclDlen w).
  { intros Hne. apply (process_bad_dlen buf len w dlen Ht Hd).
    unfold sizeof_hci_acl_hdr, SIZE_T_BITS.
    change (2 ^ 64) with 18446744073709551616.
    change (2 ^ 31) with 2147483648 in Hint.
    intros E.
    destruct (Z_lt_le_dec (len - 4 - 1) 0) as [Hneg|Hpos].
    - assert (E' : (len - 4 - 1) mod 18446744073709551616 =
                   len - 4 - 1 + 18446744073709551616).
      { symmetry. apply (Z.mod_unique _ _ (-1)); lia. }
      lia.
    - rewrite Z.mod_small in E by lia. lia. }
  split; [exact Hbad|]. split.
  - intros E. unfold process, bind at 1, read_byte. rewrite Ht. unfold ret at 1.
    rewrite Z.eqb_refl. cbn [negb]. unfold bind at 1, read_le16. rewrite Hd.
    unfold ret at 1.
    replace (dlen =? (len - sizeof_hci_acl_hdr - 1) mod 2 ^ SIZE_T_BITS) with true.
    + reflexivity.
    + symmetry. apply Z.eqb_eq. unfold sizeof_hci_acl_hdr, SIZE_T_BITS.
      change (2 ^ 64) with 18446744073709551616.
      rewrite Z.mod_small by lia. lia.
  - intros Hout. apply Hbad. lia.
Qed.

End LengthCheck.

(** X11, witness: a read of three bytes over an older ACL packet. *)
Lemma process_needs_exact_length_witness :
  process (H := sample_header) [2; 0; 0; 9; 0; 15] 3 idle_world =
    Abort AssertAclDlen idle_world.
Proof.
  apply (proj2 (proj2 (process_needs_exact_length (H := sample_header)
                         [2; 0; 0; 9; 0; 15] 3 idle_world 9
                         ltac:(repeat constructor; unfold is_byte; lia)
                         ltac:(lia) eq_refl eq_refl))).
  left. lia.
Defined.

(** ** What the decoder never does *)

(** The world a call leaves behind, whether it returns or ends the
    process. *)
Definition after {A : Type} (o : outcome A) : option World :=
  match o with
  | Ok _ w => Some w
  | Abort _ w => Some w
  | _ => None
  end.

Definition not_pin (e : event) : Prop :=
  match e with
  | OutPin _ _ => False
  | _ => True
  end.

(** [undisturbed w w']: from [w] to [w'] the dump descriptor and the
    ignore filters are the same, the console and the dump file have
    only grown, nothing was written to the dump file if no dump was
    asked for, and if the pairing observer was off it is still off,
    its slots are untouched and no transcript was printed. *)
Definition undisturbed (w w' : World) : Prop :=
  s_dump (st w') = s_dump (st w) /\
  s_ignore (st w') = s_ignore (st w) /\
  s_ignore_zero (st w') = s_ignore_zero (st w) /\
  (exists es, console w' = console w ++ es /\
              (s_pin (st w) = 0 -> Forall not_pin es)) /\
  (exists cs, dumpfile w' = dumpfile w ++ cs /\
              (s_dump (st w) = -1 -> cs = [])) /\
  (s_pin (st w) = 0 ->
   s_pin (st w') = 0 /\ s_pin_master (st w') = s_pin_master (st w) /\
   s_pin_data (st w') = s_pin_data (st w)).

Lemma undisturbed_refl (w : World) : undisturbed w w.
Proof.
  repeat split; try reflexivity.
  - exists []. rewrite app_nil_r. split; [reflexivity | constructor].
  - exists []. rewrite app_nil_r. split; reflexivity.
  - assumption.
Qed.

Lemma undisturbed_trans (a b c : World) :
  undisturbed a b -> undisturbed b c -> undisturbed a c.
Proof.
  intros (Hd1 & Hi1 & Hz1 & (es1 & Hc1 & Hn1) & (cs1 & Hf1 & He1) & Hp1)
         (Hd2 & Hi2 & Hz2 & (es2 & Hc2 & Hn2) & (cs2 & Hf2 & He2) & Hp2).
  split; [congruence|]. split; [congruence|]. split; [congruence|].
  split; [|split].
  - exists (es1 ++ es2). split; [rewrite Hc2, Hc1, app_assoc; reflexivity|].
    intros Hz. apply Forall_app. split; [apply Hn1; exact Hz|].
    apply Hn2. apply (Hp1 Hz).
  - exists (cs1 ++ cs2). split; [rewrite Hf2, Hf1, app_assoc; reflexivity|].
    intros Hm. rewrite (He1 Hm), He2 by congruence. reflexivity.
  - intros Hz. destruct (Hp1 Hz) as (Hq & Hm & Hdt).
    destruct (Hp2 Hq) as (Hq2 & Hm2 & Hdt2).
    split; [exact Hq2|]. split; congruence.
Qed.

(** The session differs only in the frame fields and the buffer. *)
Definition same_setup (s s' : PyState) : Prop :=
  s_dump s' = s_dump s /\ s_ignore s' = s_ignore s /\
  s_ignore_zero s' = s_ignore_zero s /\ s_pin s' = s_pin s /\
  s_pin_master s' = s_pin_master s /\ s_pin_data s' = s_pin_data s.

Lemma undisturbed_intro (w w' : World) (es : list event) (cs : list chunk) :
  same_setup (st w) (st w') ->
  console w' = console w ++ es -> Forall not_pin es ->
  dumpfile w' = dumpfile w ++ cs -> (s_dump (st w) = -1 -> cs = []) ->
  undisturbed w w'.
Proof.
  intros (Hd & Hi & Hz & Hp & Hm & Hdt) Hc Hn Hf He.
  split; [exact Hd|]. split; [exact Hi|]. split; [exact Hz|].
  split; [|split].
  - exists es. split; [exact Hc | intros _; exact Hn].
  - exists cs. split; [exact Hf | exact He].
  - intros Hq. split; [congruence|]. split; assumption.
Qed.

Definition steady_at {A : Type} (m : M A) (w : World) : Prop :=
  forall w', after (m w) = Some w' -> undisturbed w w'.

Definition steady {A : Type} (m : M A) : Prop := forall w, steady_at m w.

Lemma steady_at_bind {A B : Type} (m : M A) (k : A -> M B) (w : World) :
  steady_at m w -> (forall a w1, m w = Ok a w1 -> steady_at (k a) w1) ->
  steady_at (bind m k) w.
Proof.
  intros Hm Hk w'. unfold bind.
  destruct (m w) as [a w1|f w1| |] eqn:E; simpl; try discriminate.
  - intros Hr. apply (undisturbed_trans w w1 w').
    + apply Hm. rewrite E. reflexivity.
    + apply (Hk a w1 eq_refl). exact Hr.
  - intros Hr. apply Hm. rewrite E. exact Hr.
Qed.

Lemma steady_bind {A B : Type} (m : M A) (k : A -> M B) :
  steady m -> (forall a, steady (k a)) -> steady (bind m k).
Proof.
  intros Hm Hk w. apply steady_at_bind; [apply Hm|]. intros a w1 _. apply Hk.
Qed.

Lemma steady_at_get {B : Type} (k : PyState -> M B) (w : World) :
  steady_at (k (st w)) w -> steady_at (bind get k) w.
Proof. intros Hk w'. unfold bind, get. apply Hk. Qed.

Lemma steady_ret {A : Type} (a : A) : steady (ret a).
Proof. intros w w' E. inversion E. apply undisturbed_refl. Qed.

Lemma steady_fault {A : Type} : steady (@fault A).
Proof. intros w w' E. discriminate E. Qed.

Lemma steady_abort {A : Type} (f : failure) : steady (@abort A f).
Proof. intros w w' E. inversion E. apply undisturbed_refl. Qed.

Lemma steady_assert (b : bool) (f : failure) : steady (assert b f).
Proof. destruct b; [apply steady_ret | apply steady_abort]. Qed.

Lemma steady_print (e : event) : not_pin e -> steady (print e).
Proof.
  intros Hn w w' E. inversion E.
  apply (undisturbed_intro _ _ [e] []); cbn [st console dumpfile].
  - repeat split.
  - reflexivity.
  - constructor; [exact Hn | constructor].
  - rewrite app_nil_r. reflexivity.
  - reflexivity.
Qed.

Lemma steady_read_byte (buf : list Z) (off : nat) : steady (read_byte buf off).
Proof.
  unfold read_byte. destruct (byte_at buf off); [apply steady_ret | apply steady_fault].
Qed.

Lemma steady_read_le16 (buf : list Z) (off : nat) : steady (read_le16 buf off).
Proof.
  unfold read_le16. destruct (le16_at buf off); [apply steady_ret | apply steady_fault].
Qed.

Lemma steady_at_read_byte {B : Type} (buf : list Z) (off : nat) (k : Z -> M B)
    (w : World) :
  (forall v, steady_at (k v) w) -> steady_at (bind (read_byte buf off) k) w.
Proof.
  intros Hk w'. unfold bind, read_byte.
  destruct (byte_at buf off); [apply Hk | discriminate].
Qed.

Lemma steady_at_read_le32 {B : Type} (buf : list Z) (off : nat) (k : Z -> M B)
    (w : World) :
  (forall v, steady_at (k v) w) -> steady_at (bind (read_le32 buf off) k) w.
Proof.
  intros Hk w'. unfold bind, read_le32.
  destruct (le32_at buf off); [apply Hk | discriminate].
Qed.

Lemma steady_hexdump (buf : list Z) (len : Z) : steady (hexdump buf len).
Proof.
  unfold hexdump.
  match goal with |- context [if ?c then _ else _] => destruct c end;
    [apply steady_print; exact I | apply steady_fault].
Qed.

Lemma steady_at_put (s : PyState) (w : World) :
  same_setup (st w) s -> steady_at (put s) w.
Proof.
  intros Hs w' E. inversion E.
  apply (undisturbed_intro _ _ [] []); cbn [st console dumpfile];
    try (rewrite app_nil_r); try reflexivity; [exact Hs | constructor].
Qed.

(** Writing to the dump file, where a dump was asked for. *)
Lemma steady_at_writes {A : Type} (m : M A) (w : World) :
  s_dump (st w) <> -1 ->
  (forall w', after (m w) = Some w' ->
     st w' = st w /\ console w' = console w /\
     exists cs, dumpfile w' = dumpfile w ++ cs) ->
  steady_at m w.
Proof.
  intros Hd Hm w' E. destruct (Hm w' E) as (Hs & Hc & cs & Hf).
  apply (undisturbed_intro _ _ [] cs).
  - rewrite Hs. repeat split.
  - rewrite app_nil_r. exact Hc.
  - constructor.
  - exact Hf.
  - intros Hz. contradiction.
Qed.

Lemma steady_at_dump_lmp (buf : list Z) (len : Z) (w : World) :
  s_dump (st w) <> -1 -> steady_at (dump_lmp buf len) w.
Proof.
  intros Hd. apply steady_at_writes; [exact Hd|]. intros w'.
  unfold dump_lmp, bind, assert, write, get, ret, abort.
  destruct (len <=? 17); cbn [after st console dumpfile].
  - match goal with |- context [if ?c then _ else _] => destruct c end;
      cbn [after]; [|discriminate].
    intros E. inversion E. cbn [st console dumpfile].
    split; [reflexivity|]. split; [reflexivity|].
    rewrite <- !app_assoc. eexists. reflexivity.
  - intros E. inversion E. split; [reflexivity|]. split; [reflexivity|].
    exists []. rewrite app_nil_r. reflexivity.
Qed.

Lemma steady_process_dv (buf : list Z) (len : Z) : steady (process_dv buf len).
Proof.
  unfold process_dv. apply steady_bind; [apply steady_print; exact I|].
  intros _. apply steady_hexdump.
Qed.

Lemma steady_process_l2cap (buf : list Z) (len : Z) : steady (process_l2cap buf len).
Proof.
  unfold process_l2cap. apply steady_bind; [apply steady_print; exact I|].
  intros _. apply steady_bind; [apply steady_hexdump|]. intros _ w.
  apply steady_at_get.
  destruct (s_dump (st w) =? -1) eqn:Ed; [apply steady_ret|].
  apply Z.eqb_neq in Ed. apply steady_at_writes; [exact Ed|]. intros w'.
  unfold bind, write. cbn [after st console dumpfile].
  intros E. inversion E. cbn [st console dumpfile].
  split; [reflexivity|]. split; [reflexivity|].
  rewrite <- !app_assoc. eexists. reflexivity.
Qed.

Section Steady.
Context {H : Header}.

(** [do_pin] is only called with the observer on. *)
Lemma steady_at_do_pin (op : Z) (buf : list Z) (len : Z) (w : World) :
  s_pin (st w) <> 0 -> steady_at (do_pin op buf len) w.
Proof.
  intros Hon w'. rewrite do_pin_unfold.
  destruct (classify (st w) op) as [a|].
  - destruct (copy_ok buf len); [|discriminate]. cbv zeta.
    match goal with |- context [if ?c then _ else _] => destruct c end;
      cbn [after]; intros E; inversion E; unfold emitted, silent.
    + split; [reflexivity|]. split; [reflexivity|]. split; [reflexivity|].
      cbn [st console dumpfile]. split; [|split].
      * eexists. split; [reflexivity|]. intros Hz. contradiction.
      * exists []. rewrite app_nil_r. split; reflexivity.
      * intros Hz. contradiction.
    + split; [reflexivity|]. split; [reflexivity|]. split; [reflexivity|].
      cbn [st console dumpfile]. split; [|split].
      * exists []. rewrite app_nil_r. split; [reflexivity|]. constructor.
      * exists []. rewrite app_nil_r. split; reflexivity.
      * intros Hz. contradiction.
  - intros E. inversion E. apply undisturbed_refl.
Qed.

Lemma steady_process_lmp (buf : list Z) (len : Z) : steady (process_lmp buf len).
Proof.
  intros w. unfold process_lmp. apply steady_at_get.
  apply steady_at_bind.
  { destruct (s_dump (st w) =? -1) eqn:Ed; cbn [negb]; [apply steady_ret|].
    apply Z.eqb_neq in Ed. apply steady_at_dump_lmp. exact Ed. }
  intros _ w1 _. revert w1.
  apply steady_bind; [apply steady_read_byte|]. intros op1.
  apply steady_bind; [apply steady_assert|]. intros _.
  apply steady_bind.
  { match goal with |- context [if ?c then _ else _] => destruct c end;
      [|apply steady_ret].
    apply steady_bind; [apply steady_read_byte|]. intros op2.
    apply steady_bind; [apply steady_assert|]. intros _. apply steady_ret. }
  intros [[op2 data] n].
  apply steady_bind; [apply steady_print; exact I|]. intros _.
  apply steady_bind;
    [destruct (negb (op2 =? -1)); [apply steady_print; exact I | apply steady_ret]|].
  intros _. apply steady_bind; [apply steady_print; exact I|]. intros _.
  apply steady_bind; [apply steady_hexdump|]. intros _ w2.
  apply steady_at_get.
  destruct (s_pin (st w2) =? 0) eqn:Ep; cbn [negb]; [apply steady_ret|].
  apply Z.eqb_neq in Ep. apply steady_at_do_pin. exact Ep.
Qed.

Lemma steady_process_payload (buf : list Z) (len : Z) :
  steady (process_payload buf len).
Proof.
  intros w. unfold process_payload. apply steady_at_get.
  destruct (s_type (st w) =? TYPE_DV); [apply steady_process_dv|].
  destruct (s_llid (st w) =? LLID_LMP);
    [apply steady_process_lmp | apply steady_process_l2cap].
Qed.

Lemma steady_frontline_step (buf : list Z) (len : Z) :
  steady (frontline_step buf len).
Proof.
  unfold frontline_step.
  apply steady_bind; [apply steady_read_byte|]. intros hdr0.
  apply steady_bind; [apply steady_read_le16|]. intros fplen.
  apply steady_bind; [apply steady_read_byte|]. intros hlen.
  apply steady_bind.
  { match goal with |- context [if ?c then _ else _] => destruct c end;
      [apply steady_ret|].
    apply steady_bind; [apply steady_print; exact I|]. intros _.
    apply steady_abort. }
  intros _ w. apply steady_at_get.
  match goal with |- context [if ?c then _ else _] => destruct c end;
    [apply steady_ret|].
  match goal with |- context [if ?c then _ else _] => destruct c end;
    [apply steady_ret|].
  apply steady_at_read_le32. intros clock.
  apply steady_at_read_byte. intros chan.
  apply steady_at_bind; [apply steady_at_put; repeat split|].
  intros _ w1 _. revert w1.
  apply steady_bind; [apply steady_print; exact I|]. intros _.
  apply steady_bind; [apply steady_assert|]. intros _.
  apply steady_bind; [apply steady_assert|]. intros _.
  apply steady_bind.
  { match goal with |- context [if ?c then _ else _] => destruct c end.
    - apply steady_bind; [apply steady_print; exact I|]. intros _.
      apply steady_process_payload.
    - apply steady_print. exact I. }
  intros _. apply steady_bind; [apply steady_assert|]. intros _.
  match goal with |- context [if ?c then _ else _] => destruct c end;
    apply steady_ret.
Qed.

Lemma steady_process_frontline_fuel (fuel : nat) :
  forall buf len, steady (process_frontline_fuel fuel buf len).
Proof.
  induction fuel as [|fuel IH]; intros buf len.
  - intros w w' E. discriminate E.
  - cbn [process_frontline_fuel].
    apply steady_bind; [apply steady_frontline_step|]. intros [| |buf' len'].
    + apply steady_ret.
    + apply steady_ret.
    + apply steady_bind; [apply IH|]. intros r. apply steady_ret.
Qed.

Lemma steady_process (buf : list Z) (len : Z) : steady (process buf len).
Proof.
  unfold process.
  apply steady_bind; [apply steady_read_byte|]. intros type.
  destruct (negb (type =? HCI_ACLDATA_PKT)); [apply steady_print; exact I|].
  apply steady_bind; [apply steady_read_le16|]. intros dlen.
  apply steady_bind; [apply steady_assert|]. intros _.
  apply steady_bind; [apply steady_process_frontline_fuel|]. intros _.
  apply steady_ret.
Qed.

Lemma steady_read_packet (pkt : list Z) : steady (read_packet pkt).
Proof.
  intros w. unfold read_packet. apply steady_at_get.
  apply steady_at_put. repeat split.
Qed.

Lemma steady_sniff_loop (reads : list (list Z)) : steady (sniff_loop reads).
Proof.
  induction reads as [|pkt rest IH]; cbn [sniff_loop]; [apply steady_ret|].
  apply steady_bind; [apply steady_read_packet|]. intros _ w.
  apply steady_at_get.
  apply steady_at_bind; [apply steady_process|]. intros _ w1 _. apply IH.
Qed.

(** X12. Whatever packets the receive loop is given and whether it
    returns or ends the process on an assertion, it never changes the
    dump descriptor or the ignore filters of the session, it only adds
    to the console and to the dump file, it writes nothing to the dump
    file when the descriptor is -1, and when the pairing observer is
    off ([s_pin = 0]) it stays off, its initiator and its seven slots
    are untouched and no transcript line is printed. *)
Theorem decoder_never_reconfigures (reads : list (list Z)) (w w' : World)
    (Hrun : after (sniff_loop reads w) = Some w') :
  s_dump (st w') = s_dump (st w) /\
  s_ignore (st w') = s_ignore (st w) /\
  s_ignore_zero (st w') = s_ignore_zero (st w) /\
  (exists es, console w' = console w ++ es /\
              (s_pin (st w) = 0 -> Forall not_pin es)) /\
  (exists cs, dumpfile w' = dumpfile w ++ cs /\
              (s_dump (st w) = -1 -> cs = [])) /\
  (s_pin (st w) = 0 ->
   s_pin (st w') = 0 /\ s_pin_master (st w') = s_pin_master (st w) /\
   s_pin_data (st w') = s_pin_data (st w)).
Proof. exact (steady_sniff_loop reads w w' Hrun). Qed.

End Steady.

Definition l2cap_packet : list Z := [2; 0; 0; 19; 0] ++ frag_payload4 ++ [1; 2; 3; 4].

Definition received_end : World :=
  match sniff_loop (H := sample_header) [l2cap_packet; [4; 0; 0]] dumping_world with
  | Ok _ w => w
  | _ => dumping_world
  end.

(** X12, witness: an L2CAP fragment and an event packet received with
    a dump file open and the pairing observer off. *)
Lemma decoder_never_reconfigures_witness : undisturbed dumping_world received_end.
Proof.
  assert (Hrun : after (sniff_loop (H := sample_header) [l2cap_packet; [4; 0; 0]]
                          dumping_world) = Some received_end)
    by (vm_compute; reflexivity).
  exact (decoder_never_reconfigures (H := sample_header) _ _ _ Hrun).
Defined.

(** ** What [process_lmp] prints and hands to the pairing observer *)

Definition printed (w : World) (es : list event) : World :=
  {| st := st w; console := console w ++ es; dumpfile := dumpfile w |}.

Section LmpDecode.
Context {H : Header}.

Lemma process_lmp_dumped (w : World) (buf : list Z) (len : Z) :
  0 <= len <= Z.of_nat (List.length buf) ->
  (s_dump (st w) <> -1 -> len <= 17) ->
  process_lmp buf len w =
  lmp_decode buf len
    (if s_dump (st w) =? -1 then w
     else dumped w (lmp_record (s_master (st w)) buf len)).
Proof.
  intros Hlen Hdump. rewrite process_lmp_split. unfold bind at 1. unfold get.
  unfold bind at 1.
  destruct (s_dump (st w) =? -1) eqn:Ed; cbn [negb].
  - reflexivity.
  - apply Z.eqb_neq in Ed. rewrite dump_lmp_ok by (try apply Hdump; auto; lia).
    reflexivity.
Qed.

Lemma lmp_decode_plain (w0 : World) (b0 : Z) (rest : list Z) (len : Z) :
  1 <= len <= 1 + Z.of_nat (List.length rest) ->
  ~ (124 <= Z.shiftr b0 LMP_OP1_SHIFT <= 127) ->
  lmp_decode (b0 :: rest) len w0 =
  (if s_pin (st w0) =? 0 then ret tt
   else do_pin (Z.shiftr b0 LMP_OP1_SHIFT) rest (len - 1))
    (printed w0 [OutLmp (Z.land b0 LMP_TID_MASK) (Z.shiftr b0 LMP_OP1_SHIFT);
                 OutText ": "; OutHexdump (firstn (Z.to_nat (len - 1)) rest)]).
Proof.
  intros Hlen Hord. unfold lmp_decode. mred.
  set (op1 := Z.shiftr b0 LMP_OP1_SHIFT) in *.
  replace (0 <=? len - 1) with true by (symmetry; apply Z.leb_le; lia).
  replace ((124 <=? op1) && (op1 <=? 127)) with false
    by (symmetry; apply andb_false_iff;
        destruct (Z_lt_le_dec op1 124); [left; apply Z.leb_gt; lia|];
        right; apply Z.leb_gt; lia).
  mred. change (-1 =? -1) with true. mred.
  erewrite bind_run; [|apply hexdump_ok; lia].
  mred.
  unfold logged, printed. cbn [st console dumpfile].
  rewrite <- !app_assoc. cbn [app].
  destruct (s_pin (st w0) =? 0); reflexivity.
Qed.

Lemma lmp_decode_escape (w0 : World) (b0 b1 : Z) (rest : list Z) (len : Z) :
  2 <= len <= 2 + Z.of_nat (List.length rest) ->
  124 <= Z.shiftr b0 LMP_OP1_SHIFT <= 127 -> b1 <> -1 ->
  lmp_decode (b0 :: b1 :: rest) len w0 =
  (if s_pin (st w0) =? 0 then ret tt
   else do_pin (Z.shiftr b0 LMP_OP1_SHIFT) rest (len - 2))
    (printed w0 [OutLmp (Z.land b0 LMP_TID_MASK) (Z.shiftr b0 LMP_OP1_SHIFT);
                 OutOp2 b1; OutText ": ";
                 OutHexdump (firstn (Z.to_nat (len - 2)) rest)]).
Proof.
  intros Hlen Hesc Hb1. unfold lmp_decode. mred.
  set (op1 := Z.shiftr b0 LMP_OP1_SHIFT) in *.
  replace (0 <=? len - 1) with true by (symmetry; apply Z.leb_le; lia).
  replace ((124 <=? op1) && (op1 <=? 127)) with true
    by (symmetry; apply andb_true_iff; split; apply Z.leb_le; lia).
  mred.
  replace (0 <=? len - 1 - 1) with true by (symmetry; apply Z.leb_le; lia).
  mred.
  replace (b1 =? -1) with false by (symmetry; apply Z.eqb_neq; exact Hb1).
  mred.
  erewrite bind_run; [|apply hexdump_ok; lia].
  mred.
  unfold logged, printed. cbn [st console dumpfile].
  rewrite <- !app_assoc. cbn [app].
  replace (len - 1 - 1) with (len - 2) by lia.
  destruct (s_pin (st w0) =? 0); reflexivity.
Qed.

(** X13. [process_lmp] on a body [b0 :: rest] of [len] bytes (with the
    dump on, at most 17): after the dump record, it prints the
    transaction id [b0 & LMP_TID_MASK] and the opcode
    [b0 >> LMP_OP1_SHIFT], then the [len - 1] bytes after the opcode
    byte, and with the pairing observer on hands exactly those bytes
    and that opcode to [do_pin].  For an escape opcode 124..127 the
    second byte is printed as the extended opcode and the [len - 2]
    bytes after it are printed and handed over, still under the first
    opcode. *)
Theorem process_lmp_hands_over (w : World) (b0 : Z) (rest : list Z) (len : Z)
    (Hlen : 1 <= len <= 1 + Z.of_nat (List.length rest))
    (Hdump : s_dump (st w) <> -1 -> len <= 17) :
  let op1 := Z.shiftr b0 LMP_OP1_SHIFT in
  let tid := Z.land b0 LMP_TID_MASK in
  let w0 := if s_dump (st w) =? -1 then w
            else dumped w (lmp_record (s_master (st w)) (b0 :: rest) len) in
  let pin := fun data n => if s_pin (st w) =? 0 then ret tt else do_pin op1 data n in
  (~ (124 <= op1 <= 127) ->
   process_lmp (b0 :: rest) len w =
   pin rest (len - 1)
     (printed w0 [OutLmp tid op1; OutText ": ";
                  OutHexdump (firstn (Z.to_nat (len - 1)) rest)])) /\
  (124 <= op1 <= 127 ->
   forall b1 rest', rest = b1 :: rest' -> 2 <= len -> b1 <> -1 ->
   process_lmp (b0 :: rest) len w =
   pin rest' (len - 2)
     (printed w0 [OutLmp tid op1; OutOp2 b1; OutText ": ";
                  OutHexdump (firstn (Z.to_nat (len - 2)) rest')])).
Proof.
  intros op1 tid w0 pin.
  assert (Hsplit : process_lmp (b0 :: rest) len w = lmp_decode (b0 :: rest) len w0).
  { apply process_lmp_dumped; [cbn [List.length]; lia | exact Hdump]. }
  assert (Hpin : s_pin (st w0) = s_pin (st w)).
  { unfold w0. destruct (s_dump (st w) =? -1); reflexivity. }
  rewrite Hsplit. unfold pin. rewrite <- Hpin. split.
  - intros Hord. apply lmp_decode_plain; assumption.
  - intros Hesc b1 rest' -> Hl2 Hb1. cbn [List.length] in Hlen.
    apply lmp_decode_escape; auto. lia.
Qed.

(** X14. An LMP body of more than 17 bytes ends the process when a
    dump file is open, before anything is written or printed; with
    the dump off and the pairing observer off the same body is decoded
    and printed. *)
Theorem long_lmp_fatal_with_dump (w : World) (b0 : Z) (rest : list Z) (len : Z)
    (Hlong : 17 < len <= 1 + Z.of_nat (List.length rest)) :
  (s_dump (st w) <> -1 ->
   process_lmp (b0 :: rest) len w = Abort AssertLmpLen17 w) /\
  (s_dump (st w) = -1 -> s_pin (st w) = 0 ->
   ~ (124 <= Z.shiftr b0 LMP_OP1_SHIFT <= 127) ->
   process_lmp (b0 :: rest) len w =
   Ok tt (printed w [OutLmp (Z.land b0 LMP_TID_MASK) (Z.shiftr b0 LMP_OP1_SHIFT);
                     OutText ": ";
                     OutHexdump (firstn (Z.to_nat (len - 1)) rest)])).
Proof.
  split.
  - intros Hd. rewrite process_lmp_split. unfold bind at 1. unfold get.
    apply Z.eqb_neq in Hd. rewrite Hd. cbn [negb].
    unfold bind at 1. unfold dump_lmp. unfold bind at 1.
    replace (len <=? 17) with false by (symmetry; apply Z.leb_gt; lia).
    reflexivity.
  - intros Hd Hp Hord.
    rewrite process_lmp_dumped;
      [|cbn [List.length]; lia | intros Hne; contradiction].
    rewrite Hd. change (-1 =? -1) with true. cbv iota.
    rewrite lmp_decode_plain by (auto; lia). rewrite Hp. reflexivity.
Qed.

End LmpDecode.

(** X13, witness: an IN_RAND of 16 bytes seen by an armed observer. *)
Lemma process_lmp_hands_over_witness :
  process_lmp (H := sample_header) (16 :: repeat 17 16) 17 idle_world =
  do_pin (H := sample_header) 8 (repeat 17 16) 16
    (printed idle_world [OutLmp 0 8; OutText ": "; OutHexdump (repeat 17 16)]).
Proof.
  assert (Hlen : 1 <= 17 <= 1 + Z.of_nat (List.length (repeat 17 16)))
    by (vm_compute; split; discriminate).
  assert (Hdump : s_dump (st idle_world) <> -1 -> 17 <= 17) by (intros _; lia).
  assert (Hord : ~ (124 <= Z.shiftr 16 (LMP_OP1_SHIFT (Header := sample_header)) <= 127))
    by (vm_compute; intros [Ha _]; apply Ha; reflexivity).
  exact (proj1 (process_lmp_hands_over (H := sample_header) idle_world 16
                  (repeat 17 16) 17 Hlen Hdump) Hord).
Defined.

(** X14, witness: a body of 18 bytes with the dump file open. *)
Lemma long_lmp_fatal_with_dump_witness :
  process_lmp (H := sample_header) (16 :: repeat 17 17) 18 dumping_world =
    Abort AssertLmpLen17 dumping_world.
Proof.
  assert (Hlong : 17 < 18 <= 1 + Z.of_nat (List.length (repeat 17 17)))
    by (vm_compute; split; [reflexivity | discriminate]).
  assert (Hd : s_dump (st dumping_world) <> -1) by discriminate.
  exact (proj1 (long_lmp_fatal_with_dump (H := sample_header) dumping_world 16
                  (repeat 17 17) 18 Hlong) Hd).
Defined.

(** ** The transcript line can be read back *)

(** The sixteen values of a hex digit. *)
Definition nibbles : list Z := map Z.of_nat (seq 0 16).

Lemma nibble_in (n : Z) : 0 <= n < 16 -> In n nibbles.
Proof.
  intros Hn. replace n with (Z.of_nat (Z.to_nat n)) by lia.
  apply in_map. apply in_seq. lia.
Qed.

Lemma hexdigit_inj (a b : Z) :
  0 <= a < 16 -> 0 <= b < 16 -> hexdigit a = hexdigit b -> a = b.
Proof.
  intros Ha Hb.
  pose proof (nibble_in a Ha) as Ca. pose proof (nibble_in b Hb) as Cb.
  vm_compute in Ca, Cb.
  repeat (destruct Ca as [Ca|Ca]); try contradiction;
    repeat (destruct Cb as [Cb|Cb]); try contradiction;
    subst a b; intros E; try reflexivity; discriminate E.
Qed.

Lemma hexdigit_not_blank (a : Z) :
  0 <= a < 16 -> hexdigit a <> " "%char /\ hexdigit a <> "010"%char.
Proof.
  intros Ha. pose proof (nibble_in a Ha) as Ca. vm_compute in Ca.
  repeat (destruct Ca as [Ca|Ca]); try contradiction; subst a; split; discriminate.
Qed.

Lemma hexstr_cons_app (a : Z) (l : list Z) (x : string) :
  (hexstr (a :: l) ++ x)%string =
  String (hexdigit ((a / 16) mod 16))
    (String (hexdigit (a mod 16)) (hexstr l ++ x)%string).
Proof. reflexivity. Qed.

Lemma byte_of_nibbles (a b : Z) :
  is_byte a -> is_byte b ->
  (a / 16) mod 16 = (b / 16) mod 16 -> a mod 16 = b mod 16 -> a = b.
Proof.
  unfold is_byte. intros Ha Hb Hh Hl.
  rewrite (Z.mod_small (a / 16)) in Hh
    by (split; [apply Z.div_pos; lia | apply Z.div_lt_upper_bound; lia]).
  rewrite (Z.mod_small (b / 16)) in Hh
    by (split; [apply Z.div_pos; lia | apply Z.div_lt_upper_bound; lia]).
  rewrite (Z.div_mod a 16), (Z.div_mod b 16) by lia. rewrite Hh, Hl. reflexivity.
Qed.

Lemma hexstr_blank_inj (l : list Z) :
  forall (l' : list Z) (r r' : string),
    bytes l -> bytes l' ->
    (hexstr l ++ String " " r)%string = (hexstr l' ++ String " " r')%string ->
    l = l' /\ r = r'.
Proof.
  induction l as [|a l IH]; intros [|b l'] r r' Hl Hl' E.
  - change (String " " r = String " " r') in E. inversion E. split; reflexivity.
  - rewrite hexstr_cons_app in E. change (hexstr [] ++ String " " r)%string
      with (String " " r) in E.
    exfalso.
    assert (Ec : " "%char = hexdigit ((b / 16) mod 16)).
    { change (match String " " r with String c _ => c | EmptyString => " "%char end =
              hexdigit ((b / 16) mod 16)).
      rewrite E. reflexivity. }
    apply (proj1 (hexdigit_not_blank ((b / 16) mod 16)
                    (Z.mod_pos_bound _ 16 ltac:(lia)))).
    symmetry. exact Ec.
  - rewrite hexstr_cons_app in E. change (hexstr [] ++ String " " r')%string
      with (String " " r') in E.
    exfalso.
    assert (Ec : hexdigit ((a / 16) mod 16) = " "%char).
    { change (hexdigit ((a / 16) mod 16) =
              match String " " r' with String c _ => c | EmptyString => " "%char end).
      rewrite <- E. reflexivity. }
    apply (proj1 (hexdigit_not_blank ((a / 16) mod 16)
                    (Z.mod_pos_bound _ 16 ltac:(lia)))).
    exact Ec.
  - rewrite !hexstr_cons_app in E.
    set (ah := (a / 16) mod 16) in *. set (al := a mod 16) in *.
    set (bh := (b / 16) mod 16) in *. set (bl := b mod 16) in *.
    assert (E1 : hexdigit ah = hexdigit bh) by congruence.
    assert (E2 : hexdigit al = hexdigit bl) by congruence.
    assert (E3 : (hexstr l ++ String " " r)%string = (hexstr l' ++ String " " r')%string)
      by congruence.
    inversion Hl as [|? ? Ba Bl]; inversion Hl' as [|? ? Bb Bl']; subst.
    destruct (IH l' r r' Bl Bl' E3) as [-> ->].
    apply hexdigit_inj in E1; [|apply Z.mod_pos_bound; lia|apply Z.mod_pos_bound; lia].
    apply hexdigit_inj in E2; [|apply Z.mod_pos_bound; lia|apply Z.mod_pos_bound; lia].
    rewrite (byte_of_nibbles a b Ba Bb E1 E2). split; reflexivity.
Qed.

Definition slots_text (slots : list (list Z)) : string :=
  fold_right (fun l acc => hexstr l ++ " " ++ acc)%string (String "010" EmptyString) slots.

Lemma slots_text_inj (slots : list (list Z)) :
  forall slots', Forall bytes slots -> Forall bytes slots' ->
    slots_text slots = slots_text slots' -> slots = slots'.
Proof.
  assert (Hend : forall (l : list Z) (x : string),
             String "010" EmptyString <> (hexstr l ++ String " " x)%string).
  { intros [|b l] x E.
    - discriminate E.
    - rewrite hexstr_cons_app in E.
      assert (Ec : "010"%char = hexdigit ((b / 16) mod 16)) by congruence.
      apply (proj2 (hexdigit_not_blank ((b / 16) mod 16)
                      (Z.mod_pos_bound _ 16 ltac:(lia)))).
      symmetry. exact Ec. }
  induction slots as [|l slots IH]; intros [|l' slots'] Hs Hs' E.
  - reflexivity.
  - exfalso. apply (Hend l' (slots_text slots')). exact E.
  - exfalso. apply (Hend l (slots_text slots)). symmetry. exact E.
  - inversion Hs as [|? ? Bl Bs]; inversion Hs' as [|? ? Bl' Bs']; subst.
    change (hexstr l ++ String " " (slots_text slots) =
            hexstr l' ++ String " " (slots_text slots'))%string in E.
    destruct (hexstr_blank_inj l l' _ _ Bl Bl' E) as [-> E'].
    rewrite (IH slots' Bs Bs' E'). reflexivity.
Qed.

Lemma append_inj_l (p s s' : string) : (p ++ s)%string = (p ++ s')%string -> s = s'.
Proof.
  induction p as [|c p IH]; intros E; [exact E|].
  apply IH. cbn [String.append] in E. congruence.
Qed.

(** X15. The line that [do_pin] prints for the cracker can be read
    back: two lines are the same text only if they name the same role
    order and carry the same seven byte strings, so no two different
    transcripts print alike. *)
Theorem pin_line_unambiguous (pm pm' : bool) (slots slots' : list (list Z))
    (Hb : Forall bytes slots) (Hb' : Forall bytes slots') :
  pin_line pm slots = pin_line pm' slots' <-> pm = pm' /\ slots = slots'.
Proof.
  split; [|intros [-> ->]; reflexivity].
  unfold pin_line. intros E. apply append_inj_l in E.
  fold (slots_text slots) in E. fold (slots_text slots') in E.
  destruct pm, pm'.
  - apply append_inj_l in E. split; [reflexivity|].
    apply slots_text_inj; assumption.
  - exfalso. cbn [pin_roles String.append] in E. discriminate E.
  - exfalso. cbn [pin_roles String.append] in E. discriminate E.
  - apply append_inj_l in E. split; [reflexivity|].
    apply slots_text_inj; assumption.
Qed.

(** X15, witness: the transcript above under the two role orders. *)
Lemma pin_line_unambiguous_witness :
  pin_line true pairing_slots = pin_line false pairing_slots <->
  true = false /\ pairing_slots = pairing_slots.
Proof.
  assert (Hb : Forall bytes pairing_slots)
    by (repeat constructor; unfold is_byte; lia).
  exact (pin_line_unambiguous true false pairing_slots pairing_slots Hb Hb).
Defined.

(** * The launcher script *)

Module Launcher.

Local Open Scope string_scope.

(** [l.remove(x)]: drops the first [x]; [None] is the [ValueError] of
    a list without [x]. *)
Fixpoint remove (x : string) (l : list string) : option (list string) :=
  match l with
  | [] => None
  | y :: t =>
      if String.eqb y x then Some t
      else match remove x t with
           | Some t' => Some (y :: t')
           | None => None
           end
  end.

(** [x in l] *)
Definition contains (x : string) (l : list string) : bool :=
  existsb (String.eqb x) l.

(** What the script asks of the system after its [putenv] calls: the
    directory it changes to, if any, and the command it runs. *)
Record launch_cmd : Type := {
  chdir : option string;
  command : string
}.

(** The [if os.name == 'nt'] statement, for [sys.argv = argv] and
    [sys.executable = executable]; [None] is an uncaught exception. *)
Definition launch (nt : bool) (executable : string) (argv : list string)
    : option launch_cmd :=
  if nt then
    Some {| chdir := Some "umit/pm";
            command := "python PacketManipulator " ++ String.concat " " (List.tl argv) |}
  else if contains "--debug" argv then
    let args := List.tl argv in
    match remove "--debug" args with
    | None => None
    | Some args =>
        Some {| chdir := None;
                command := "gdb --args " ++ executable ++
                           " umit/pm/PacketManipulator " ++ String.concat " " args |}
    end
  else
    Some {| chdir := None;
            command := executable ++ " umit/pm/PacketManipulator " ++
                       String.concat " " (List.tl argv) |}.

Lemma contains_in (x : string) (l : list string) :
  contains x l = true <-> In x l.
Proof.
  unfold contains. rewrite existsb_exists. split.
  - intros (y & Hy & E). apply String.eqb_eq in E. subst y. exact Hy.
  - intros Hin. exists x. split; [exact Hin | apply String.eqb_refl].
Qed.

Lemma remove_first (x : string) (pre post : list string) :
  ~ In x pre -> remove x (pre ++ x :: post)%list = Some (pre ++ post)%list.
Proof.
  induction pre as [|y pre IH]; intros Hn; cbn [remove app].
  - rewrite String.eqb_refl. reflexivity.
  - destruct (String.eqb y x) eqn:E.
    + apply String.eqb_eq in E. exfalso. apply Hn. left. exact E.
    + rewrite IH by (intros Hin; apply Hn; right; exact Hin). reflexivity.
Qed.

Lemma remove_absent (x : string) (l : list string) :
  ~ In x l -> remove x l = None.
Proof.
  induction l as [|y l IH]; intros Hn; cbn [remove]; [reflexivity|].
  destruct (String.eqb y x) eqn:E.
  - apply String.eqb_eq in E. exfalso. apply Hn. left. exact E.
  - rewrite IH by (intros Hin; apply Hn; right; exact Hin). reflexivity.
Qed.

(** X16. Off Windows the launcher takes only the first [--debug] out
    of the arguments: the program runs under gdb with every other
    argument in its place, later [--debug]s included.  A script that
    is itself called [--debug] and has no such argument dies with the
    [ValueError] of [remove]; without any [--debug] the program is run
    directly with the arguments as they are. *)
Theorem debug_flag_removed_once (executable argv0 : string) (pre post : list string)
    (Hpre : ~ In "--debug" pre) :
  launch false executable (argv0 :: (pre ++ "--debug" :: post)%list) =
    Some {| chdir := None;
            command := "gdb --args " ++ executable ++ " umit/pm/PacketManipulator " ++
                       String.concat " " (pre ++ post)%list |} /\
  launch false executable ("--debug" :: pre) = None /\
  (argv0 <> "--debug" ->
   launch false executable (argv0 :: pre) =
     Some {| chdir := None;
             command := executable ++ " umit/pm/PacketManipulator " ++
                        String.concat " " pre |}).
Proof.
  split; [|split].
  - unfold launch.
    replace (contains "--debug" (argv0 :: (pre ++ "--debug" :: post)%list)) with true
      by (symmetry; apply contains_in; right; apply in_or_app; right; left; reflexivity).
    cbn [List.tl]. rewrite remove_first by exact Hpre. reflexivity.
  - unfold launch.
    replace (contains "--debug" ("--debug" :: pre)) with true
      by (symmetry; apply contains_in; left; reflexivity).
    cbn [List.tl]. rewrite remove_absent by exact Hpre. reflexivity.
  - intros Hne. unfold launch.
    replace (contains "--debug" (argv0 :: pre)) with false; [reflexivity|].
    symmetry. apply not_true_iff_false. rewrite contains_in.
    intros [E|Hin]; [apply Hne; exact E | apply Hpre; exact Hin].
Qed.

(** X16, witness: [PacketManipulator -v --debug x --debug]. *)
Lemma debug_flag_removed_once_witness :
  launch false "python" ["PacketManipulator"; "-v"; "--debug"; "x"; "--debug"] =
    Some {| chdir := None;
            command := "gdb --args python umit/pm/PacketManipulator -v x --debug" |}.
Proof.
  assert (Hpre : ~ In "--debug" ["-v"]).
  { intros [E|[]]. discriminate E. }
  exact (proj1 (debug_flag_removed_once "python" "PacketManipulator"
                  ["-v"] ["x"; "--debug"] Hpre)).
Defined.

End Launcher.
